(** * IATTC data crawler: change detection, validated download, processing chain

    A shallow embedding of [iattc-crawler.py].  Text is a string of code
    points below 256 and bytes are 8-bit strings, the network is an oracle answering the requests a session
    issues, the disk is a finite map from paths to file contents, and Python
    exceptions are an explicit error result threaded through a small
    state-and-exception monad.  Calls to the logger change nothing the
    program reads and are left out. *)

From Stdlib Require Import ZArith NArith Ascii String List Bool Lia.
From stdpp Require Import base option list gmap strings fin_maps pretty.

Local Open Scope string_scope.
Local Open Scope list_scope.

(* ===================================================================== *)
(** ** Python exceptions and results *)
(* ===================================================================== *)

(** The exception classes the handlers of the program tell apart. *)
Inductive exn : Type :=
| RequestException      (* requests.RequestException and its subclasses *)
| UnicodeDecodeError
| BadZipFile
| ValueError
| AttributeError
| OSError
| CsvError              (* csv.Error *)
| RecursionError
| PlainException (msg : string).   (* raise Exception(msg) *)

Inductive result (A : Type) : Type :=
| Ok (a : A)
| Raise (e : exn).
Arguments Ok {A} a.
Arguments Raise {A} e.

Definition is_ok {A} (r : result A) : bool :=
  match r with Ok _ => true | Raise _ => false end.

(** State-and-exception monad: a computation reads and updates a world [S]
    and either returns or raises; the world survives a raise, as the side
    effects of a Python call do. *)
Definition M (S A : Type) : Type := S -> result A * S.

Definition ret {S A} (a : A) : M S A := fun s => (Ok a, s).
Definition raise {S A} (e : exn) : M S A := fun s => (Raise e, s).
Definition bind {S A B} (m : M S A) (k : A -> M S B) : M S B :=
  fun s => match m s with
           | (Ok a, s') => k a s'
           | (Raise e, s') => (Raise e, s')
           end.
(** [try m except handles: h]: the handler sees the exception only when the
    [except] clause names its class. *)
Definition try_except {S A} (m : M S A) (handles : exn -> bool) (h : exn -> M S A) : M S A :=
  fun s => match m s with
           | (Ok a, s') => (Ok a, s')
           | (Raise e, s') => if handles e then h e s' else (Raise e, s')
           end.
Definition get {S} : M S S := fun s => (Ok s, s).
Definition modify {S} (f : S -> S) : M S unit := fun s => (Ok tt, f s).
Definition lift_result {S A} (r : result A) : M S A := fun s => (r, s).

Declare Scope py_scope.
Delimit Scope py_scope with py.
Notation "x <~ m ;; k" := (bind m (fun x => k))
  (at level 10, m at level 99, k at level 200, only parsing) : py_scope.
Notation "'exec' m ;; k" := (bind m (fun _ => k))
  (at level 10, m at level 99, k at level 200, only parsing) : py_scope.
Local Open Scope py_scope.

(** [except Exception] catches every class modelled here. *)
Definition any_exception (_ : exn) : bool := true.
Definition is_RequestException (e : exn) : bool :=
  match e with RequestException => true | _ => false end.
Definition is_UnicodeDecodeError (e : exn) : bool :=
  match e with UnicodeDecodeError => true | _ => false end.
Definition is_BadZipFile (e : exn) : bool :=
  match e with BadZipFile => true | _ => false end.

(* ===================================================================== *)
(** ** Python string primitives *)
(* ===================================================================== *)

Module PyStr.

Definition code (c : ascii) : N := N_of_ascii c.

(** [str.isspace] on code points below 256: TAB..CR, FS..US, space, NEL
    and the no-break space. *)
Definition is_space (c : ascii) : bool :=
  let n := code c in
  ((9 <=? n) && (n <=? 13) || (28 <=? n) && (n <=? 32) || (n =? 133) || (n =? 160))%N.

(** [str.lower] on code points below 256: A..Z and the accented capitals
    U+00C0..U+00DE, the multiplication sign apart. *)
Definition lower_char (c : ascii) : ascii :=
  let n := code c in
  if ((65 <=? n) && (n <=? 90) || (192 <=? n) && (n <=? 222) && negb (n =? 215))%N
  then ascii_of_N (n + 32) else c.

Definition chars (s : string) : list ascii := list_ascii_of_string s.
Definition of_chars (l : list ascii) : string := string_of_list_ascii l.

Fixpoint lstrip (l : list ascii) : list ascii :=
  match l with
  | c :: l' => if is_space c then lstrip l' else l
  | [] => []
  end.
Definition rstrip (l : list ascii) : list ascii := rev (lstrip (rev l)).

(** [s.strip()] *)
Definition strip (s : string) : string := of_chars (rstrip (lstrip (chars s))).
(** [s.lower()] *)
Definition lower (s : string) : string := of_chars (map lower_char (chars s)).

Definition digit_val (c : ascii) : option N :=
  let n := code c in
  if ((48 <=? n) && (n <=? 57))%N then Some (n - 48)%N else None.

Definition is_underscore (c : ascii) : bool := (code c =? 95)%N.

(** digit (["_"] digit)*, with the value read and the number of digits. *)
Fixpoint digitpart_tail (acc : N) (n : nat) (l : list ascii) : N * nat * list ascii :=
  match l with
  | c :: l' =>
      match digit_val c with
      | Some d => digitpart_tail (10 * acc + d)%N (S n) l'
      | None =>
          if is_underscore c then
            match l' with
            | c' :: l'' =>
                match digit_val c' with
                | Some d => digitpart_tail (10 * acc + d)%N (S n) l''
                | None => (acc, n, l)
                end
            | [] => (acc, n, l)
            end
          else (acc, n, l)
      end
  | [] => (acc, n, [])
  end.

Definition digitpart (l : list ascii) : option (N * nat * list ascii) :=
  match l with
  | c :: l' =>
      match digit_val c with
      | Some d => Some (digitpart_tail d 1 l')
      | None => None
      end
  | [] => None
  end.

(** An optional sign; [true] is minus. *)
Definition sign (l : list ascii) : bool * list ascii :=
  match l with
  | c :: l' =>
      if (code c =? 45)%N then (true, l')
      else if (code c =? 43)%N then (false, l')
      else (false, l)
  | [] => (false, [])
  end.

(** The whitespace [int] and [float] skip at both ends: that of
    [str.isspace] without the separators FS..US. *)
Definition is_blank (c : ascii) : bool :=
  let n := code c in
  ((9 <=? n) && (n <=? 13) || (n =? 32) || (n =? 133) || (n =? 160))%N.

Fixpoint skip_blank (l : list ascii) : list ascii :=
  match l with
  | c :: l' => if is_blank c then skip_blank l' else l
  | [] => []
  end.
Definition trim_blank (l : list ascii) : list ascii := rev (skip_blank (rev (skip_blank l))).

(** [sys.get_int_max_str_digits()], as the interpreter sets it. *)
Definition int_max_str_digits : nat := 4300.

(** [int(s)] for a string in base 10; [None] is [ValueError], also raised
    for a literal of more than [int_max_str_digits] digits. *)
Definition int (s : string) : option Z :=
  let '(neg, l) := sign (trim_blank (chars s)) in
  match digitpart l with
  | Some (v, n, []) =>
      if (int_max_str_digits <? n)%nat then None
      else Some (if neg then (- Z.of_N v)%Z else Z.of_N v)
  | _ => None
  end.

(** The value [float(s)] denotes, as the exact decimal the literal spells:
    rounding to binary64 is not modelled. *)
Inductive pyfloat : Type :=
| FInf (neg : bool)
| FNan
| FDec (neg : bool) (mantissa : N) (exp10 : Z).

Definition exponent (l : list ascii) : option Z :=
  match l with
  | [] => Some 0%Z
  | c :: l' =>
      if (code (lower_char c) =? 101)%N then
        let '(eneg, l'') := sign l' in
        match digitpart l'' with
        | Some (v, _, []) => Some (if eneg then (- Z.of_N v)%Z else Z.of_N v)
        | _ => None
        end
      else None
  end.

Definition is_dot (c : ascii) : bool := (code c =? 46)%N.

Definition decimal (neg : bool) (l : list ascii) : option pyfloat :=
  match digitpart l with
  | Some (ip, _, rest) =>
      match rest with
      | c :: r =>
          if is_dot c then
            match digitpart r with
            | Some (fp, nf, rest') =>
                e ← exponent rest';
                Some (FDec neg (ip * 10 ^ N.of_nat nf + fp)%N (e - Z.of_nat nf)%Z)
            | None => e ← exponent r; Some (FDec neg ip e)
            end
          else e ← exponent rest; Some (FDec neg ip e)
      | [] => Some (FDec neg ip 0%Z)
      end
  | None =>
      match l with
      | c :: r =>
          if is_dot c then
            match digitpart r with
            | Some (fp, nf, rest') =>
                e ← exponent rest'; Some (FDec neg fp (e - Z.of_nat nf)%Z)
            | None => None
            end
          else None
      | [] => None
      end
  end.

(** [float(s)]; [None] is [ValueError]. *)
Definition float (s : string) : option pyfloat :=
  let '(neg, l) := sign (trim_blank (chars s)) in
  let w := of_chars (map lower_char l) in
  if (w =? "inf") || (w =? "infinity") then Some (FInf neg)
  else if w =? "nan" then Some FNan
  else decimal neg l.

(** [s in (t1, t2, ...)] *)
Definition mem (s : string) (l : list string) : bool :=
  existsb (String.eqb s) l.

End PyStr.

(* ===================================================================== *)
(** ** Configuration, paths and the disk *)
(* ===================================================================== *)

(** The settings the program reads.  The integer ones are taken
    non-negative; a pool of [max_workers] below 1 cannot be built. *)
Record Config : Type := {
  base_url : string;
  download_dir : string;
  output_dir : string;
  max_workers : nat;
  user_agent : string;
  request_timeout : nat;
  retry_attempts : nat
}.

Definition default_config : Config := {|
  base_url := "https://iattc.org/en-US/Data/Public-domain";
  download_dir := "./downloads";
  output_dir := "./json_output";
  max_workers := 4;
  user_agent := "IATTC-Data-Monitor/1.0";
  request_timeout := 30;
  retry_attempts := 3
|}.

(** [pathlib] and [os.path] on POSIX.  A path is held as the string
    [str()] gives for it. *)
Module PyPath.

Definition is_sep (c : ascii) : bool := (PyStr.code c =? 47)%N.

(** The characters up to the first one satisfying [p], and what follows
    that character; [None] when there is none. *)
Fixpoint split_at (p : ascii -> bool) (l : list ascii) : option (list ascii * list ascii) :=
  match l with
  | [] => None
  | c :: l' =>
      if p c then Some ([], l')
      else match split_at p l' with
           | Some (a, b) => Some (c :: a, b)
           | None => None
           end
  end.

(** What follows the last separator. *)
Definition name_chars (p : string) : list ascii :=
  match split_at is_sep (rev (PyStr.chars p)) with
  | Some (last_rev, _) => rev last_rev
  | None => PyStr.chars p
  end.

(** [os.path.basename(p)] *)
Definition basename (p : string) : string := PyStr.of_chars (name_chars p).

(** [path.name]: the last component; the path ["."] has none. *)
Definition name (p : string) : string :=
  if p =? "." then "" else PyStr.of_chars (name_chars p).

(** The name cut at its last dot, when that dot is neither its first nor
    its last character: (stem, extension without the dot). *)
Definition split_suffix (p : string) : option (list ascii * list ascii) :=
  match split_at PyStr.is_dot (rev (name_chars p)) with
  | Some (ext_rev, base_rev) =>
      match ext_rev, base_rev with
      | _ :: _, _ :: _ => Some (rev base_rev, rev ext_rev)
      | _, _ => None
      end
  | None => None
  end.

Definition suffix (p : string) : string :=
  match split_suffix p with
  | Some (_, ext) => PyStr.of_chars ("."%char :: ext)
  | None => ""
  end.

Definition stem (p : string) : string :=
  match split_suffix p with
  | Some (base, _) => PyStr.of_chars base
  | None => name p
  end.

(** [s.split("/")] *)
Fixpoint split_sep (l : list ascii) : list (list ascii) :=
  match l with
  | [] => [[]]
  | c :: l' =>
      if is_sep c then [] :: split_sep l'
      else match split_sep l' with
           | x :: xs => (c :: x) :: xs
           | [] => [[c]]
           end
  end.

(** The components [pathlib] keeps of a string: empty ones and ["."] are
    dropped, [".."] stays. *)
Definition is_component (x : list ascii) : bool :=
  match x with
  | [] => false
  | [c] => negb (PyStr.is_dot c)
  | _ => true
  end.

Definition parts (s : string) : list (list ascii) :=
  List.filter is_component (split_sep (PyStr.chars s)).

(** The root of a string: ["/"], or ["//"] when it starts with exactly two
    separators; none for a relative path. *)
Definition root (s : string) : list ascii :=
  match PyStr.chars s with
  | a :: rest =>
      if is_sep a then
        match rest with
        | b :: rest' =>
            if is_sep b then
              match rest' with
              | c :: _ => if is_sep c then [a] else [a; b]
              | [] => [a; b]
              end
            else [a]
        | [] => [a]
        end
      else []
  | [] => []
  end.

Fixpoint join_parts (ps : list (list ascii)) : list ascii :=
  match ps with
  | [] => []
  | [x] => x
  | x :: rest => x ++ "/"%char :: join_parts rest
  end.

(** [str()] of the path with this root and these components. *)
Definition render (r : list ascii) (ps : list (list ascii)) : string :=
  match r, ps with
  | [], [] => "."
  | _, _ => PyStr.of_chars (r ++ join_parts ps)
  end.


(** [Path(d) / m]: an absolute [m] replaces [d]. *)
Definition join (d m : string) : string :=
  match root m with
  | [] => render (root d) (parts d ++ parts m)
  | r => render r (parts m)
  end.

(** A string that names an entry of a directory: not empty, not ["."] or
    [".."], and without separator. *)
Definition is_filename (n : string) : bool :=
  negb (n =? "") && negb (n =? ".") && negb (n =? "..")
  && forallb (fun c => negb (is_sep c)) (PyStr.chars n).

End PyPath.

(** Regular files by path.  Directories are implicit: a path is looked up
    as it is spelled and holds a regular file or nothing, and what the program
    asks of a path ([exists], [stat], [open], [mkdir], [unlink]) is answered
    from the files alone. *)
Abbreviation disk := (gmap string string).

(** What [zipfile] says of a file's bytes: [zip_open] is [None] for
    [BadZipFile], else the files [extractall] writes, in the order written
    and each as (path below the target directory, data), and [namelist()];
    [zip_extract] is the exception that ends [extractall] after those files,
    if any; [zip_test] is the exception [testzip()] raises, if any (what it
    returns is not looked at by the program). *)
Record ZipLib : Type := {
  zip_open : string -> option (list (string * string) * list string);
  zip_test : string -> option exn;
  zip_extract : string -> option exn
}.

(** [IFileProcessor]; [is_ZipProcessor] is [isinstance(p, ZipProcessor)]. *)
Record Processor : Type := {
  can_process : string -> bool;
  process : string -> string -> M disk (list string);
  is_ZipProcessor : bool
}.

(* ===================================================================== *)
(** ** CSVToJSONConverter *)
(* ===================================================================== *)

(** The values a cleaned record holds. *)
Inductive pyval : Type :=
| PNone
| PInt (z : Z)
| PFloat (f : PyStr.pyfloat)
| PBool (b : bool)
| PStr (s : string).

(** What [csv.DictReader] puts in a row: a string, [None] for a field the
    line lacks ([restval]), or the list of surplus fields stored under the
    key [None] ([restkey]). *)
Inductive cell : Type :=
| CNone
| CStr (s : string)
| CList (l : list string).

(** A Python dict in insertion order: assigning to a present key replaces
    the value where the key already stands. *)
Fixpoint dict_set {K V} `{EqDecision K} (k : K) (v : V) (d : list (K * V)) : list (K * V) :=
  match d with
  | [] => [(k, v)]
  | (k', v') :: d' => if decide (k = k') then (k, v) :: d' else (k', v') :: dict_set k v d'
  end.

Fixpoint dict_get {K V} `{EqDecision K} (k : K) (d : list (K * V)) : option V :=
  match d with
  | [] => None
  | (k', v') :: d' => if decide (k = k') then Some v' else dict_get k d'
  end.

Module CSVToJSONConverter.

Definition bool_tokens : list string := ["true"; "false"; "yes"; "no"; "1"; "0"].
Definition true_tokens : list string := ["true"; "yes"; "1"].

Definition _convert_value (value : string) : pyval :=
  match PyStr.int value with
  | Some z => PInt z
  | None =>
      match PyStr.float value with
      | Some f => PFloat f
      | None =>
          if PyStr.mem (PyStr.lower value) bool_tokens
          then PBool (PyStr.mem (PyStr.lower value) true_tokens)
          else PStr value
      end
  end.

(** [key.strip() if key else 'unnamed_column']: [None] and [''] are falsy. *)
Definition clean_key (key : option string) : string :=
  match key with
  | None => "unnamed_column"
  | Some "" => "unnamed_column"
  | Some k => PyStr.strip k
  end.

(** The value stored for one cell; a list has no [strip]. *)
Definition clean_value (value : cell) : result pyval :=
  match value with
  | CNone => Ok PNone
  | CStr s => if PyStr.strip s =? "" then Ok PNone else Ok (_convert_value (PyStr.strip s))
  | CList _ => Raise AttributeError
  end.

Fixpoint clean_items (items : list (option string * cell)) (cleaned : list (string * pyval))
  : result (list (string * pyval)) :=
  match items with
  | [] => Ok cleaned
  | (key, value) :: items' =>
      match clean_value value with
      | Ok v => clean_items items' (dict_set (clean_key key) v cleaned)
      | Raise e => Raise e
      end
  end.

Definition _clean_row (row : list (option string * cell)) : result (list (string * pyval)) :=
  clean_items row [].

(** What the converter takes from Python's library: the text codecs, the
    delimiter sniffer, the row reader and the JSON writer.  [None] from
    [decode] is [UnicodeDecodeError], [None] from [sniff] is [csv.Error]. *)
Record Lib : Type := {
  decode : string -> string -> option string;
  sniff : string -> option ascii;
  reader : ascii -> string -> result (list (list string));
  dumps : list (list (string * pyval)) -> string
}.

(** [dict(zip(fieldnames, row))] *)
Fixpoint zip_dict (fieldnames row : list string) (d : list (option string * cell))
  : list (option string * cell) :=
  match fieldnames, row with
  | k :: ks, v :: vs => zip_dict ks vs (dict_set (Some k) (CStr v) d)
  | _, _ => d
  end.

Fixpoint fill_restval (keys : list string) (d : list (option string * cell))
  : list (option string * cell) :=
  match keys with
  | [] => d
  | k :: ks => fill_restval ks (dict_set (Some k) CNone d)
  end.

(** One step of [csv.DictReader]: surplus fields go, as a list, under the
    key [None]; missing fields are [None]. *)
Definition dict_row (fieldnames row : list string) : list (option string * cell) :=
  let d := zip_dict fieldnames row [] in
  let lf := length fieldnames in
  let lr := length row in
  if (lf <? lr)%nat then dict_set None (CList (drop lf row)) d
  else if (lr <? lf)%nat then fill_restval (drop lr fieldnames) d
  else d.

Definition is_empty_row (row : list string) : bool :=
  match row with [] => true | _ => false end.

(** [csv.DictReader(csvfile, delimiter=delimiter)]: the first row names the
    fields, empty rows after it are skipped. *)
Definition DictReader (rows : list (list string)) : list (list (option string * cell)) :=
  match rows with
  | [] => []
  | fieldnames :: rest =>
      map (dict_row fieldnames) (filter (fun r => negb (is_empty_row r)) rest)
  end.

Fixpoint clean_rows (rows : list (list (option string * cell)))
  : result (list (list (string * pyval))) :=
  match rows with
  | [] => Ok []
  | row :: rows' =>
      match _clean_row row with
      | Ok r => match clean_rows rows' with
                | Ok rs => Ok (r :: rs)
                | Raise e => Raise e
                end
      | Raise e => Raise e
      end
  end.

Definition encodings : list string := ["utf-8"; "latin-1"; "cp1252"].

(** The body of the [try] for one encoding; [content] is [None] when the
    file cannot be opened.  Decoding is taken whole: Python decodes while
    reading, and an error raised anywhere in the body ends the attempt. *)
Definition read_with (lib : Lib) (content : option string) (encoding : string)
  : result (list (list (string * pyval))) :=
  match content with
  | None => Raise OSError
  | Some raw =>
      match decode lib encoding raw with
      | None => Raise UnicodeDecodeError
      | Some text =>
          match sniff lib (substring 0 1024 text) with
          | None => Raise CsvError
          | Some delimiter =>
              match reader lib delimiter text with
              | Ok rows => clean_rows (DictReader rows)
              | Raise e => Raise e
              end
          end
      end
  end.

(** The [for encoding in encodings] loop; the value is [data] after it. *)
Fixpoint read_loop (lib : Lib) (content : option string) (encs : list string)
  : list (list (string * pyval)) :=
  match encs with
  | [] => []
  | encoding :: rest =>
      match read_with lib content encoding with
      | Ok data => data                                     (* break *)
      | Raise e =>
          if is_UnicodeDecodeError e then read_loop lib content rest   (* continue *)
          else read_loop lib content rest                   (* warning; continue *)
      end
  end.

(** The attempt with [encoding] raises. *)
Definition attempt_fails (lib : Lib) (content : option string) (encoding : string) : Prop :=
  is_ok (read_with lib content encoding) = false.

Definition could_not_read : exn :=
  PlainException "Could not read CSV file with any encoding".

Definition _read_csv (lib : Lib) (content : option string)
  : result (list (list (string * pyval))) :=
  match read_loop lib content encodings with
  | [] => Raise could_not_read
  | data => Ok data
  end.

(** The per-cell rule as the specification words it: empty or
    whitespace-only is null; otherwise the first of an integer parse, a
    floating-point parse and a boolean parse over a fixed token set compared
    without regard to case; otherwise the text. *)
Fixpoint first_some {A} (attempts : list (option A)) (default : A) : A :=
  match attempts with
  | [] => default
  | Some a :: _ => a
  | None :: rest => first_some rest default
  end.

Definition spec_whitespace_only (text : string) : bool :=
  forallb PyStr.is_space (PyStr.chars text).

Definition spec_bool (text : string) : option bool :=
  if PyStr.mem (PyStr.lower text) ["true"; "yes"; "1"] then Some true
  else if PyStr.mem (PyStr.lower text) ["false"; "no"; "0"] then Some false
  else None.

Definition spec_cell (text : string) : pyval :=
  if spec_whitespace_only text then PNone
  else
    let t := PyStr.strip text in
    first_some [PInt <$> PyStr.int t; PFloat <$> PyStr.float t; PBool <$> spec_bool t]
               (PStr t).

(** The last item of a row whose cleaned key is [k]. *)
Fixpoint last_write (k : string) (items : list (option string * cell)) : option cell :=
  match items with
  | [] => None
  | (key, value) :: items' =>
      match last_write k items' with
      | Some c => Some c
      | None => if decide (clean_key key = k) then Some value else None
      end
  end.

Definition can_process (file_path : string) : bool :=
  PyStr.lower (PyPath.suffix file_path) =? ".csv".

Definition _write_json (lib : Lib)
    (data : list (list (string * pyval))) (output_path : string) : M disk unit :=
  modify (fun fs : disk => <[output_path := dumps lib data]> fs).

Definition process (lib : Lib) (file_path output_dir : string)
  : M disk (list string) :=
  try_except
    (let json_path := PyPath.join output_dir (String.append (PyPath.stem file_path) ".json") in
     fs <~ get ;;
     data <~ lift_result (_read_csv lib (fs !! file_path)) ;;
     exec _write_json lib data json_path ;;
     ret [json_path])
    any_exception
    (fun _ => ret []).

Definition processor (lib : Lib) : Processor :=
  Build_Processor can_process (process lib) false.

End CSVToJSONConverter.

(* ===================================================================== *)
(** ** ZipProcessor and the processing chain *)
(* ===================================================================== *)

Module ZipProcessor.

Definition can_process (file_path : string) : bool :=
  PyStr.lower (PyPath.suffix file_path) =? ".zip".

Definition extractall (extract_dir : string) (files : list (string * string)) (fs : disk) : disk :=
  foldl (fun fs '(member, data) => <[PyPath.join extract_dir member := data]> fs) fs files.

Definition is_file (fs : disk) (p : string) : bool := bool_decide (is_Some (fs !! p)).

Definition process (zl : ZipLib) (file_path output_dir : string) : M disk (list string) :=
  try_except
    (fs <~ get ;;
     match fs !! file_path with
     | None => raise OSError
     | Some raw =>
         match zip_open zl raw with
         | None => raise BadZipFile
         | Some (files, namelist) =>
             let extract_dir := PyPath.join output_dir (PyPath.stem file_path) in
             exec modify (extractall extract_dir files) ;;
             match zip_extract zl raw with
             | Some e => raise e
             | None =>
                 fs' <~ get ;;
                 ret (filter (fun p => is_file fs' p = true)
                             (map (PyPath.join extract_dir) namelist))
             end
         end
     end)
    any_exception
    (fun _ => ret []).

Definition processor (zl : ZipLib) : Processor :=
  Build_Processor can_process (process zl) true.

End ZipProcessor.

Module Chain.

(** The disk and the record of [process] calls made: at which nesting level
    of the chain (0 for the file handed in), by which processor of the
    registry (its position), on which file. *)
Record state : Type := {
  fs : disk;
  calls : list (nat * nat * string)
}.

Definition invoke (p : Processor) (level idx : nat) (file_path out : string)
  : M state (list string) :=
  fun w =>
    let '(r, fs') := process p file_path out (fs w) in
    (r, {| fs := fs'; calls := calls w ++ [(level, idx, file_path)] |}).

(** [for extracted_file in results: processed_files.extend(rec(extracted_file))];
    an exception leaves the loop with what was gathered. *)
Fixpoint feed_back (rec : string -> M state (list string)) (extracted : list string)
    (processed : list string) (w : state) : list string * state :=
  match extracted with
  | [] => (processed, w)
  | f :: rest =>
      match rec f w with
      | (Ok sub, w') => feed_back rec rest (processed ++ sub) w'
      | (Raise _, w') => (processed, w')
      end
  end.

(** [for processor in self.file_processors]: there is no [break]. *)
Fixpoint chain_loop (rec : string -> M state (list string)) (procs : list Processor)
    (level idx : nat) (file_path out : string) (processed : list string) (w : state)
  : list string * state :=
  match procs with
  | [] => (processed, w)
  | p :: ps =>
      if can_process p file_path then
        match invoke p level idx file_path out w with
        | (Ok results, w1) =>
            if is_ZipProcessor p then
              let '(processed2, w2) := feed_back rec results (processed ++ results) w1 in
              chain_loop rec ps level (S idx) file_path out processed2 w2
            else chain_loop rec ps level (S idx) file_path out (processed ++ results) w1
        | (Raise _, w1) => chain_loop rec ps level (S idx) file_path out processed w1
        end
      else chain_loop rec ps level (S idx) file_path out processed w
  end.

(** [depth] is the room left on the interpreter's stack: a call with none
    left raises [RecursionError], which the caller's [except] absorbs. *)
Fixpoint _process_single_file (depth level : nat) (cfg : Config) (procs : list Processor)
    (file_path : string) : M state (list string) :=
  match depth with
  | 0 => raise RecursionError
  | S d =>
      fun w =>
        let '(processed, w') :=
          chain_loop (_process_single_file d (S level) cfg procs) procs level 0
                     file_path (output_dir cfg) [] w in
        (Ok processed, w')
  end.

Fixpoint _process_files (depth : nat) (cfg : Config) (procs : list Processor)
    (file_paths : list string) : M state (list string) :=
  match file_paths with
  | [] => ret []
  | file_path :: rest =>
      processed <~ _process_single_file depth 0 cfg procs file_path ;;
      more <~ _process_files depth cfg procs rest ;;
      ret (processed ++ more)
  end.

(** The registry [create_monitor] builds. *)
Definition file_processors (zl : ZipLib) (lib : CSVToJSONConverter.Lib) : list Processor :=
  [ZipProcessor.processor zl; CSVToJSONConverter.processor lib].

(** The positions of the processors that accept a file, in registry order. *)
Fixpoint matching (procs : list Processor) (idx : nat) (file_path : string) : list nat :=
  match procs with
  | [] => []
  | p :: ps =>
      if can_process p file_path then idx :: matching ps (S idx) file_path
      else matching ps (S idx) file_path
  end.

(** The calls of a record made at one nesting level. *)
Definition at_level (level : nat) (cs : list (nat * nat * string)) : list (nat * nat * string) :=
  filter (fun c => c.1.1 = level) cs.

End Chain.

(* ===================================================================== *)
(** ** The network *)
(* ===================================================================== *)

Inductive method : Type := GET | HEAD.

Record request : Type := {
  req_method : method;
  req_url : string;
  req_headers : list (string * string);
  req_timeout : nat;
  req_stream : bool
}.

(** A response: its status, the two headers the program reads, and its body
    as the chunks the transfer delivers; [broken] says the transfer fails
    after them. *)
Record response : Type := {
  status_code : nat;
  content_length : option string;
  last_modified : option string;
  chunks : list string;
  broken : bool
}.

Inductive reply : Type :=
| Reply (r : response)
| Fails (e : exn).

(** The remote side: what the [n]-th request of a run is answered with. *)
Abbreviation server := (nat -> request -> reply).

Inductive event : Type :=
| Sent (rq : request)
| Slept (seconds : nat).

Definition is_sent (e : event) : bool :=
  match e with Sent _ => true | Slept _ => false end.

(** [response.content] *)
Definition content (r : response) : string := String.concat "" (chunks r).

(** [int(response.headers.get('content-length', 0))] *)
Definition content_length_int (r : response) : result Z :=
  match content_length r with
  | None => Ok 0%Z
  | Some v => match PyStr.int v with
              | Some z => Ok z
              | None => Raise ValueError
              end
  end.

Record FileInfo : Type := {
  url : string;
  filename : string;
  size : option Z;
  fi_last_modified : option string;
  checksum : option string
}.

(** What [site_cache.json] holds, as [json.load] sees it. *)
Inductive json : Type :=
| JStr (s : string)
| JOther.                                  (* any value that is not a string *)

Inductive cache_file : Type :=
| Missing                                  (* the file does not exist *)
| Unreadable                               (* [json.load] raises *)
| NotAnObject                              (* valid JSON, not an object *)
| Object (d : gmap string json).

(** Everything outside the process that the monitor and the downloader
    touch. *)
Record World : Type := {
  trace : list event;                      (* requests sent and sleeps, oldest first *)
  cache : cache_file;
  cache_writable : bool;
  clock : string;                          (* [datetime.now().isoformat()] *)
  fs : disk;
  locked : gset string                     (* paths that cannot be opened for writing *)
}.

Definition set_trace (t : list event) (w : World) : World :=
  {| trace := t; cache := cache w; cache_writable := cache_writable w;
     clock := clock w; fs := fs w; locked := locked w |}.
Definition set_cache (c : cache_file) (w : World) : World :=
  {| trace := trace w; cache := c; cache_writable := cache_writable w;
     clock := clock w; fs := fs w; locked := locked w |}.
Definition set_fs (d : disk) (w : World) : World :=
  {| trace := trace w; cache := cache w; cache_writable := cache_writable w;
     clock := clock w; fs := d; locked := locked w |}.

Definition add_events (evs : list event) (w : World) : World :=
  set_trace (trace w ++ evs) w.

Definition requests_sent (w : World) : nat := length (filter (fun e => is_sent e = true) (trace w)).

Module Session.

(** One call of [session.get] or [session.head].  Without [stream] the
    body is read before the call returns, so a broken transfer raises
    there. *)
Definition send (srv : server) (rq : request) : M World response :=
  fun w =>
    let w' := add_events [Sent rq] w in
    match srv (requests_sent w) rq with
    | Fails e => (Raise e, w')
    | Reply r =>
        if negb (req_stream rq) && broken r then (Raise RequestException, w')
        else (Ok r, w')
    end.

(** [response.raise_for_status()]: [HTTPError] is a [RequestException]. *)
Definition raise_for_status (r : response) : M World unit :=
  if (400 <=? status_code r)%nat && (status_code r <? 600)%nat
  then raise RequestException else ret tt.

(** [time.sleep(seconds)] *)
Definition sleep (seconds : nat) : M World unit :=
  modify (add_events [Slept seconds]).

End Session.

(* ===================================================================== *)
(** ** WebsiteMonitor *)
(* ===================================================================== *)

(** What the listing takes from [re] and [urllib]: the [href] targets ending
    in [.zip], [urljoin], and [urlparse(...).path]; the last two raise
    [ValueError] on a malformed URL. *)
Record HtmlLib : Type := {
  zip_hrefs : string -> list string;
  urljoin : string -> string -> result string;
  url_path : string -> result string
}.

Module WebsiteMonitor.

Definition accept : string :=
  "text/html,application/xhtml+xml,application/xml;q=0.9,*/*;q=0.8".

Definition session_headers (cfg : Config) : list (string * string) :=
  [("User-Agent", user_agent cfg); ("Accept", accept)].

Definition get_request (cfg : Config) (u : string) : request :=
  {| req_method := GET; req_url := u; req_headers := session_headers cfg;
     req_timeout := request_timeout cfg; req_stream := false |}.

Definition head_request (cfg : Config) (u : string) : request :=
  {| req_method := HEAD; req_url := u; req_headers := session_headers cfg;
     req_timeout := request_timeout cfg; req_stream := false |}.

(** [for attempt in range(retry_attempts)], from [attempt] on with
    [remaining] rounds to go. *)
Fixpoint request_loop (cfg : Config) (srv : server) (u : string) (attempt remaining : nat)
  : M World (option response) :=
  match remaining with
  | 0 => ret None
  | S k =>
      try_except
        (r <~ Session.send srv (get_request cfg u) ;;
         exec Session.raise_for_status r ;;
         ret (Some r))
        is_RequestException
        (fun _ =>
           exec Session.sleep (2 ^ attempt) ;;
           request_loop cfg srv u (S attempt) k)
  end.

Definition _make_request (cfg : Config) (srv : server) (u : string) : M World (option response) :=
  request_loop cfg srv u 0 (retry_attempts cfg).

(** [self._load_cache()]: a missing or unreadable file reads as [{}]. *)
Definition _load_cache : M World cache_file :=
  w <~ get ;;
  match cache w with
  | Missing | Unreadable => ret (Object ∅)
  | c => ret c
  end.

(** [.get('page_hash')] on what was loaded. *)
Definition get_page_hash (c : cache_file) : M World (option json) :=
  match c with
  | Object d => ret (d !! "page_hash")
  | _ => raise AttributeError
  end.

(** [self._save_cache(data)]: an error while writing is logged, not raised. *)
Definition _save_cache (data : gmap string json) : M World unit :=
  try_except
    (w <~ get ;;
     if cache_writable w then modify (set_cache (Object data)) else raise OSError)
    any_exception
    (fun _ => ret tt).

Definition differs (current_hash : string) (previous_hash : option json) : bool :=
  match previous_hash with
  | Some (JStr h) => negb (current_hash =? h)
  | _ => true
  end.

Definition detect_changes (cfg : Config) (md5 : string -> string) (srv : server) (u : string)
  : M World bool :=
  try_except
    (response <~ _make_request cfg srv u ;;
     match response with
     | None => ret false
     | Some r =>
         let current_hash := md5 (content r) in
         loaded <~ _load_cache ;;
         previous_hash <~ get_page_hash loaded ;;
         if differs current_hash previous_hash then
           w <~ get ;;
           exec _save_cache (<["last_check" := JStr (clock w)]>
                               (<["page_hash" := JStr current_hash]> ∅)) ;;
           ret true
         else ret false
     end)
    any_exception
    (fun _ => ret false).

(** [file_info] with the [size] and [last_modified] the probe assigns. *)
Definition enriched (file_info : FileInfo) (n : Z) (r : response) : FileInfo :=
  {| url := url file_info; filename := filename file_info; size := Some n;
     fi_last_modified := last_modified r; checksum := checksum file_info |}.

Definition _enrich_file_info (cfg : Config) (srv : server) (file_info : FileInfo)
  : M World FileInfo :=
  try_except
    (r <~ Session.send srv (head_request cfg (url file_info)) ;;
     n <~ lift_result (content_length_int r) ;;
     ret (enriched file_info n r))
    any_exception
    (fun _ => ret file_info).

(** The URL and the file name the listing gives a link. *)
Definition link_target (hl : HtmlLib) (page h : string) : result (string * string) :=
  match urljoin hl page h with
  | Ok file_url =>
      match url_path hl file_url with
      | Ok path => Ok (file_url, PyPath.basename path)
      | Raise e => Raise e
      end
  | Raise e => Raise e
  end.

Fixpoint enrich_all (cfg : Config) (hl : HtmlLib) (srv : server) (page : string)
    (hrefs : list string) : M World (list FileInfo) :=
  match hrefs with
  | [] => ret []
  | h :: rest =>
      file_url <~ lift_result (urljoin hl page h) ;;
      path <~ lift_result (url_path hl file_url) ;;
      file_info <~ _enrich_file_info cfg srv
        {| url := file_url; filename := PyPath.basename path;
           size := None; fi_last_modified := None; checksum := None |} ;;
      more <~ enrich_all cfg hl srv page rest ;;
      ret (file_info :: more)
  end.

Definition get_zip_files (cfg : Config) (hl : HtmlLib) (srv : server) (u : string)
  : M World (list FileInfo) :=
  try_except
    (response <~ _make_request cfg srv u ;;
     match response with
     | None => ret []
     | Some r => enrich_all cfg hl srv u (zip_hrefs hl (content r))
     end)
    any_exception
    (fun _ => ret []).

End WebsiteMonitor.

(* ===================================================================== *)
(** ** FileDownloader *)
(* ===================================================================== *)

Module FileDownloader.

Definition get_request (cfg : Config) (u : string) : request :=
  {| req_method := GET; req_url := u; req_headers := [("User-Agent", user_agent cfg)];
     req_timeout := request_timeout cfg; req_stream := true |}.

(** [file_path.stat().st_size] *)
Definition st_size (data : string) : Z := Z.of_nat (String.length data).

(** [file_info.size and st_size != file_info.size]: [None] and [0] are falsy. *)
Definition size_mismatch (file_info : FileInfo) (data : string) : bool :=
  match size file_info with
  | None => false
  | Some n => negb (n =? 0)%Z && negb (st_size data =? n)%Z
  end.

Definition _validate_existing_file (d : disk) (file_path : string) (file_info : FileInfo) : bool :=
  match d !! file_path with
  | None => false
  | Some data => negb (size_mismatch file_info data)
  end.

Definition _validate_download (zl : ZipLib) (file_path : string) (file_info : FileInfo)
  : M World bool :=
  w <~ get ;;
  match fs w !! file_path with
  | None => ret false
  | Some data =>
      if size_mismatch file_info data then ret false
      else
        try_except
          (match zip_open zl data with
           | None => raise BadZipFile
           | Some _ =>
               match zip_test zl data with
               | Some e => raise e
               | None => ret true
               end
           end)
          is_BadZipFile
          (fun _ => ret false)
  end.

(** [open(destination, 'wb')]: the file is created or emptied. *)
Definition open_wb (destination : string) : M World unit :=
  w <~ get ;;
  if decide (destination ∈ locked w) then raise OSError
  else modify (fun w => set_fs (<[destination := ""]> (fs w)) w).

(** [f.write(chunk)] *)
Definition write (destination chunk : string) : M World unit :=
  modify (fun w =>
            set_fs (<[destination := String.append (default "" (fs w !! destination)) chunk]>
                      (fs w)) w).

(** [for chunk in response.iter_content(...)]: the chunks that arrive are
    written, then a broken transfer raises. *)
Fixpoint write_chunks (destination : string) (cs : list string) (broken : bool) : M World unit :=
  match cs with
  | [] => if broken then raise RequestException else ret tt
  | chunk :: rest =>
      exec (if chunk =? "" then ret tt else write destination chunk) ;;
      write_chunks destination rest broken
  end.

(** [destination.unlink(missing_ok=True)] *)
Definition unlink (destination : string) : M World unit :=
  modify (fun w => set_fs (delete destination (fs w)) w).

Definition download (cfg : Config) (zl : ZipLib) (srv : server)
    (file_info : FileInfo) (destination : string) : M World bool :=
  try_except
    (w <~ get ;;
     if _validate_existing_file (fs w) destination file_info then ret true
     else
       r <~ Session.send srv (get_request cfg (url file_info)) ;;
       exec Session.raise_for_status r ;;
       total_size <~ lift_result (content_length_int r) ;;
       exec open_wb destination ;;
       exec write_chunks destination (chunks r) (broken r) ;;
       valid <~ _validate_download zl destination file_info ;;
       if valid then ret true
       else exec unlink destination ;; ret false)
    any_exception
    (fun _ => ret false).

(** The verdict of [_validate_download] on the bytes found at the path. *)
Definition validate_result (zl : ZipLib) (file_info : FileInfo) (found : option string)
  : result bool :=
  match found with
  | None => Ok false
  | Some data =>
      if size_mismatch file_info data then Ok false
      else match zip_open zl data with
           | None => Ok false
           | Some _ =>
               match zip_test zl data with
               | Some e => if is_BadZipFile e then Ok false else Raise e
               | None => Ok true
               end
           end
  end.

Definition bad_status (r : response) : bool :=
  (400 <=? status_code r)%nat && (status_code r <? 600)%nat.

(** The value of [download] written out branch by branch. *)
Definition download_result (cfg : Config) (zl : ZipLib) (srv : server)
    (file_info : FileInfo) (destination : string) (w : World) : bool * World :=
  if _validate_existing_file (fs w) destination file_info then (true, w)
  else
    let w1 := add_events [Sent (get_request cfg (url file_info))] w in
    match srv (requests_sent w) (get_request cfg (url file_info)) with
    | Fails _ => (false, w1)
    | Reply r =>
        if bad_status r then (false, w1)
        else
          match content_length_int r with
          | Raise _ => (false, w1)
          | Ok _ =>
              if decide (destination ∈ locked w) then (false, w1)
              else
                let w2 := set_fs (<[destination := content r]> (fs w)) w1 in
                if broken r then (false, w2)
                else
                  match validate_result zl file_info (Some (content r)) with
                  | Ok true => (true, w2)
                  | Ok false => (false, set_fs (delete destination (fs w)) w1)
                  | Raise _ => (false, w2)
                  end
          end
    end.

End FileDownloader.

(* ===================================================================== *)
(** ** IATTCDataMonitor: the download step *)
(* ===================================================================== *)

Module IATTCDataMonitor.

(** [Path(self.config.download_dir) / file_info.filename]; for an empty
    file name or ["."] this is the download directory itself. *)
Definition destination (cfg : Config) (file_info : FileInfo) : string :=
  PyPath.join (download_dir cfg) (filename file_info).

(** The pool runs one [download] per descriptor.  [order] lists the
    positions of the descriptors in the order their tasks run and complete,
    each task taken whole; with a single worker it is the submission
    order.  The value is [downloaded_files]. *)
Fixpoint run_tasks (cfg : Config) (zl : ZipLib) (srv : server)
    (zip_files : list FileInfo) (order : list nat) : M World (list string) :=
  match order with
  | [] => ret []
  | i :: rest =>
      match zip_files !! i with
      | None => run_tasks cfg zl srv zip_files rest
      | Some file_info =>
          ok <~ FileDownloader.download cfg zl srv file_info (destination cfg file_info) ;;
          more <~ run_tasks cfg zl srv zip_files rest ;;
          ret (if ok then destination cfg file_info :: more else more)
      end
  end.

Definition schedule (cfg : Config) (n : nat) (order : list nat) : Prop :=
  order ≡ₚ seq 0 n ∧ (max_workers cfg = 1 → order = seq 0 n).

(** [ThreadPoolExecutor(max_workers=...)] raises [ValueError] for a pool
    without workers, before any task is submitted. *)
Definition _download_files_concurrently (cfg : Config) (zl : ZipLib) (srv : server)
    (zip_files : list FileInfo) (order : list nat) : M World (list string) :=
  if (max_workers cfg =? 0)%nat then raise ValueError
  else run_tasks cfg zl srv zip_files order.

(** The server answers a request the same way whenever it comes. *)
Definition stateless (srv : server) : Prop := ∀ n m rq, srv n rq = srv m rq.

(** [file_info], downloaded from the world [w], is fetched whole and then
    refused by [_validate_download]. *)
Definition fails_validation (cfg : Config) (zl : ZipLib) (srv : server)
    (file_info : FileInfo) (w : World) : Prop :=
  FileDownloader._validate_existing_file (fs w) (destination cfg file_info) file_info = false ∧
  ∃ r, srv (requests_sent w) (FileDownloader.get_request cfg (url file_info)) = Reply r ∧
       FileDownloader.bad_status r = false ∧
       is_ok (content_length_int r) = true ∧
       (destination cfg file_info ∉ locked w) ∧
       broken r = false ∧
       FileDownloader.validate_result zl file_info (Some (content r)) = Ok false.

(** [file_info], downloaded from the world [w], is reported good. *)
Definition succeeds (cfg : Config) (zl : ZipLib) (srv : server)
    (file_info : FileInfo) (w : World) : Prop :=
  (FileDownloader.download_result cfg zl srv file_info (destination cfg file_info) w).1 = true.

(** The download of one descriptor taken on its own from the world [w]. *)
Definition alone (cfg : Config) (zl : ZipLib) (srv : server) (w : World)
    (file_info : FileInfo) : bool * World :=
  FileDownloader.download_result cfg zl srv file_info (destination cfg file_info) w.

(** The destinations, in completion order, of the descriptors whose own
    download is reported good. *)
Definition good_paths (cfg : Config) (zl : ZipLib) (srv : server) (w : World)
    (zip_files : list FileInfo) (order : list nat) : list string :=
  omap (fun i => match zip_files !! i with
                 | Some file_info =>
                     if (alone cfg zl srv w file_info).1
                     then Some (destination cfg file_info) else None
                 | None => None
                 end) order.

End IATTCDataMonitor.

(* ===================================================================== *)
(** ** A small instance of the libraries

    Text of one byte per character, unquoted fields, and archives spelled
    [PK|member|data]: enough to run the program on concrete files.  The
    codecs are UTF-8 on 7-bit data, Latin-1, and cp1252 with its five
    undefined bytes (its other bytes are kept as they are). *)
(* ===================================================================== *)

Module Sample.

Definition LF : string := String "010"%char "".

Fixpoint split_on (sep : ascii) (l cur : list ascii) : list (list ascii) :=
  match l with
  | [] => [rev cur]
  | c :: l' =>
      if Ascii.eqb c sep then rev cur :: split_on sep l' []
      else split_on sep l' (c :: cur)
  end.

Definition lines (text : string) : list (list ascii) :=
  let ls := split_on "010"%char (PyStr.chars text) [] in
  match rev ls with
  | [] :: before => rev before           (* the text ends with a newline *)
  | _ => ls
  end.

Definition fields (delimiter : ascii) (line : list ascii) : list string :=
  match line with
  | [] => []
  | _ => map PyStr.of_chars (split_on delimiter line [])
  end.

Definition is_7bit (raw : string) : bool :=
  forallb (fun c => (PyStr.code c <? 128)%N) (PyStr.chars raw).

Definition cp1252_defined (raw : string) : bool :=
  forallb (fun c => negb (existsb (N.eqb (PyStr.code c)) [129; 141; 143; 144; 157]%N))
          (PyStr.chars raw).

Definition decode (encoding raw : string) : option string :=
  if encoding =? "utf-8" then (if is_7bit raw then Some raw else None)
  else if encoding =? "latin-1" then Some raw
  else if encoding =? "cp1252" then (if cp1252_defined raw then Some raw else None)
  else None.

Definition preferred : list ascii := [","%char; "009"%char; ";"%char; " "%char; ":"%char].

Definition sniff (sample : string) : option ascii :=
  find (fun d => existsb (Ascii.eqb d) (PyStr.chars sample)) preferred.

Definition reader (delimiter : ascii) (text : string) : result (list (list string)) :=
  Ok (map (fields delimiter) (lines text)).

Definition dumps (data : list (list (string * pyval))) : string :=
  String.concat "," (map (fun _ => "{}") data).

Definition csv : CSVToJSONConverter.Lib :=
  {| CSVToJSONConverter.decode := decode;
     CSVToJSONConverter.sniff := sniff;
     CSVToJSONConverter.reader := reader;
     CSVToJSONConverter.dumps := dumps |}.

Definition is_bar (c : ascii) : bool := (PyStr.code c =? 124)%N.

(** [PK|member|data]: one member. *)
Definition member_of (raw : string) : option (list ascii * list ascii) :=
  match PyStr.chars raw with
  | "P"%char :: "K"%char :: "|"%char :: rest => PyPath.split_at is_bar rest
  | _ => None
  end.

(** The path under which [extractall] stores a member: the components of
    its name without the empty ones, ["."] and [".."]. *)
Definition is_kept (x : list ascii) : bool :=
  PyPath.is_component x && negb (PyStr.of_chars x =? "..").
Definition arcname (member : list ascii) : string :=
  PyStr.of_chars (PyPath.join_parts (List.filter is_kept (PyPath.split_sep member))).

(** A member whose name ends in ["/"] is a directory. *)
Definition is_dir (member : list ascii) : bool :=
  match rev member with
  | c :: _ => PyPath.is_sep c
  | [] => false
  end.

(** A directory gives no file; a file whose stored path is empty cannot be
    written, the path being the target directory itself. *)
Definition zip_open (raw : string) : option (list (string * string) * list string) :=
  match member_of raw with
  | Some (member, data) =>
      Some (if is_dir member || (arcname member =? "") then []
            else [(arcname member, PyStr.of_chars data)],
            [PyStr.of_chars member])
  | None => None
  end.

Definition zip_extract (raw : string) : option exn :=
  match member_of raw with
  | Some (member, _) =>
      if negb (is_dir member) && (arcname member =? "") then Some OSError else None
  | None => None
  end.

Definition zip : ZipLib :=
  Build_ZipLib zip_open (fun _ => None) zip_extract.

Definition md5 (data : string) : string := String.append "digest-of:" data.

Definition ok_response (body : string) : response :=
  {| status_code := 200; content_length := None; last_modified := None;
     chunks := [body]; broken := false |}.

Definition world : World :=
  {| trace := []; cache := Missing; cache_writable := true;
     clock := "2024-01-01T00:00:00"; fs := ∅; locked := ∅ |}.

(** A server that always answers with the same body. *)
Definition steady (body : string) : server := fun _ _ => Reply (ok_response body).


Definition descriptor (u name : string) (n : option Z) : FileInfo :=
  {| url := u; filename := name; size := n; fi_last_modified := None; checksum := None |}.

Definition on_disk (d : disk) : World := set_fs d world.

(** A server whose transfers break after two chunks. *)
Definition cut_short : response :=
  {| status_code := 200; content_length := Some "12"; last_modified := None;
     chunks := ["PK|c.c"; "sv|"]; broken := true |}.

Definition interrupted : server := fun _ _ => Reply cut_short.

Definition catch_zip : FileInfo :=
  descriptor "https://iattc.org/data/catch.zip" "catch.zip" (Some 12%Z).

(** A server that answers by URL, the same way every time. *)
Definition by_url (table : list (string * string)) : server :=
  fun _ rq => match dict_get (req_url rq) table with
              | Some body => Reply (ok_response body)
              | None => Fails RequestException
              end.

Definition single_worker : Config :=
  {| base_url := base_url default_config; download_dir := "downloads";
     output_dir := "json_output"; max_workers := 1;
     user_agent := user_agent default_config; request_timeout := 30; retry_attempts := 3 |}.

Definition site : server :=
  by_url [("https://iattc.org/data/catch.zip", "PK|c.csv|a,b");
          ("https://iattc.org/data/effort.zip", "<html>moved</html>");
          ("https://iattc.org/a/x.zip", "PK|c.csv|a,b");
          ("https://iattc.org/b/x.zip", "garbage")].

Definition catch_any : FileInfo :=
  descriptor "https://iattc.org/data/catch.zip" "catch.zip" None.
Definition effort_any : FileInfo :=
  descriptor "https://iattc.org/data/effort.zip" "effort.zip" None.

(** Two links whose paths end in the same file name. *)
Definition x_from_a : FileInfo := descriptor "https://iattc.org/a/x.zip" "x.zip" (Some 12%Z).
Definition x_from_b : FileInfo := descriptor "https://iattc.org/b/x.zip" "x.zip" (Some 7%Z).

(** The world with a cache file that cannot be written. *)
Definition read_only_cache : World :=
  {| trace := []; cache := Missing; cache_writable := false;
     clock := "2024-01-01T00:00:00"; fs := ∅; locked := ∅ |}.

Definition page : string := "<a href='data/catch.zip'>catch</a>".

Definition table : string := String.concat LF ["year,flag,catch"; "2001,Yes,007"; ""].

Definition chain_disk (d : disk) : Chain.state := {| Chain.fs := d; Chain.calls := [] |}.

(** The converter registered twice. *)
Definition two_converters : list Processor :=
  [CSVToJSONConverter.processor csv; CSVToJSONConverter.processor csv].

End Sample.

(** How one attempt of the retrying fetch ends. *)
Inductive attempt : Type :=
| Success (r : response)
| Retry                                    (* a [RequestException]: sleep, try again *)
| Fatal (e : exn).                         (* any other exception: not caught here *)

Definition classify (rp : reply) : attempt :=
  match rp with
  | Fails e => if is_RequestException e then Retry else Fatal e
  | Reply r =>
      if broken r then Retry
      else if (400 <=? status_code r)%nat && (status_code r <? 600)%nat then Retry
      else Success r
  end.

(** The events of [n] failed attempts numbered from [first]. *)
Definition retries (rq : request) (first n : nat) : list event :=
  flat_map (fun j => [Sent rq; Slept (2 ^ j)]) (seq first n).

(** The [page_hash] entry the cache holds, if any. *)
Definition stored_hash (c : cache_file) : option json :=
  match c with
  | Object d => d !! "page_hash"
  | _ => None
  end.

Definition fingerprint (h now : string) : cache_file :=
  Object (<["last_check" := JStr now]> (<["page_hash" := JStr h]> ∅)).

(* ===================================================================== *)
(** ** LoggingNotificationService and one monitoring cycle *)
(* ===================================================================== *)

(** The logger method a notification ends in. *)
Inductive log_level : Type := LogError | LogWarning | LogInfo.

Module LoggingNotificationService.

(** [notify(message, severity)]: anything but ["ERROR"] and ["WARNING"] is
    logged as information. *)
Definition notify (message severity : string) : log_level * string :=
  if severity =? "ERROR" then (LogError, message)
  else if severity =? "WARNING" then (LogWarning, message)
  else (LogInfo, message).

End LoggingNotificationService.

(** Seconds slept, over a trace. *)
Fixpoint slept_total (t : list event) : nat :=
  match t with
  | [] => 0
  | Slept n :: t' => n + slept_total t'
  | Sent _ :: t' => slept_total t'
  end.

Module Cycle.

(** What one cycle works on: the world of the monitor and the downloader,
    the record of [process] calls, and the notifications sent. *)
Record state : Type := {
  world : World;
  calls : list (nat * nat * string);
  notes : list (log_level * string)
}.

Definition in_world {A} (m : M World A) : M state A :=
  fun s =>
    let '(r, w') := m (world s) in
    (r, {| world := w'; calls := calls s; notes := notes s |}).

(** The chain works on the disk of the world. *)
Definition in_chain {A} (m : M Chain.state A) : M state A :=
  fun s =>
    let '(r, c') := m {| Chain.fs := fs (world s); Chain.calls := calls s |} in
    (r, {| world := set_fs (Chain.fs c') (world s); calls := Chain.calls c'; notes := notes s |}).

Definition notify (message severity : string) : M state unit :=
  modify (fun s => {| world := world s; calls := calls s;
                      notes := notes s ++ [LoggingNotificationService.notify message severity] |}).

Definition changes_detected : string := "Changes detected on IATTC website".

(** [f"Successfully processed {len(processed_files)} files"] *)
Definition success_msg (processed_files : list string) : string :=
  String.append "Successfully processed "
    (String.append (pretty (length processed_files)) " files").

(** [run_monitoring_cycle]: [sched] gives the order in which the download
    tasks complete, [depth] the room on the stack, [str] the text of an
    exception. *)
Definition run_monitoring_cycle (cfg : Config) (md5 : string -> string) (hl : HtmlLib)
    (zl : ZipLib) (srv : server) (procs : list Processor)
    (sched : list FileInfo -> list nat) (depth : nat) (str : exn -> string) : M state unit :=
  try_except
    (changed <~ in_world (WebsiteMonitor.detect_changes cfg md5 srv (base_url cfg)) ;;
     if negb changed then ret tt
     else
       exec notify changes_detected "INFO" ;;
       zip_files <~ in_world (WebsiteMonitor.get_zip_files cfg hl srv (base_url cfg)) ;;
       match zip_files with
       | [] => ret tt
       | _ =>
           downloaded_files <~
             in_world (IATTCDataMonitor._download_files_concurrently cfg zl srv zip_files
                         (sched zip_files)) ;;
           processed_files <~ in_chain (Chain._process_files depth cfg procs downloaded_files) ;;
           exec notify (success_msg processed_files) "INFO" ;;
           ret tt
       end)
    any_exception
    (fun e => notify (String.append "Error in monitoring cycle: " (str e)) "ERROR").

(** What a cycle that announced a change appends after the announcement:
    nothing when the page lists no archive, the count of the processed files,
    the error of a pool without workers, or the error of a chain that ran out
    of stack. *)
Inductive ending (cfg : Config) (depth : nat) (str : exn -> string)
  : list (log_level * string) -> Prop :=
| NoFiles : ending cfg depth str []
| Processed processed_files : ending cfg depth str [(LogInfo, success_msg processed_files)]
| NoWorkers : max_workers cfg = 0 ->
    ending cfg depth str
      [(LogError, String.append "Error in monitoring cycle: " (str ValueError))]
| Overflow : depth = 0 ->
    ending cfg depth str
      [(LogError, String.append "Error in monitoring cycle: " (str RecursionError))].

End Cycle.

(* ===================================================================== *)
(** ** More concrete servers, pages and files *)
(* ===================================================================== *)

Module Cases.

(** A server that is down. *)
Definition down : server := fun _ _ => Fails RequestException.

(** A session that breaks with an error of another class at its second
    use. *)
Definition crashing : server :=
  fun n _ => match n with
             | 0 => Fails RequestException
             | _ => Fails OSError
             end.

(** A page that links the same archive twice. *)
Definition linked_twice : string :=
  "<a href='data/catch.zip'>catch</a> <a href='data/catch.zip'>again</a>".

(** The base up to its last separator. *)
Definition directory_of (base : string) : string :=
  match PyPath.split_at PyPath.is_sep (rev (PyStr.chars base)) with
  | Some (_, before_rev) => PyStr.of_chars (rev ("/"%char :: before_rev))
  | None => ""
  end.

(** What follows the host of a URL, up to the query. *)
Fixpoint after_scheme (l : list ascii) : list ascii :=
  match l with
  | a :: l' =>
      match l' with
      | b :: rest => if PyPath.is_sep a && PyPath.is_sep b then rest else after_scheme l'
      | [] => []
      end
  | [] => []
  end.
Fixpoint from_sep (l : list ascii) : list ascii :=
  match l with
  | c :: l' => if PyPath.is_sep c then l else from_sep l'
  | [] => []
  end.
Definition is_query_mark (c : ascii) : bool := ((PyStr.code c =? 63) || (PyStr.code c =? 35))%N.
Definition path_of (u : string) : string :=
  let l := from_sep (after_scheme (PyStr.chars u)) in
  match PyPath.split_at is_query_mark l with
  | Some (path, _) => PyStr.of_chars path
  | None => PyStr.of_chars l
  end.

(** The links of the two pages; a link is a relative path without dot
    segments and is resolved against the directory of the base. *)
Definition html : HtmlLib :=
  {| zip_hrefs := fun text =>
       if text =? Sample.page then ["data/catch.zip"]
       else if text =? linked_twice then ["data/catch.zip"; "data/catch.zip"]
       else [];
     urljoin := fun base h => Ok (String.append (directory_of base) h);
     url_path := fun u => Ok (path_of u) |}.

(** The page, then an error page of 9 bytes for every probe and the
    archive of 12 bytes for every download. *)
Definition not_found : response :=
  {| status_code := 404; content_length := Some "9"; last_modified := None;
     chunks := ["Not Found"]; broken := false |}.

Definition head_refused : server :=
  fun _ rq => match req_method rq with
              | HEAD => Reply not_found
              | GET => if req_url rq =? base_url default_config
                       then Reply (Sample.ok_response Sample.page)
                       else Reply (Sample.ok_response "PK|c.csv|a,b")
              end.


(** An archive library under which [testzip] fails on every archive. *)
Definition encrypted : ZipLib :=
  Build_ZipLib Sample.zip_open (fun _ => Some (PlainException "File is encrypted"))
    Sample.zip_extract.

Definition stale : World := Sample.on_disk {["downloads/catch.zip" := "old"]}.

(** A download directory that holds the archive of [Sample.x_from_a]. *)
Definition x_present : World := Sample.on_disk {["downloads/x.zip" := "PK|c.csv|a,b"]}.



(** One cycle on a site, tasks completing in the order submitted. *)
Definition cycle (srv : server) : M Cycle.state unit :=
  Cycle.run_monitoring_cycle default_config Sample.md5 html Sample.zip srv
    (Chain.file_processors Sample.zip Sample.csv) (fun zs => seq 0 (length zs)) 1000
    (fun _ => "error").

End Cases.

(* ===================================================================== *)
(** * Properties *)
(* ===================================================================== *)

(** ** Strings *)

Section StringFacts.

Import PyStr.

Lemma of_chars_nil_iff (l : list ascii) : of_chars l = "" ↔ l = [].
Proof. destruct l; simpl; split; intros H; congruence. Qed.


Lemma lstrip_head (l : list ascii) c l' : lstrip l = c :: l' → is_space c = false.
Proof.
  induction l as [|a l IH]; simpl; [discriminate|].
  destruct (is_space a) eqn:E; [exact IH|].
  intros H; injection H as -> _. exact E.
Qed.

Lemma lstrip_nil_iff (l : list ascii) : lstrip l = [] ↔ forallb is_space l = true.
Proof.
  induction l as [|a l IH]; simpl; [tauto|].
  destruct (is_space a); simpl; [exact IH|].
  split; discriminate.
Qed.

Lemma forallb_rev {A} (f : A → bool) (l : list A) : forallb f (rev l) = forallb f l.
Proof.
  induction l as [|a l IH]; simpl; [reflexivity|].
  rewrite forallb_app, IH. simpl. rewrite andb_true_r. apply andb_comm.
Qed.

Lemma rstrip_nil_iff (l : list ascii) : rstrip l = [] ↔ forallb is_space l = true.
Proof.
  unfold rstrip. rewrite <- (forallb_rev is_space l), <- lstrip_nil_iff.
  split; intros H.
  - apply (f_equal (@rev ascii)) in H. rewrite rev_involutive in H. exact H.
  - rewrite H. reflexivity.
Qed.

Lemma lstrip_all_space (l : list ascii) :
  forallb is_space (lstrip l) = true ↔ forallb is_space l = true.
Proof.
  split; intros H.
  - apply lstrip_nil_iff. destruct (lstrip l) as [|c l'] eqn:E; [reflexivity|].
    apply lstrip_head in E. simpl in H. rewrite E in H. discriminate.
  - apply lstrip_nil_iff in H. rewrite H. reflexivity.
Qed.

(** [s.strip() == ''] exactly when [s] is empty or all whitespace. *)
Lemma strip_empty_iff (s : string) :
  strip s = "" ↔ forallb is_space (chars s) = true.
Proof.
  unfold strip. rewrite of_chars_nil_iff, rstrip_nil_iff. apply lstrip_all_space.
Qed.


End StringFacts.

(** ** CSVToJSONConverter: cells and rows *)

Section ConverterFacts.

Import PyStr CSVToJSONConverter.

Lemma lower_char_preimage (c t : ascii) :
  lower_char c = t → c = t ∨ c = ascii_of_N (code t - 32).
Proof.
  intros <-. destruct c as [[] [] [] [] [] [] [] []]; vm_compute; auto.
Qed.

Lemma lower_cons_inv (v : string) (t : ascii) (w : string) :
  lower v = String t w →
  ∃ c v', v = String c v' ∧ (c = t ∨ c = ascii_of_N (code t - 32)) ∧ lower v' = w.
Proof.
  destruct v as [|c v']; [discriminate|].
  unfold lower; simpl. intros H. injection H as Hc Hw.
  exists c, v'. split; [reflexivity|]. split; [|exact Hw].
  apply lower_char_preimage. exact Hc.
Qed.

Lemma lower_nil_inv (v : string) : lower v = "" → v = "".
Proof. destruct v; [reflexivity|discriminate]. Qed.

Ltac spellings H :=
  repeat (apply lower_cons_inv in H;
          destruct H as (?c & ?v & -> & [-> | ->] & H));
  apply lower_nil_inv in H; subst; vm_compute; reflexivity.

(** The word tokens are recognised in any casing. *)
Lemma convert_true_tokens (v : string) :
  In (lower v) ["true"; "yes"] → _convert_value v = PBool true.
Proof.
  intros [H | [H | []]]; symmetry in H; spellings H.
Qed.

Lemma convert_false_tokens (v : string) :
  In (lower v) ["false"; "no"] → _convert_value v = PBool false.
Proof.
  intros [H | [H | []]]; symmetry in H; spellings H.
Qed.

Lemma convert_value_spec (t : string) :
  _convert_value t
  = first_some [PInt <$> int t; PFloat <$> float t; PBool <$> spec_bool t] (PStr t).
Proof.
  unfold _convert_value, spec_bool.
  destruct (int t); simpl; [reflexivity|].
  destruct (float t); simpl; [reflexivity|].
  unfold mem, bool_tokens, true_tokens; simpl.
  destruct (lower t =? "true"), (lower t =? "false"), (lower t =? "yes"),
    (lower t =? "no"), (lower t =? "1"), (lower t =? "0"); reflexivity.
Qed.

Lemma clean_value_spec (text : string) :
  clean_value (CStr text) = Ok (spec_cell text).
Proof.
  unfold clean_value, spec_cell, spec_whitespace_only.
  destruct (strip text =? "") eqn:E.
  - apply String.eqb_eq, strip_empty_iff in E. rewrite E. reflexivity.
  - destruct (forallb is_space (chars text)) eqn:F.
    + apply strip_empty_iff, String.eqb_eq in F. congruence.
    + rewrite convert_value_spec. reflexivity.
Qed.

End ConverterFacts.

Section RowFacts.

Import PyStr CSVToJSONConverter.

Lemma dict_get_set {K V} `{EqDecision K} (k k' : K) (v : V) (d : list (K * V)) :
  dict_get k (dict_set k' v d) = if decide (k = k') then Some v else dict_get k d.
Proof.
  induction d as [|[k0 v0] d IH]; simpl.
  - destruct (decide (k = k')); reflexivity.
  - destruct (decide (k' = k0)) as [->|Hne]; simpl.
    + destruct (decide (k = k0)); reflexivity.
    + destruct (decide (k = k0)) as [->|Hne'].
      * destruct (decide (k0 = k')); [congruence|reflexivity].
      * exact IH.
Qed.

(** An empty or absent name gets the placeholder. *)
Lemma clean_key_placeholder :
  clean_key None = "unnamed_column" ∧ clean_key (Some "") = "unnamed_column".
Proof. split; reflexivity. Qed.

(** Last write wins: in a cleaned row a key holds the value of the last
    item of the row that cleans to it. *)
Lemma clean_items_last_write items : ∀ cleaned out k,
  clean_items items cleaned = Ok out →
  dict_get k out
  = match last_write k items with
    | Some value => match clean_value value with Ok v => Some v | Raise _ => None end
    | None => dict_get k cleaned
    end.
Proof.
  induction items as [|[key value] items IH]; intros cleaned out k H; simpl in *.
  - injection H as <-. reflexivity.
  - destruct (clean_value value) as [v|e] eqn:Ev; [|discriminate].
    rewrite (IH _ _ k H).
    destruct (last_write k items); [reflexivity|].
    rewrite dict_get_set.
    destruct (decide (clean_key key = k)) as [<-|Hne].
    + rewrite Ev. destruct (decide (clean_key key = clean_key key)); [reflexivity|congruence].
    + destruct (decide (k = clean_key key)); [congruence|reflexivity].
Qed.

Lemma clean_row_last_write row out k :
  _clean_row row = Ok out →
  dict_get k out
  = match last_write k row with
    | Some value => match clean_value value with Ok v => Some v | Raise _ => None end
    | None => None
    end.
Proof. intros H. apply (clean_items_last_write row [] out k H). Qed.

(** A row with a list in it cannot be cleaned. *)
Lemma clean_items_list items : ∀ cleaned key l,
  In (key, CList l) items → ∃ e, clean_items items cleaned = Raise e.
Proof.
  induction items as [|[key0 value0] items IH]; intros cleaned key l Hin; simpl in *; [tauto|].
  destruct Hin as [Heq | Hin].
  - injection Heq as -> ->. simpl. eauto.
  - destruct (clean_value value0); eauto.
Qed.

End RowFacts.

(** C6: a cell is coerced by the first rule that applies, in the order
    empty-or-whitespace to null, integer, floating point, boolean token
    (in any casing), text; so "007" becomes 7, "" becomes null and "Yes"
    becomes true.  The tokens "1" and "0" are integers, that parse coming
    first. *)
Theorem cell_coercion_order :
  (∀ text, CSVToJSONConverter.clean_value (CStr text)
           = Ok (CSVToJSONConverter.spec_cell text)) ∧
  CSVToJSONConverter.clean_value CNone = Ok PNone ∧
  CSVToJSONConverter._clean_row
    [(Some "code", CStr "007"); (Some "note", CStr ""); (Some "flag", CStr "Yes")]
  = Ok [("code", PInt 7); ("note", PNone); ("flag", PBool true)] ∧
  (∀ v, In (PyStr.lower v) ["true"; "yes"] → CSVToJSONConverter._convert_value v = PBool true) ∧
  (∀ v, In (PyStr.lower v) ["false"; "no"] → CSVToJSONConverter._convert_value v = PBool false) ∧
  CSVToJSONConverter._convert_value "1" = PInt 1 ∧
  CSVToJSONConverter._convert_value "0" = PInt 0.
Proof.
  split; [exact clean_value_spec|].
  split; [reflexivity|].
  split; [reflexivity|].
  split; [exact convert_true_tokens|].
  split; [exact convert_false_tokens|].
  split; reflexivity.
Qed.

(** C8: where the code departs from the claim.  A column name made of
    whitespace is stored as the empty name, not as the placeholder; and a
    line with more fields than the header, whose surplus [DictReader] files
    under the missing name [None], makes [_clean_row] raise, so that every
    attempt to read the file fails and it is not converted at all. *)
Theorem clean_row_blank_and_missing_names :
  CSVToJSONConverter._clean_row [(Some "  ", CStr "x")] = Ok [("", PStr "x")] ∧
  CSVToJSONConverter.dict_row ["a"; "b"] ["1"; "2"; "3"]
  = [(Some "a", CStr "1"); (Some "b", CStr "2"); (None, CList ["3"])] ∧
  CSVToJSONConverter._clean_row (CSVToJSONConverter.dict_row ["a"; "b"] ["1"; "2"; "3"])
  = Raise AttributeError ∧
  CSVToJSONConverter.read_with Sample.csv
    (Some (String.concat Sample.LF ["a,b"; "1,2,3"; ""])) "utf-8"
  = Raise AttributeError ∧
  CSVToJSONConverter._read_csv Sample.csv
    (Some (String.concat Sample.LF ["a,b"; "1,2,3"; ""]))
  = Raise CSVToJSONConverter.could_not_read.
Proof. repeat split; vm_compute; reflexivity. Qed.

(** ** CSVToJSONConverter: reading a file *)

Section ReadFacts.

Import CSVToJSONConverter.

Variable lib : Lib.
Variable content : option string.

Local Abbreviation attempt_fails := (CSVToJSONConverter.attempt_fails lib content).

Lemma read_loop_skip encoding rest :
  attempt_fails encoding →
  read_loop lib content (encoding :: rest) = read_loop lib content rest.
Proof.
  unfold attempt_fails. simpl. destruct (read_with lib content encoding); simpl.
  - discriminate.
  - intros _. destruct (is_UnicodeDecodeError e); reflexivity.
Qed.

Lemma read_loop_all_fail encs :
  Forall attempt_fails encs → read_loop lib content encs = [].
Proof.
  induction 1 as [|e encs He _ IH]; [reflexivity|].
  rewrite read_loop_skip by exact He. exact IH.
Qed.

Lemma read_loop_first_ok pre encoding post data :
  Forall attempt_fails pre →
  read_with lib content encoding = Ok data →
  read_loop lib content (pre ++ encoding :: post) = data.
Proof.
  induction 1 as [|e pre He _ IH]; intros Hok; simpl.
  - rewrite Hok. reflexivity.
  - change (read_loop lib content (e :: pre ++ encoding :: post) = data).
    rewrite read_loop_skip by exact He. exact (IH Hok).
Qed.

(** The loop yields either nothing, or what the first attempt that does
    not raise yields. *)
Lemma read_loop_cases encs :
  (Forall attempt_fails encs ∧ read_loop lib content encs = []) ∨
  ∃ pre encoding post,
    encs = pre ++ encoding :: post ∧ Forall attempt_fails pre ∧
    read_with lib content encoding = Ok (read_loop lib content encs).
Proof.
  induction encs as [|e encs IH].
  - left. split; [constructor|reflexivity].
  - destruct (read_with lib content e) as [data|x] eqn:E.
    + right. exists [], e, encs. simpl. rewrite E. repeat split; constructor.
    + assert (He : attempt_fails e) by (unfold attempt_fails; rewrite E; reflexivity).
      rewrite read_loop_skip by exact He.
      destruct IH as [[Hall Hnil] | (pre & enc & post & -> & Hpre & Hok)].
      * left. split; [constructor; assumption|exact Hnil].
      * right. exists (e :: pre), enc, post. repeat split; [constructor; assumption|exact Hok].
Qed.

(** When every attempt raises, the file is refused. *)
Lemma read_csv_all_fail :
  Forall attempt_fails encodings → _read_csv lib content = Raise could_not_read.
Proof.
  intros H. unfold _read_csv. rewrite (read_loop_all_fail _ H). reflexivity.
Qed.

(** The first attempt that does not raise decides: its records are the
    result when there are any. *)
Lemma read_csv_first_ok pre encoding post data :
  encodings = pre ++ encoding :: post →
  Forall attempt_fails pre →
  read_with lib content encoding = Ok data →
  data ≠ [] →
  _read_csv lib content = Ok data.
Proof.
  intros Henc Hpre Hok Hne. unfold _read_csv. rewrite Henc.
  rewrite (read_loop_first_ok pre encoding post data Hpre Hok).
  destruct data; [congruence|reflexivity].
Qed.

(** What a successful read means. *)
Lemma read_csv_ok_inv data :
  _read_csv lib content = Ok data →
  data ≠ [] ∧
  ∃ pre encoding post,
    encodings = pre ++ encoding :: post ∧ Forall attempt_fails pre ∧
    read_with lib content encoding = Ok data.
Proof.
  unfold _read_csv. intros H.
  destruct (read_loop_cases encodings) as [[_ Hnil] | (pre & enc & post & Henc & Hpre & Hok)].
  - rewrite Hnil in H. discriminate.
  - destruct (read_loop lib content encodings) as [|r rs] eqn:E; [discriminate|].
    injection H as <-. split; [discriminate|]. eauto 6.
Qed.

(** A file that the first codec cannot decode and the second can is
    converted, provided the second attempt yields records. *)
Lemma read_csv_fallback raw data :
  content = Some raw →
  decode lib "utf-8" raw = None →
  read_with lib content "latin-1" = Ok data →
  data ≠ [] →
  _read_csv lib content = Ok data.
Proof.
  intros Hc Hdec Hok Hne.
  apply (read_csv_first_ok ["utf-8"] "latin-1" ["cp1252"]); auto.
  constructor; [|constructor].
  unfold attempt_fails, read_with. rewrite Hc, Hdec. reflexivity.
Qed.

End ReadFacts.

(** C7: where the code departs from the claim.  A file that the first
    codec decodes and that holds a header and no record makes the loop stop
    with no data, and the reader then raises its could-not-read error
    although no codec failed. *)
Theorem read_csv_raises_on_decoded_file (lib : CSVToJSONConverter.Lib) (raw : string) :
  CSVToJSONConverter.read_with lib (Some raw) "utf-8" = Ok [] →
  (∃ text, CSVToJSONConverter.decode lib "utf-8" raw = Some text) ∧
  CSVToJSONConverter._read_csv lib (Some raw) = Raise CSVToJSONConverter.could_not_read.
Proof.
  intros H. split.
  - unfold CSVToJSONConverter.read_with in H.
    destruct (CSVToJSONConverter.decode lib "utf-8" raw) as [text|]; [eauto|discriminate].
  - unfold CSVToJSONConverter._read_csv, CSVToJSONConverter.encodings.
    cbn [CSVToJSONConverter.read_loop]. rewrite H. reflexivity.
Qed.

Lemma read_csv_raises_on_decoded_file_witness :
  CSVToJSONConverter.read_with Sample.csv
    (Some (String.concat Sample.LF ["year,flag,catch"; ""])) "utf-8" = Ok [] ∧
  (∃ text, CSVToJSONConverter.decode Sample.csv "utf-8"
             (String.concat Sample.LF ["year,flag,catch"; ""]) = Some text) ∧
  CSVToJSONConverter._read_csv Sample.csv
    (Some (String.concat Sample.LF ["year,flag,catch"; ""]))
  = Raise CSVToJSONConverter.could_not_read.
Proof.
  split; [vm_compute; reflexivity|].
  apply (read_csv_raises_on_decoded_file Sample.csv). vm_compute. reflexivity.
Defined.

Example read_csv_sample :
  CSVToJSONConverter._read_csv Sample.csv
    (Some (String.concat Sample.LF ["year,flag , catch"; "2001,Yes,007"; ""; "2002,,1.5"; ""]))
  = Ok [[("year", PInt 2001); ("flag", PBool true); ("catch", PInt 7)];
        [("year", PInt 2002); ("flag", PNone); ("catch", PFloat (PyStr.FDec false 15 (-1)))]].
Proof. vm_compute. reflexivity. Qed.

Example read_csv_latin1 :
  CSVToJSONConverter._read_csv Sample.csv
    (Some (String.concat Sample.LF ["port,n"; String.append "Bel" (String "233"%char "m,3"); ""]))
  = Ok [[("port", PStr (String.append "Bel" (String "233"%char "m"))); ("n", PInt 3)]].
Proof. vm_compute. reflexivity. Qed.

(** ** The retrying fetch *)

Section WorldFacts.

Lemma add_events_nil w : add_events [] w = w.
Proof. destruct w. unfold add_events, set_trace. simpl. rewrite app_nil_r. reflexivity. Qed.

Lemma add_events_app e1 e2 w : add_events e2 (add_events e1 w) = add_events (e1 ++ e2) w.
Proof. unfold add_events, set_trace. simpl. rewrite app_assoc. reflexivity. Qed.

Lemma requests_sent_add evs w :
  requests_sent (add_events evs w)
  = requests_sent w + length (filter (fun e => is_sent e = true) evs).
Proof.
  unfold requests_sent, add_events. simpl. rewrite filter_app, length_app. reflexivity.
Qed.



End WorldFacts.

Section FetchFacts.

Import WebsiteMonitor.

Variable cfg : Config.
Variable srv : server.
Variable u : string.

Local Abbreviation rq := (get_request cfg u).

Lemma request_loop_step attempt k w :
  request_loop cfg srv u attempt (S k) w
  = match classify (srv (requests_sent w) rq) with
    | Success r => (Ok (Some r), add_events [Sent rq] w)
    | Fatal e => (Raise e, add_events [Sent rq] w)
    | Retry => request_loop cfg srv u (S attempt) k (add_events [Sent rq; Slept (2 ^ attempt)] w)
    end.
Proof.
  cbn [request_loop].
  unfold try_except, bind, Session.send, Session.sleep, Session.raise_for_status,
    modify, raise, ret, classify.
  fold rq. change (req_stream rq) with false. cbn [negb andb].
  destruct (srv (requests_sent w) rq) as [r|e].
  - destruct (broken r).
    + cbn [is_RequestException]. rewrite add_events_app. reflexivity.
    + destruct ((400 <=? status_code r)%nat && (status_code r <? 600)%nat).
      * cbn [is_RequestException]. rewrite add_events_app. reflexivity.
      * reflexivity.
  - destruct (is_RequestException e).
    + rewrite add_events_app. reflexivity.
    + reflexivity.
Qed.

Lemma retries_S first n :
  retries rq first (S n) = [Sent rq; Slept (2 ^ first)] ++ retries rq (S first) n.
Proof. reflexivity. Qed.

Lemma requests_sent_retry attempt w :
  requests_sent (add_events [Sent rq; Slept (2 ^ attempt)] w) = S (requests_sent w).
Proof. rewrite requests_sent_add. simpl. lia. Qed.

(** Every attempt fails: [None] after [n] requests and [n] sleeps. *)
Lemma request_loop_exhausted n : ∀ attempt w,
  (∀ j, j < n → classify (srv (requests_sent w + j) rq) = Retry) →
  request_loop cfg srv u attempt n w = (Ok None, add_events (retries rq attempt n) w).
Proof.
  induction n as [|n IH]; intros attempt w H.
  - simpl. unfold ret. rewrite add_events_nil. reflexivity.
  - rewrite request_loop_step.
    pose proof (H 0 ltac:(lia)) as H0. rewrite Nat.add_0_r in H0. rewrite H0.
    rewrite IH.
    + rewrite add_events_app. reflexivity.
    + intros j Hj. rewrite requests_sent_retry.
      replace (S (requests_sent w) + j) with (requests_sent w + S j) by lia.
      apply H. lia.
Qed.


(** The three ways the loop can end. *)
Lemma request_loop_cases n : ∀ attempt w,
  request_loop cfg srv u attempt n w = (Ok None, add_events (retries rq attempt n) w)
  ∨ (∃ k r, k < n ∧
       request_loop cfg srv u attempt n w
       = (Ok (Some r), add_events (retries rq attempt k ++ [Sent rq]) w))
  ∨ (∃ k e, k < n ∧ is_RequestException e = false ∧
       request_loop cfg srv u attempt n w
       = (Raise e, add_events (retries rq attempt k ++ [Sent rq]) w)).
Proof.
  induction n as [|n IH]; intros attempt w.
  - left. simpl. unfold ret. rewrite add_events_nil. reflexivity.
  - rewrite request_loop_step.
    destruct (srv (requests_sent w) rq) as [r|e] eqn:E; unfold classify.
    + destruct (broken r);
        [|destruct ((400 <=? status_code r)%nat && (status_code r <? 600)%nat)].
      3: { right. left. exists 0, r. split; [lia|reflexivity]. }
      all: destruct (IH (S attempt) (add_events [Sent rq; Slept (2 ^ attempt)] w))
          as [H | [(k & r' & Hk & H) | (k & e' & Hk & He & H)]]; rewrite H, add_events_app.
      all: try (left; reflexivity).
      all: try (right; left; exists (S k), r'; split; [lia|reflexivity]).
      all: right; right; exists (S k), e'; split; [lia|]; split; [exact He|reflexivity].
    + destruct (is_RequestException e) eqn:Ee.
      * destruct (IH (S attempt) (add_events [Sent rq; Slept (2 ^ attempt)] w))
          as [H | [(k & r' & Hk & H) | (k & e' & Hk & He & H)]]; rewrite H, add_events_app.
        -- left; reflexivity.
        -- right; left; exists (S k), r'; split; [lia|reflexivity].
        -- right; right; exists (S k), e'; split; [lia|]; split; [exact He|reflexivity].
      * right. right. exists 0, e. split; [lia|]. split; [exact Ee|reflexivity].
Qed.

Lemma length_sent_retries first k :
  length (filter (fun e => is_sent e = true) (retries rq first k)) = k.
Proof.
  revert first. induction k as [|k IH]; intros first; [reflexivity|].
  rewrite retries_S, filter_app, length_app, IH. reflexivity.
Qed.

(** The retrying fetch only adds events to the world, sends at most
    [retry_attempts] requests, and never raises a [RequestException]. *)
Lemma make_request_bounds w :
  ∃ res evs,
    _make_request cfg srv u w = (res, add_events evs w) ∧
    (length (filter (fun e => is_sent e = true) evs) <= retry_attempts cfg)%nat ∧
    Forall (fun e => e = Sent rq ∨ ∃ j, j < retry_attempts cfg ∧ e = Slept (2 ^ j)) evs ∧
    res ≠ Raise RequestException.
Proof.
  unfold _make_request.
  assert (Hev : ∀ k, (k <= retry_attempts cfg)%nat →
    Forall (fun e => e = Sent rq ∨ ∃ j, j < retry_attempts cfg ∧ e = Slept (2 ^ j))
           (retries rq 0 k)).
  { intros k Hk. unfold retries. apply Forall_flat_map, Forall_forall.
    intros j Hj. apply elem_of_seq in Hj.
    constructor; [left; reflexivity|]. constructor; [|constructor].
    right. exists j. split; [lia|reflexivity]. }
  destruct (request_loop_cases (retry_attempts cfg) 0 w)
    as [H | [(k & r & Hk & H) | (k & e & Hk & He & H)]]; rewrite H.
  - eexists _, _. split; [reflexivity|]. rewrite length_sent_retries.
    split; [lia|]. split; [apply Hev; lia|discriminate].
  - eexists _, _. split; [reflexivity|].
    rewrite filter_app, length_app, length_sent_retries. simpl.
    split; [lia|]. split; [|discriminate].
    apply Forall_app. split; [apply Hev; lia|]. constructor; [left; reflexivity|constructor].
  - eexists _, _. split; [reflexivity|].
    rewrite filter_app, length_app, length_sent_retries. simpl.
    split; [lia|]. split.
    + apply Forall_app. split; [apply Hev; lia|]. constructor; [left; reflexivity|constructor].
    + intros Heq. injection Heq as ->. discriminate.
Qed.

End FetchFacts.

(** ** FileDownloader *)

Section DownloadFacts.

Import FileDownloader.

Variable cfg : Config.
Variable zl : ZipLib.
Variable srv : server.

Lemma append_nil_r (s : string) : String.append s "" = s.
Proof.
  induction s as [|c s IH]; [reflexivity|].
  change (String c (String.append s "") = String c s). f_equal. exact IH.
Qed.

Lemma append_assoc (a b c : string) :
  String.append (String.append a b) c = String.append a (String.append b c).
Proof.
  induction a as [|x a IH]; [reflexivity|].
  change (String x (String.append (String.append a b) c)
          = String x (String.append a (String.append b c))).
  f_equal. exact IH.
Qed.

Lemma concat_cons (c : string) (cs : list string) :
  String.concat "" (c :: cs) = String.append c (String.concat "" cs).
Proof. destruct cs; cbn [String.concat]; [rewrite append_nil_r|]; reflexivity. Qed.

Lemma validate_download_result file_path file_info w :
  _validate_download zl file_path file_info w
  = (validate_result zl file_info (fs w !! file_path), w).
Proof.
  unfold _validate_download, validate_result, bind, get, try_except, raise, ret.
  destruct (fs w !! file_path) as [data|]; [|reflexivity].
  destruct (size_mismatch file_info data); [reflexivity|].
  destruct (zip_open zl data); [|reflexivity].
  destruct (zip_test zl data) as [e|]; [|reflexivity].
  destruct (is_BadZipFile e); reflexivity.
Qed.

(** Writing the chunks appends their concatenation to the file, whether
    or not the transfer breaks after them. *)
Lemma write_chunks_result destination cs broken : ∀ w acc,
  fs w !! destination = Some acc →
  write_chunks destination cs broken w
  = (if broken then Raise RequestException else Ok tt,
     set_fs (<[destination := String.append acc (String.concat "" cs)]> (fs w)) w).
Proof.
  induction cs as [|c cs IH]; intros w acc Hacc.
  - simpl. rewrite append_nil_r, insert_id by exact Hacc.
    destruct w, broken; reflexivity.
  - cbn [write_chunks]. unfold bind.
    destruct (c =? "") eqn:Ec.
    + apply String.eqb_eq in Ec. subst c. unfold ret.
      rewrite (IH w acc Hacc). rewrite concat_cons. reflexivity.
    + unfold write, modify.
      rewrite (IH _ (String.append acc c)).
      * rewrite concat_cons, <- append_assoc. cbn [fs set_fs].
        rewrite insert_insert_eq. reflexivity.
      * simpl. rewrite Hacc. simpl. apply lookup_insert_eq.
Qed.

Lemma fresh_file_world destination (data : string) w1 :
  set_fs (<[destination := String.append "" data]>
            (fs (set_fs (<[destination := ""]> (fs w1)) w1)))
         (set_fs (<[destination := ""]> (fs w1)) w1)
  = set_fs (<[destination := data]> (fs w1)) w1.
Proof.
  change (String.append "" data) with data. unfold set_fs. cbn [fs trace cache cache_writable clock locked].
  rewrite insert_insert_eq. reflexivity.
Qed.

(** [download] never raises, and its value is the one written out in
    [download_result]. *)
Lemma download_eq file_info destination w :
  download cfg zl srv file_info destination w
  = (Ok (download_result cfg zl srv file_info destination w).1,
     (download_result cfg zl srv file_info destination w).2).
Proof.
  unfold download, download_result, try_except, bind at 1, get.
  destruct (_validate_existing_file (fs w) destination file_info); [reflexivity|].
  unfold bind at 1, Session.send. change (req_stream (get_request cfg (url file_info))) with true.
  cbn [negb andb].
  destruct (srv (requests_sent w) (get_request cfg (url file_info))) as [r|e]; [|reflexivity].
  unfold bind at 1, Session.raise_for_status, bad_status.
  destruct ((400 <=? status_code r)%nat && (status_code r <? 600)%nat); [reflexivity|].
  unfold ret at 1. unfold bind at 1, lift_result.
  destruct (content_length_int r) as [total_size|e]; [|reflexivity].
  unfold bind at 1, open_wb, bind at 1, get.
  change (locked (add_events [Sent (get_request cfg (url file_info))] w)) with (locked w).
  destruct (decide (destination ∈ locked w)); [reflexivity|].
  unfold modify. unfold bind at 1.
  rewrite (write_chunks_result destination (chunks r) (broken r) _ "")
    by (cbn [fs set_fs]; apply lookup_insert_eq).
  rewrite fresh_file_world. fold (content r).
  change (fs (add_events [Sent (get_request cfg (url file_info))] w)) with (fs w).
  destruct (broken r); [reflexivity|].
  unfold bind at 1. rewrite validate_download_result.
  cbn [fs set_fs]. rewrite lookup_insert_eq.
  destruct (validate_result zl file_info (Some (content r))) as [[|]|e]; try reflexivity.
  unfold bind, unlink, modify, ret. cbn [fs set_fs fst snd]. rewrite delete_insert_eq.
  reflexivity.
Qed.

(** A download sends nothing or exactly one request, and never sleeps. *)
Lemma download_trace file_info destination w :
  let w' := (download_result cfg zl srv file_info destination w).2 in
  trace w' = trace w ∨ trace w' = trace w ++ [Sent (get_request cfg (url file_info))].
Proof.
  unfold download_result.
  destruct (_validate_existing_file (fs w) destination file_info); [left; reflexivity|].
  right.
  destruct (srv (requests_sent w) (get_request cfg (url file_info))) as [r|e]; [|reflexivity].
  destruct (bad_status r); [reflexivity|].
  destruct (content_length_int r); [|reflexivity].
  destruct (decide (destination ∈ locked w)); [reflexivity|].
  destruct (broken r); [reflexivity|].
  destruct (validate_result zl file_info (Some (content r))) as [[|]|]; reflexivity.
Qed.

(** A download touches no file but its destination. *)
Lemma download_other_files file_info destination w p :
  p ≠ destination →
  fs (download_result cfg zl srv file_info destination w).2 !! p = fs w !! p.
Proof.
  intros Hp. unfold download_result.
  destruct (_validate_existing_file (fs w) destination file_info); [reflexivity|].
  destruct (srv (requests_sent w) (get_request cfg (url file_info))) as [r|e]; [|reflexivity].
  destruct (bad_status r); [reflexivity|].
  destruct (content_length_int r); [|reflexivity].
  destruct (decide (destination ∈ locked w)); [reflexivity|].
  destruct (broken r); [cbn [snd fs set_fs]; apply lookup_insert_ne; congruence|].
  destruct (validate_result zl file_info (Some (content r))) as [[|]|]; cbn [snd fs set_fs].
  - apply lookup_insert_ne; congruence.
  - apply lookup_delete_ne; congruence.
  - apply lookup_insert_ne; congruence.
Qed.

Lemma download_locked file_info destination w :
  locked (download_result cfg zl srv file_info destination w).2 = locked w.
Proof.
  unfold download_result.
  destruct (_validate_existing_file (fs w) destination file_info); [reflexivity|].
  destruct (srv (requests_sent w) (get_request cfg (url file_info))) as [r|e]; [|reflexivity].
  destruct (bad_status r); [reflexivity|].
  destruct (content_length_int r); [|reflexivity].
  destruct (decide (destination ∈ locked w)); [reflexivity|].
  destruct (broken r); [reflexivity|].
  destruct (validate_result zl file_info (Some (content r))) as [[|]|]; reflexivity.
Qed.

(** After a download that reports success the destination passes the
    check made before fetching. *)
Lemma download_true_valid file_info destination w :
  (download_result cfg zl srv file_info destination w).1 = true →
  _validate_existing_file
    (fs (download_result cfg zl srv file_info destination w).2) destination file_info = true.
Proof.
  unfold download_result.
  destruct (_validate_existing_file (fs w) destination file_info) eqn:E; [intros _; exact E|].
  destruct (srv (requests_sent w) (get_request cfg (url file_info))) as [r|e]; [|discriminate].
  destruct (bad_status r); [discriminate|].
  destruct (content_length_int r); [|discriminate].
  destruct (decide (destination ∈ locked w)); [discriminate|].
  destruct (broken r); [discriminate|].
  destruct (validate_result zl file_info (Some (content r))) as [[|]|] eqn:V;
    try discriminate.
  intros _. cbn [snd fs set_fs]. unfold _validate_existing_file.
  rewrite lookup_insert_eq. unfold validate_result in V.
  destruct (size_mismatch file_info (content r)); [discriminate|reflexivity].
Qed.

(** An existing file is accepted when the descriptor's size is unknown,
    zero, or the size of the file. *)
Lemma validate_existing_file_true d file_path file_info data :
  d !! file_path = Some data →
  (∀ n, size file_info = Some n → n = 0%Z ∨ n = st_size data) →
  _validate_existing_file d file_path file_info = true.
Proof.
  intros Hd Hsize. unfold _validate_existing_file, size_mismatch. rewrite Hd.
  destruct (size file_info) as [n|]; [|reflexivity].
  destruct (Hsize n eq_refl) as [-> | ->]; [reflexivity|].
  rewrite Z.eqb_refl, andb_false_r. reflexivity.
Qed.

Lemma download_skip file_info destination w :
  _validate_existing_file (fs w) destination file_info = true →
  download cfg zl srv file_info destination w = (Ok true, w).
Proof.
  intros Hv. rewrite download_eq. unfold download_result. rewrite Hv. reflexivity.
Qed.

End DownloadFacts.

Section ProbeFacts.

Import WebsiteMonitor.

Variable cfg : Config.
Variable srv : server.

(** The probe sends one HEAD request, never sleeps and never raises. *)
Lemma enrich_eq file_info w :
  _enrich_file_info cfg srv file_info w
  = (Ok match srv (requests_sent w) (head_request cfg (url file_info)) with
        | Reply r =>
            if broken r then file_info
            else match content_length_int r with
                 | Ok n => enriched file_info n r
                 | Raise _ => file_info
                 end
        | Fails _ => file_info
        end,
     add_events [Sent (head_request cfg (url file_info))] w).
Proof.
  unfold _enrich_file_info, try_except, bind, Session.send, lift_result, ret.
  change (req_stream (head_request cfg (url file_info))) with false. cbn [negb andb].
  destruct (srv (requests_sent w) (head_request cfg (url file_info))) as [r|e]; [|reflexivity].
  destruct (broken r); [reflexivity|].
  destruct (content_length_int r); reflexivity.
Qed.

End ProbeFacts.

(** C9: a probe answered without a content-length header records the size
    0; for such a descriptor, as for one with no size, every existing
    destination is accepted without comparing sizes, so it is skipped with no
    request, and no byte count fails the size check of a download, which then
    rests on the archive check alone. *)
Theorem missing_content_length_disables_size_check
    (cfg : Config) (zl : ZipLib) (srv : server) (file_info : FileInfo) (w : World) (r : response) :
  srv (requests_sent w) (WebsiteMonitor.head_request cfg (url file_info)) = Reply r →
  broken r = false →
  content_length r = None →
  ∃ probed,
    WebsiteMonitor._enrich_file_info cfg srv file_info w
    = (Ok probed, add_events [Sent (WebsiteMonitor.head_request cfg (url file_info))] w) ∧
    size probed = Some 0%Z ∧
    (∀ d p, FileDownloader._validate_existing_file d p probed = bool_decide (is_Some (d !! p))) ∧
    (∀ data, FileDownloader.size_mismatch probed data = false) ∧
    (∀ unsized data, size unsized = None →
       FileDownloader.validate_result zl probed (Some data)
       = FileDownloader.validate_result zl unsized (Some data)) ∧
    (∀ srv' destination w' data,
       fs w' !! destination = Some data →
       FileDownloader.download cfg zl srv' probed destination w' = (Ok true, w')).
Proof.
  intros Hr Hb Hc. exists (WebsiteMonitor.enriched file_info 0 r).
  split.
  { rewrite enrich_eq, Hr, Hb. unfold content_length_int. rewrite Hc. reflexivity. }
  split; [reflexivity|].
  split.
  { intros d p. unfold FileDownloader._validate_existing_file.
    destruct (d !! p) as [data|] eqn:E.
    - symmetry. apply bool_decide_eq_true. eauto.
    - symmetry. apply bool_decide_eq_false. intros [x Hx]. discriminate. }
  split; [reflexivity|].
  split.
  { intros unsized data Hu. unfold FileDownloader.validate_result, FileDownloader.size_mismatch.
    rewrite Hu. reflexivity. }
  intros srv' destination w' data Hd.
  apply download_skip. unfold FileDownloader._validate_existing_file. rewrite Hd. reflexivity.
Qed.

(** C10: when the transfer breaks after some chunks, [download] returns
    false and the destination holds the chunks received; and whenever a
    download leaves no file at a destination that held one, it went through
    the validation-failure branch of a transfer that completed. *)
Theorem broken_transfer_leaves_partial_file
    (cfg : Config) (zl : ZipLib) (srv : server) (file_info : FileInfo)
    (destination : string) (w : World) (r : response) :
  FileDownloader._validate_existing_file (fs w) destination file_info = false →
  srv (requests_sent w) (FileDownloader.get_request cfg (url file_info)) = Reply r →
  FileDownloader.bad_status r = false →
  is_ok (content_length_int r) = true →
  destination ∉ locked w →
  broken r = true →
  (∃ w', FileDownloader.download cfg zl srv file_info destination w = (Ok false, w') ∧
         fs w' !! destination = Some (content r)) ∧
  (∀ srv0 w0 b w1,
     FileDownloader.download cfg zl srv0 file_info destination w0 = (Ok b, w1) →
     is_Some (fs w0 !! destination) →
     fs w1 !! destination = None →
     b = false ∧
     ∃ r0, srv0 (requests_sent w0) (FileDownloader.get_request cfg (url file_info)) = Reply r0 ∧
           broken r0 = false ∧
           FileDownloader.validate_result zl file_info (Some (content r0)) = Ok false).
Proof.
  intros Hv Hr Hs Hc Hl Hb. split.
  - rewrite download_eq. unfold FileDownloader.download_result.
    rewrite Hv, Hr, Hs. destruct (content_length_int r); [|discriminate].
    destruct (decide (destination ∈ locked w)); [contradiction|].
    rewrite Hb. eexists. split; [reflexivity|]. cbn [snd fs set_fs]. apply lookup_insert_eq.
  - intros srv0 w0 b w1 H0 [old Hold] Hgone. rewrite download_eq in H0.
    injection H0 as <- <-. revert Hgone. unfold FileDownloader.download_result.
    destruct (FileDownloader._validate_existing_file (fs w0) destination file_info);
      [cbn [snd fst]; congruence|].
    destruct (srv0 (requests_sent w0) (FileDownloader.get_request cfg (url file_info)))
      as [r0|e] eqn:Hr0; [|cbn [snd fst fs add_events set_trace]; congruence].
    destruct (FileDownloader.bad_status r0); [cbn [snd fst fs add_events set_trace]; congruence|].
    destruct (content_length_int r0); [|cbn [snd fst fs add_events set_trace]; congruence].
    destruct (decide (destination ∈ locked w0));
      [cbn [snd fst fs add_events set_trace]; congruence|].
    destruct (broken r0) eqn:Hb0;
      [cbn [snd fst fs set_fs]; rewrite lookup_insert_eq; discriminate|].
    destruct (FileDownloader.validate_result zl file_info (Some (content r0))) as [[|]|] eqn:V;
      cbn [snd fst fs set_fs]; try (rewrite lookup_insert_eq; discriminate).
    intros _. split; [reflexivity|]. exists r0. auto.
Qed.

Lemma missing_content_length_disables_size_check_witness :
  ∃ probed,
    WebsiteMonitor._enrich_file_info default_config (Sample.steady "") Sample.catch_zip Sample.world
    = (Ok probed,
       add_events [Sent (WebsiteMonitor.head_request default_config (url Sample.catch_zip))]
                  Sample.world) ∧
    size probed = Some 0%Z.
Proof.
  destruct (missing_content_length_disables_size_check default_config Sample.zip
              (Sample.steady "") Sample.catch_zip Sample.world (Sample.ok_response "")
              eq_refl eq_refl eq_refl) as (probed & H1 & H2 & _).
  exists probed. split; assumption.
Defined.

Lemma broken_transfer_leaves_partial_file_witness :
  ∃ w', FileDownloader.download default_config Sample.zip Sample.interrupted Sample.catch_zip
          "downloads/catch.zip" Sample.world = (Ok false, w') ∧
        fs w' !! "downloads/catch.zip" = Some "PK|c.csv|".
Proof.
  refine (proj1 (broken_transfer_leaves_partial_file default_config Sample.zip Sample.interrupted
                   Sample.catch_zip "downloads/catch.zip" Sample.world Sample.cut_short
                   _ _ _ _ _ _)).
  - vm_compute. reflexivity.
  - reflexivity.
  - reflexivity.
  - reflexivity.
  - apply not_elem_of_empty.
  - reflexivity.
Defined.

(** ** Paths *)

Section PathFacts.

Import PyPath.

Lemma split_at_none (p : ascii → bool) l :
  forallb (fun c => negb (p c)) l = true → split_at p l = None.
Proof.
  induction l as [|a l IH]; [reflexivity|]. cbn [forallb split_at]. intros H.
  apply andb_true_iff in H as [Ha Hl]. destruct (p a); [discriminate|].
  rewrite (IH Hl). reflexivity.
Qed.

Lemma split_at_app (p : ascii → bool) l c rest :
  forallb (fun c => negb (p c)) l = true → p c = true →
  split_at p (l ++ c :: rest) = Some (l, rest).
Proof.
  intros Hl Hc. induction l as [|a l IH]; cbn [app split_at forallb] in *.
  - rewrite Hc. reflexivity.
  - apply andb_true_iff in Hl as [Ha Hl]. destruct (p a); [discriminate|].
    rewrite (IH Hl). reflexivity.
Qed.

Lemma split_sep_nosep l :
  forallb (fun c => negb (is_sep c)) l = true → split_sep l = [l].
Proof.
  induction l as [|a l IH]; [reflexivity|]. cbn [forallb split_sep]. intros H.
  apply andb_true_iff in H as [Ha Hl]. destruct (is_sep a); [discriminate|].
  rewrite (IH Hl). reflexivity.
Qed.

Lemma join_parts_snoc ps x :
  join_parts (ps ++ [x]) = flat_map (fun q => q ++ ["/"%char]) ps ++ x.
Proof.
  induction ps as [|q ps IH]; [reflexivity|].
  cbn [flat_map]. rewrite <- !app_assoc, <- IH. cbn [app].
  destruct ps as [|q' ps]; reflexivity.
Qed.

(** What comes before the last component ends with a separator, if there
    is anything. *)
Lemma prefix_ends_with_sep d :
  let before := root d ++ flat_map (fun q => q ++ ["/"%char]) (parts d) in
  before = [] ∨ ∃ c rest, rev before = c :: rest ∧ is_sep c = true.
Proof.
  cbn zeta. destruct (parts d) as [|q qs _] using rev_ind.
  - cbn [flat_map]. rewrite app_nil_r. unfold root.
    destruct (PyStr.chars d) as [|a [|b [|c l]]]; [left; reflexivity|..];
      destruct (is_sep a) eqn:Ea; try (left; reflexivity);
      try (destruct (is_sep b) eqn:Eb); try (destruct (is_sep c) eqn:Ec);
      right; cbn [rev app]; eauto.
  - right. rewrite flat_map_app. cbn [flat_map]. rewrite app_nil_r, !app_assoc, rev_app_distr.
    cbn [rev app]. eexists _, _. split; reflexivity.
Qed.

Lemma filename_chars n :
  is_filename n = true →
  forallb (fun c => negb (is_sep c)) (PyStr.chars n) = true ∧
  root n = [] ∧ parts n = [PyStr.chars n].
Proof.
  unfold is_filename. rewrite !andb_true_iff, !negb_true_iff, !String.eqb_neq.
  intros [[[Hne Hdot] _] Hsep]. split; [exact Hsep|].
  destruct n as [|a n]; [congruence|]. split.
  - unfold root. cbn [PyStr.chars list_ascii_of_string forallb] in *.
    apply andb_true_iff in Hsep as [Ha _]. destruct (is_sep a); [discriminate|reflexivity].
  - unfold parts. rewrite (split_sep_nosep _ Hsep). cbn [List.filter].
    replace (is_component (PyStr.chars (String a n))) with true; [reflexivity|].
    destruct n as [|b n]; [|reflexivity]. cbn. unfold PyStr.is_dot, PyStr.code.
    destruct (N.eqb_spec (N_of_ascii a) 46) as [E|]; [|reflexivity].
    exfalso. apply Hdot. f_equal. rewrite <- (ascii_N_embedding a), E. reflexivity.
Qed.

(** Below a directory, a file name is the last component of its path. *)
Lemma basename_join d n : is_filename n = true → basename (join d n) = n.
Proof.
  intros Hn. destruct (filename_chars n Hn) as (Hsep & Hroot & Hparts).
  unfold join. rewrite Hroot, Hparts. unfold render.
  assert (E : match root d, parts d ++ [PyStr.chars n] with
              | [], [] => "."
              | _, _ => PyStr.of_chars (root d ++ join_parts (parts d ++ [PyStr.chars n]))
              end = PyStr.of_chars (root d ++ join_parts (parts d ++ [PyStr.chars n]))).
  { destruct (root d); [|reflexivity].
    destruct (parts d ++ [PyStr.chars n]) eqn:E; [|reflexivity].
    apply app_eq_nil in E as [_ E]. discriminate. }
  rewrite E, join_parts_snoc, app_assoc. clear E.
  unfold basename, name_chars, PyStr.chars, PyStr.of_chars.
  rewrite list_ascii_of_string_of_list_ascii, rev_app_distr.
  destruct (prefix_ends_with_sep d) as [-> | (c & rest & -> & Hc)].
  - cbn [rev app]. rewrite app_nil_r, split_at_none by (rewrite forallb_rev; exact Hsep).
    apply string_of_list_ascii_of_string.
  - rewrite split_at_app by (try rewrite forallb_rev; assumption).
    rewrite rev_involutive. apply string_of_list_ascii_of_string.
Qed.

Lemma join_inj d a b :
  is_filename a = true → is_filename b = true → join d a = join d b → a = b.
Proof.
  intros Ha Hb H. rewrite <- (basename_join d a Ha), <- (basename_join d b Hb), H.
  reflexivity.
Qed.

End PathFacts.

(** ** The download step *)

Section PoolFacts.

Import FileDownloader IATTCDataMonitor.

Variable cfg : Config.
Variable zl : ZipLib.
Variable srv : server.
Hypothesis srv_stateless : stateless srv.

(** A download depends on the world only through its own destination and
    the locks. *)
Lemma download_result_local file_info dest w w0 :
  fs w !! dest = fs w0 !! dest →
  locked w = locked w0 →
  (download_result cfg zl srv file_info dest w).1
  = (download_result cfg zl srv file_info dest w0).1 ∧
  fs (download_result cfg zl srv file_info dest w).2 !! dest
  = fs (download_result cfg zl srv file_info dest w0).2 !! dest.
Proof.
  intros Hfs Hl. unfold download_result, _validate_existing_file.
  rewrite Hfs, Hl, (srv_stateless (requests_sent w) (requests_sent w0)).
  assert (Hsame : ∀ b : bool,
    (b, w).1 = (b, w0).1 ∧ fs (b, w).2 !! dest = fs (b, w0).2 !! dest)
    by (intros b; split; [reflexivity|exact Hfs]).
  assert (Hsent : ∀ (b : bool) evs,
    (b, add_events evs w).1 = (b, add_events evs w0).1 ∧
    fs (b, add_events evs w).2 !! dest = fs (b, add_events evs w0).2 !! dest)
    by (intros b evs; split; [reflexivity|exact Hfs]).
  assert (Hput : ∀ (b : bool) evs data,
    (b, set_fs (<[dest := data]> (fs w)) (add_events evs w)).1
    = (b, set_fs (<[dest := data]> (fs w0)) (add_events evs w0)).1 ∧
    fs (b, set_fs (<[dest := data]> (fs w)) (add_events evs w)).2 !! dest
    = fs (b, set_fs (<[dest := data]> (fs w0)) (add_events evs w0)).2 !! dest)
    by (intros b evs data; split; [reflexivity|];
        cbn [snd fs set_fs]; rewrite !lookup_insert_eq; reflexivity).
  assert (Hdel : ∀ (b : bool) evs,
    (b, set_fs (delete dest (fs w)) (add_events evs w)).1
    = (b, set_fs (delete dest (fs w0)) (add_events evs w0)).1 ∧
    fs (b, set_fs (delete dest (fs w)) (add_events evs w)).2 !! dest
    = fs (b, set_fs (delete dest (fs w0)) (add_events evs w0)).2 !! dest)
    by (intros b evs; split; [reflexivity|];
        cbn [snd fs set_fs]; rewrite !lookup_delete_eq; reflexivity).
  destruct (match fs w0 !! dest with
            | Some data => negb (size_mismatch file_info data)
            | None => false
            end); [apply Hsame|].
  destruct (srv (requests_sent w0) (get_request cfg (url file_info))) as [r|e];
    [|apply Hsent].
  destruct (bad_status r); [apply Hsent|].
  destruct (content_length_int r); [|apply Hsent].
  destruct (decide (dest ∈ locked w0)); [apply Hsent|].
  destruct (broken r); [apply Hput|].
  destruct (validate_result zl file_info (Some (content r))) as [[|]|];
    [apply Hput|apply Hdel|apply Hput].
Qed.

Variable zip_files : list FileInfo.
Variable w0 : World.
Hypothesis names_distinct : NoDup (filename <$> zip_files).
Hypothesis names_proper : Forall (fun fi => PyPath.is_filename (filename fi) = true) zip_files.

Lemma destinations_distinct i j fi fj :
  i ≠ j → zip_files !! i = Some fi → zip_files !! j = Some fj →
  destination cfg fi ≠ destination cfg fj.
Proof.
  intros Hij Hi Hj Heq.
  apply join_inj in Heq;
    [|exact (Forall_lookup_1 _ _ _ _ names_proper Hi)
     |exact (Forall_lookup_1 _ _ _ _ names_proper Hj)].
  apply Hij.
  apply (NoDup_lookup _ i j (filename fi) names_distinct);
    rewrite list_lookup_fmap; [rewrite Hi|rewrite Hj, Heq]; reflexivity.
Qed.

(** Tasks with distinct destinations do not see each other: run in any
    order, each leaves at its destination what it leaves when run alone,
    and the paths gathered are those of the downloads good on their own. *)
Lemma run_tasks_isolated order : ∀ w,
  NoDup order →
  (∀ i fi, i ∈ order → zip_files !! i = Some fi →
           fs w !! destination cfg fi = fs w0 !! destination cfg fi) →
  locked w = locked w0 →
  ∃ w', run_tasks cfg zl srv zip_files order w
        = (Ok (good_paths cfg zl srv w0 zip_files order), w') ∧
        locked w' = locked w0 ∧
        (∀ i fi, i ∈ order → zip_files !! i = Some fi →
                 fs w' !! destination cfg fi
                 = fs (alone cfg zl srv w0 fi).2 !! destination cfg fi) ∧
        (∀ p, (∀ i fi, i ∈ order → zip_files !! i = Some fi → p ≠ destination cfg fi) →
              fs w' !! p = fs w !! p).
Proof.
  induction order as [|i rest IH]; intros w Hnd Hfs Hl.
  - exists w. repeat split; [exact Hl | intros i fi Hi; inversion Hi].
  - apply NoDup_cons in Hnd as [Hi Hnd].
    cbn [run_tasks]. unfold good_paths. cbn [omap list_omap]. fold (good_paths cfg zl srv w0 zip_files rest).
    destruct (zip_files !! i) as [fi|] eqn:Ei.
    + unfold bind at 1. rewrite download_eq.
      pose proof (download_result_local fi (destination cfg fi) w w0
                    (Hfs i fi ltac:(left) Ei) Hl) as [Hb Hf].
      fold (alone cfg zl srv w0 fi) in Hb, Hf.
      set (w1 := (download_result cfg zl srv fi (destination cfg fi) w).2) in *.
      assert (Hother : ∀ j fj, j ∈ rest → zip_files !! j = Some fj →
                               destination cfg fj ≠ destination cfg fi).
      { intros j fj Hj Ej. apply (destinations_distinct j i); [|exact Ej|exact Ei].
        intros ->. contradiction. }
      destruct (IH w1 Hnd) as (w' & Hrun & Hl' & Hmine & Hrest).
      { intros j fj Hj Ej. unfold w1.
        rewrite download_other_files by (apply (Hother j fj Hj Ej)).
        apply (Hfs j fj); [right; exact Hj|exact Ej]. }
      { unfold w1. rewrite download_locked. exact Hl. }
      exists w'. unfold bind. rewrite Hrun. unfold ret. rewrite Hb.
      split; [destruct (alone cfg zl srv w0 fi).1; reflexivity|].
      split; [exact Hl'|]. split.
      * intros j fj Hj Ej. apply elem_of_cons in Hj as [-> | Hj].
        -- rewrite Ei in Ej. injection Ej as <-. rewrite Hrest; [exact Hf|].
           intros j fj Hj Ej. apply not_eq_sym. exact (Hother j fj Hj Ej).
        -- exact (Hmine j fj Hj Ej).
      * intros p Hp. rewrite Hrest.
        -- unfold w1. apply download_other_files. apply (Hp i fi); [left|exact Ei].
        -- intros j fj Hj Ej. apply (Hp j fj); [right; exact Hj|exact Ej].
    + destruct (IH w Hnd) as (w' & Hrun & Hl' & Hmine & Hrest).
      { intros j fj Hj Ej. apply (Hfs j fj); [right; exact Hj|exact Ej]. }
      { exact Hl. }
      exists w'. split; [exact Hrun|]. split; [exact Hl'|]. split.
      * intros j fj Hj Ej. apply elem_of_cons in Hj as [-> | Hj]; [congruence|].
        exact (Hmine j fj Hj Ej).
      * intros p Hp. apply Hrest. intros j fj Hj Ej. apply (Hp j fj); [right; exact Hj|exact Ej].
Qed.

End PoolFacts.

Section OneFailure.

Import FileDownloader IATTCDataMonitor.

Variable cfg : Config.
Variable zl : ZipLib.
Variable srv : server.
Variable zip_files : list FileInfo.
Variable w0 : World.
Variable k : nat.
Variable bad : FileInfo.

Hypothesis bad_at_k : zip_files !! k = Some bad.
Hypothesis bad_fails : fails_validation cfg zl srv bad w0.
Hypothesis others_succeed :
  ∀ j fi, j ≠ k → zip_files !! j = Some fi → succeeds cfg zl srv fi w0.

Lemma fails_validation_alone :
  (alone cfg zl srv w0 bad).1 = false ∧
  fs (alone cfg zl srv w0 bad).2 !! destination cfg bad = None.
Proof.
  destruct bad_fails as (Hv & r & Hr & Hs & Hc & Hl & Hb & Hval).
  unfold alone, download_result. rewrite Hv, Hr, Hs.
  destruct (content_length_int r); [|discriminate].
  destruct (decide (destination cfg bad ∈ locked w0)); [contradiction|].
  rewrite Hb, Hval. split; [reflexivity|]. cbn [snd fs set_fs]. apply lookup_delete_eq.
Qed.

Lemma length_good_paths_seq n : ∀ a,
  a + n <= length zip_files →
  length (good_paths cfg zl srv w0 zip_files (seq a n))
  = n - (if decide (a <= k ∧ k < a + n) then 1 else 0).
Proof.
  induction n as [|n IH]; intros a Ha.
  - simpl. reflexivity.
  - cbn [seq]. unfold good_paths. cbn [omap list_omap].
    fold (good_paths cfg zl srv w0 zip_files (seq (S a) n)).
    destruct (lookup_lt_is_Some_2 zip_files a ltac:(lia)) as [fi Hfi]. rewrite Hfi.
    destruct (decide (a = k)) as [->|Hne].
    + rewrite bad_at_k in Hfi. injection Hfi as <-.
      rewrite (proj1 fails_validation_alone), IH by lia.
      repeat case_decide; lia.
    + pose proof (others_succeed a fi Hne Hfi) as Hs. unfold succeeds in Hs.
      fold (alone cfg zl srv w0 fi) in Hs. rewrite Hs. cbn [length]. rewrite IH by lia.
      repeat case_decide; lia.
Qed.

Lemma elem_of_good_paths order p :
  order ≡ₚ seq 0 (length zip_files) →
  p ∈ good_paths cfg zl srv w0 zip_files order
  ↔ ∃ j fi, j ≠ k ∧ zip_files !! j = Some fi ∧ p = destination cfg fi.
Proof.
  intros Hperm. unfold good_paths. rewrite list_elem_of_omap. split.
  - intros (j & _ & Hj). destruct (zip_files !! j) as [fi|] eqn:E; [|discriminate].
    destruct (alone cfg zl srv w0 fi).1 eqn:Hb; [|discriminate].
    injection Hj as <-. exists j, fi. split; [|auto].
    intros ->. rewrite bad_at_k in E. injection E as <-.
    rewrite (proj1 fails_validation_alone) in Hb. discriminate.
  - intros (j & fi & Hne & Hfi & ->). exists j. split.
    + rewrite Hperm. apply elem_of_seq. apply lookup_lt_Some in Hfi. lia.
    + rewrite Hfi. pose proof (others_succeed j fi Hne Hfi) as Hs. unfold succeeds in Hs.
      fold (alone cfg zl srv w0 fi) in Hs. rewrite Hs. reflexivity.
Qed.

End OneFailure.

(** With at least one worker the pool is built and the tasks run. *)
Lemma pool_runs_tasks cfg zl srv zip_files order :
  (0 < max_workers cfg)%nat →
  IATTCDataMonitor._download_files_concurrently cfg zl srv zip_files order
  = IATTCDataMonitor.run_tasks cfg zl srv zip_files order.
Proof.
  intros H. unfold IATTCDataMonitor._download_files_concurrently.
  destruct (max_workers cfg); [lia|reflexivity].
Qed.

(** Without a worker the step raises before any task runs. *)
Lemma pool_without_workers cfg zl srv zip_files order w :
  max_workers cfg = 0 →
  IATTCDataMonitor._download_files_concurrently cfg zl srv zip_files order w
  = (Raise ValueError, w).
Proof.
  intros H. unfold IATTCDataMonitor._download_files_concurrently. rewrite H. reflexivity.
Qed.

(** C4, amended: the pool has at least one worker, the descriptors have
    pairwise distinct file names, each the name of a file (not empty, not a
    dot name, without separator), and the server answers a request the same
    way whenever it comes.  If, each taken on its own, exactly one descriptor
    fails validation and every other is downloaded, then in whatever order
    the tasks run the step returns exactly the N-1 destinations of the
    others, no file is left at the destination of the failing one, and each
    other destination holds the file its own download puts there. *)
Theorem one_validation_failure_is_isolated
    (cfg : Config) (zl : ZipLib) (srv : server) (zip_files : list FileInfo)
    (order : list nat) (w0 : World) (k : nat) (bad : FileInfo) :
  (0 < max_workers cfg)%nat →
  IATTCDataMonitor.stateless srv →
  NoDup (filename <$> zip_files) →
  Forall (fun fi => PyPath.is_filename (filename fi) = true) zip_files →
  IATTCDataMonitor.schedule cfg (length zip_files) order →
  zip_files !! k = Some bad →
  IATTCDataMonitor.fails_validation cfg zl srv bad w0 →
  (∀ j fi, j ≠ k → zip_files !! j = Some fi → IATTCDataMonitor.succeeds cfg zl srv fi w0) →
  ∃ paths w',
    IATTCDataMonitor._download_files_concurrently cfg zl srv zip_files order w0
    = (Ok paths, w') ∧
    length paths = length zip_files - 1 ∧
    (∀ p, p ∈ paths ↔
          ∃ j fi, j ≠ k ∧ zip_files !! j = Some fi ∧ p = IATTCDataMonitor.destination cfg fi) ∧
    fs w' !! IATTCDataMonitor.destination cfg bad = None ∧
    (∀ j fi, j ≠ k → zip_files !! j = Some fi →
       is_Some (fs w' !! IATTCDataMonitor.destination cfg fi) ∧
       fs w' !! IATTCDataMonitor.destination cfg fi
       = fs (IATTCDataMonitor.alone cfg zl srv w0 fi).2 !! IATTCDataMonitor.destination cfg fi).
Proof.
  intros Hpool Hsrv Hnames Hproper [Hperm _] Hk Hbad Hothers.
  rewrite (pool_runs_tasks cfg zl srv zip_files order Hpool).
  assert (Hnd : NoDup order) by (rewrite Hperm; apply NoDup_seq).
  destruct (run_tasks_isolated cfg zl srv Hsrv zip_files w0 Hnames Hproper order w0 Hnd)
    as (w' & Hrun & _ & Hmine & _); [reflexivity|reflexivity|].
  assert (Hin : ∀ j fi, zip_files !! j = Some fi → j ∈ order).
  { intros j fi Hj. rewrite Hperm. apply elem_of_seq. apply lookup_lt_Some in Hj. lia. }
  exists (IATTCDataMonitor.good_paths cfg zl srv w0 zip_files order), w'.
  split; [exact Hrun|]. split.
  { unfold IATTCDataMonitor.good_paths. rewrite Hperm.
    fold (IATTCDataMonitor.good_paths cfg zl srv w0 zip_files (seq 0 (length zip_files))).
    rewrite (length_good_paths_seq cfg zl srv zip_files w0 k bad Hk Hbad Hothers) by lia.
    apply lookup_lt_Some in Hk. case_decide; lia. }
  split; [intros p; apply (elem_of_good_paths cfg zl srv zip_files w0 k bad Hk Hbad Hothers);
          exact Hperm|].
  split.
  { rewrite (Hmine k bad (Hin k bad Hk) Hk).
    apply (fails_validation_alone cfg zl srv w0 bad Hbad). }
  intros j fi Hne Hj. rewrite (Hmine j fi (Hin j fi Hj) Hj). split; [|reflexivity].
  pose proof (download_true_valid cfg zl srv fi (IATTCDataMonitor.destination cfg fi) w0
                (Hothers j fi Hne Hj)) as Hv.
  unfold FileDownloader._validate_existing_file in Hv. unfold IATTCDataMonitor.alone.
  destruct (fs _ !! _); [eauto|discriminate].
Qed.

Lemma one_validation_failure_is_isolated_witness :
  ∃ w', IATTCDataMonitor._download_files_concurrently default_config Sample.zip Sample.site
          [Sample.catch_any; Sample.effort_any] [1; 0] Sample.world
        = (Ok ["downloads/catch.zip"], w') ∧
        fs w' !! "downloads/effort.zip" = None ∧
        fs w' !! "downloads/catch.zip" = Some "PK|c.csv|a,b".
Proof.
  destruct (one_validation_failure_is_isolated default_config Sample.zip Sample.site
              [Sample.catch_any; Sample.effort_any] [1; 0] Sample.world 1 Sample.effort_any)
    as (paths & w' & Hrun & _ & _ & Hbad & Hgood).
  - cbn. lia.
  - intros n m rq. reflexivity.
  - apply NoDup_ListNoDup. cbn [fmap list_fmap filename Sample.catch_any Sample.effort_any
      Sample.descriptor].
    constructor; [intros [H|[]]; discriminate H|]. constructor; [intros []|constructor].
  - repeat constructor.
  - split; [apply perm_swap|]. intros H. discriminate H.
  - reflexivity.
  - split; [vm_compute; reflexivity|].
    exists (Sample.ok_response "<html>moved</html>").
    repeat split; try reflexivity. apply not_elem_of_empty.
  - intros [|[|j]] fi Hne Hj; [|contradiction|discriminate].
    injection Hj as <-. vm_compute. reflexivity.
  - exists w'. split; [|split].
    + rewrite Hrun. f_equal. f_equal.
      assert (E : IATTCDataMonitor._download_files_concurrently default_config Sample.zip
                    Sample.site [Sample.catch_any; Sample.effort_any] [1; 0] Sample.world
                  = (Ok ["downloads/catch.zip"],
                     (IATTCDataMonitor._download_files_concurrently default_config Sample.zip
                        Sample.site [Sample.catch_any; Sample.effort_any] [1; 0] Sample.world).2))
        by (vm_compute; reflexivity).
      rewrite Hrun in E. injection E as ->. reflexivity.
    + exact Hbad.
    + destruct (Hgood 0 Sample.catch_any ltac:(lia) eq_refl) as [_ H].
      etransitivity; [exact H|]. vm_compute. reflexivity.
Defined.

(** C4, as stated, fails when two descriptors share a file name: with one
    worker, the first download succeeds and is returned, the second finds a
    file of another size, fetches, fails validation and deletes the file the
    first one wrote. *)
Lemma shared_file_name_breaks_isolation :
  IATTCDataMonitor.stateless Sample.site ∧
  IATTCDataMonitor.schedule Sample.single_worker 2 [0; 1] ∧
  IATTCDataMonitor.succeeds Sample.single_worker Sample.zip Sample.site Sample.x_from_a
    Sample.world ∧
  IATTCDataMonitor.fails_validation Sample.single_worker Sample.zip Sample.site Sample.x_from_b
    Sample.world ∧
  ∃ w', IATTCDataMonitor._download_files_concurrently Sample.single_worker Sample.zip Sample.site
          [Sample.x_from_a; Sample.x_from_b] [0; 1] Sample.world
        = (Ok ["downloads/x.zip"], w') ∧
        IATTCDataMonitor.destination Sample.single_worker Sample.x_from_a = "downloads/x.zip" ∧
        fs w' !! "downloads/x.zip" = None.
Proof.
  split; [intros n m rq; reflexivity|].
  split; [split; reflexivity|].
  split; [vm_compute; reflexivity|].
  split.
  { split; [vm_compute; reflexivity|]. exists (Sample.ok_response "garbage").
    repeat split; try reflexivity. apply not_elem_of_empty. }
  eexists. split; [vm_compute; reflexivity|]. split; vm_compute; reflexivity.
Qed.

Section SkipFacts.

Import FileDownloader IATTCDataMonitor.

Variable cfg : Config.
Variable zl : ZipLib.
Variable srv : server.
Variable zip_files : list FileInfo.
Hypothesis names_distinct : NoDup (filename <$> zip_files).
Hypothesis names_proper : Forall (fun fi => PyPath.is_filename (filename fi) = true) zip_files.
Variable k : nat.
Variable file_info : FileInfo.
Variable data : string.
Hypothesis at_k : zip_files !! k = Some file_info.
Hypothesis size_fits : ∀ n, size file_info = Some n → n = st_size data.

(** While a valid file lies at the destination of the descriptor at [k],
    its task changes nothing, whenever it runs: the tasks of the others leave
    that file alone, every request sent is one of theirs, and the step ends
    as it does with the task at [k] left out. *)
Lemma run_tasks_skips order : ∀ w,
  fs w !! destination cfg file_info = Some data →
  ∃ paths w' evs,
    run_tasks cfg zl srv zip_files order w = (Ok paths, w') ∧
    (k ∈ order → destination cfg file_info ∈ paths) ∧
    fs w' !! destination cfg file_info = Some data ∧
    trace w' = trace w ++ evs ∧
    Forall (fun e => ∃ j fi, j ≠ k ∧ zip_files !! j = Some fi ∧
                             e = Sent (get_request cfg (url fi))) evs ∧
    run_tasks cfg zl srv zip_files (filter (fun j => j ≠ k) order) w
    = (Ok (filter (fun p => p ≠ destination cfg file_info) paths), w').
Proof.
  induction order as [|i rest IH]; intros w Hd.
  - exists [], w, []. rewrite app_nil_r. repeat split; auto. intros H. inversion H.
  - cbn [run_tasks]. destruct (decide (i = k)) as [->|Hik].
    + rewrite at_k. unfold bind at 1.
      rewrite (download_skip cfg zl srv file_info _ w)
        by (apply (validate_existing_file_true _ _ _ data Hd);
            intros n Hn; right; exact (size_fits n Hn)).
      destruct (IH w Hd) as (paths & w' & evs & Hrun & _ & Hd' & Ht & Hev & Hout).
      unfold bind. rewrite Hrun. unfold ret.
      exists (destination cfg file_info :: paths), w', evs.
      split; [reflexivity|]. split; [intros _; left|]. split; [exact Hd'|].
      split; [exact Ht|]. split; [exact Hev|].
      rewrite filter_cons_False by (intros H; apply H; reflexivity).
      rewrite filter_cons_False by (intros H; apply H; reflexivity).
      exact Hout.
    + rewrite (filter_cons_True (fun j => j ≠ k)) by exact Hik. cbn [run_tasks].
      destruct (zip_files !! i) as [fi|] eqn:Ei.
      * assert (Hne : destination cfg file_info ≠ destination cfg fi).
        { apply (destinations_distinct cfg zip_files names_distinct names_proper k i);
            [congruence|exact at_k|exact Ei]. }
        unfold bind at 1 3. rewrite download_eq.
        set (b := (download_result cfg zl srv fi (destination cfg fi) w).1).
        set (w1 := (download_result cfg zl srv fi (destination cfg fi) w).2).
        assert (Hd1 : fs w1 !! destination cfg file_info = Some data).
        { unfold w1. rewrite download_other_files by exact Hne. exact Hd. }
        destruct (IH w1 Hd1) as (paths & w' & evs & Hrun & Hin & Hd' & Ht & Hev & Hout).
        unfold bind. rewrite Hrun, Hout. unfold ret.
        assert (Hmine : ∃ ev0, trace w1 = trace w ++ ev0 ∧
                  Forall (fun e => ∃ j fi, j ≠ k ∧ zip_files !! j = Some fi ∧
                                           e = Sent (get_request cfg (url fi))) ev0).
        { destruct (download_trace cfg zl srv fi (destination cfg fi) w) as [E|E];
            fold w1 in E.
          - exists []. rewrite app_nil_r. split; [exact E|constructor].
          - eexists. split; [exact E|]. constructor; [|constructor]. eauto. }
        destruct Hmine as (ev0 & Ht0 & Hev0).
        exists (if b then destination cfg fi :: paths else paths), w', (ev0 ++ evs).
        split; [reflexivity|]. split.
        { intros Hk. apply elem_of_cons in Hk as [Hk|Hk]; [congruence|].
          destruct b; [right|]; exact (Hin Hk). }
        split; [exact Hd'|]. split; [rewrite Ht, Ht0, app_assoc; reflexivity|].
        split; [apply Forall_app; split; assumption|].
        destruct b; [|reflexivity].
        rewrite filter_cons_True by (apply not_eq_sym; exact Hne). reflexivity.
      * destruct (IH w Hd) as (paths & w' & evs & Hrun & Hin & Hd' & Ht & Hev & Hout).
        exists paths, w', evs. split; [exact Hrun|]. split.
        { intros Hk. apply elem_of_cons in Hk as [Hk|Hk]; [congruence|exact (Hin Hk)]. }
        auto.
Qed.

End SkipFacts.

(** C5, amended: a descriptor whose destination exists with the expected
    size, when one is known, is reported valid by [download] without any
    request and with the world untouched, and a download that reported
    success is skipped when run again, whatever the server would answer.  In
    the download step this holds for a pool with at least one worker and
    descriptors with pairwise distinct file names, each the name of a file:
    in whatever order the tasks run, the path of that descriptor is returned,
    its file stays as it is, every request the step sends is the request of
    another descriptor, and the step ends as it does with that task left
    out. *)
Theorem download_skips_valid_file (cfg : Config) (zl : ZipLib) (srv : server)
    (file_info : FileInfo) (destination : string) (w : World) (data : string) :
  fs w !! destination = Some data →
  (∀ n, size file_info = Some n → n = FileDownloader.st_size data) →
  FileDownloader.download cfg zl srv file_info destination w = (Ok true, w) ∧
  requests_sent (FileDownloader.download cfg zl srv file_info destination w).2 = requests_sent w ∧
  (∀ zip_files order k,
     (0 < max_workers cfg)%nat →
     NoDup (filename <$> zip_files) →
     Forall (fun fi => PyPath.is_filename (filename fi) = true) zip_files →
     zip_files !! k = Some file_info →
     destination = IATTCDataMonitor.destination cfg file_info →
     ∃ paths w' evs,
       IATTCDataMonitor._download_files_concurrently cfg zl srv zip_files order w
       = (Ok paths, w') ∧
       (k ∈ order → destination ∈ paths) ∧
       fs w' !! destination = Some data ∧
       trace w' = trace w ++ evs ∧
       Forall (fun e => ∃ j fi, j ≠ k ∧ zip_files !! j = Some fi ∧
                                e = Sent (FileDownloader.get_request cfg (url fi))) evs ∧
       IATTCDataMonitor._download_files_concurrently cfg zl srv zip_files
         (filter (fun j => j ≠ k) order) w
       = (Ok (filter (fun p => p ≠ destination) paths), w')) ∧
  (∀ w0 w1 srv0 srv1,
     FileDownloader.download cfg zl srv0 file_info destination w0 = (Ok true, w1) →
     FileDownloader.download cfg zl srv1 file_info destination w1 = (Ok true, w1)).
Proof.
  intros Hd Hsize.
  assert (H : FileDownloader.download cfg zl srv file_info destination w = (Ok true, w)).
  { apply download_skip. apply (validate_existing_file_true _ _ _ data Hd).
    intros n Hn. right. exact (Hsize n Hn). }
  split; [exact H|]. split; [rewrite H; reflexivity|]. split.
  { intros zip_files order k Hpool Hnames Hproper Hk ->.
    rewrite !(pool_runs_tasks cfg zl srv zip_files _ Hpool).
    apply (run_tasks_skips cfg zl srv zip_files Hnames Hproper k file_info data Hk Hsize).
    exact Hd. }
  intros w0 w1 srv0 srv1 H0. rewrite download_eq in H0.
  injection H0 as Hb Hw. apply download_skip. rewrite <- Hw.
  apply download_true_valid. exact Hb.
Qed.

Lemma download_skips_valid_file_witness :
  ∃ w', IATTCDataMonitor._download_files_concurrently default_config Sample.zip Sample.site
          [Sample.catch_zip; Sample.effort_any] [1; 0]
          (Sample.on_disk {["downloads/catch.zip" := "PK|c.csv|a,b"]})
        = (Ok ["downloads/catch.zip"], w') ∧
        fs w' !! "downloads/catch.zip" = Some "PK|c.csv|a,b" ∧
        trace w' = [Sent (FileDownloader.get_request default_config (url Sample.effort_any))].
Proof.
  destruct (download_skips_valid_file default_config Sample.zip Sample.site Sample.catch_zip
              "downloads/catch.zip"
              (Sample.on_disk {["downloads/catch.zip" := "PK|c.csv|a,b"]}) "PK|c.csv|a,b")
    as (_ & _ & Hstep & _).
  - vm_compute. reflexivity.
  - intros n Hn. injection Hn as <-. reflexivity.
  - destruct (Hstep [Sample.catch_zip; Sample.effort_any] [1; 0] 0)
      as (paths & w' & evs & Hrun & _ & Hfile & _).
    + cbn. lia.
    + apply NoDup_ListNoDup. cbn [fmap list_fmap filename Sample.catch_zip Sample.effort_any
        Sample.descriptor].
      constructor; [intros [H|[]]; discriminate H|]. constructor; [intros []|constructor].
    + repeat constructor.
    + reflexivity.
    + vm_compute. reflexivity.
    + assert (E : IATTCDataMonitor._download_files_concurrently default_config Sample.zip
                    Sample.site [Sample.catch_zip; Sample.effort_any] [1; 0]
                    (Sample.on_disk {["downloads/catch.zip" := "PK|c.csv|a,b"]})
                  = (Ok ["downloads/catch.zip"],
                     (IATTCDataMonitor._download_files_concurrently default_config Sample.zip
                        Sample.site [Sample.catch_zip; Sample.effort_any] [1; 0]
                        (Sample.on_disk {["downloads/catch.zip" := "PK|c.csv|a,b"]})).2))
        by (vm_compute; reflexivity).
      exists w'. split; [|split; [exact Hfile|]].
      * rewrite Hrun in E. injection E as ->. exact Hrun.
      * replace w' with
          (IATTCDataMonitor._download_files_concurrently default_config Sample.zip
             Sample.site [Sample.catch_zip; Sample.effort_any] [1; 0]
             (Sample.on_disk {["downloads/catch.zip" := "PK|c.csv|a,b"]})).2
          by (rewrite Hrun; reflexivity).
        vm_compute. reflexivity.
Defined.

(** C5, as stated, fails when two descriptors share a file name: a valid
    file of the expected size lies at the destination of the second, and yet
    the step fetches it, the task of the first having replaced and then
    deleted that file. *)
Lemma shared_file_name_defeats_skip :
  fs Cases.x_present !! IATTCDataMonitor.destination Sample.single_worker Sample.x_from_a
  = Some "PK|c.csv|a,b" ∧
  size Sample.x_from_a = Some (FileDownloader.st_size "PK|c.csv|a,b") ∧
  FileDownloader.download Sample.single_worker Sample.zip Sample.site Sample.x_from_a
    (IATTCDataMonitor.destination Sample.single_worker Sample.x_from_a) Cases.x_present
  = (Ok true, Cases.x_present) ∧
  IATTCDataMonitor.schedule Sample.single_worker 2 [0; 1] ∧
  ∃ paths w',
    IATTCDataMonitor._download_files_concurrently Sample.single_worker Sample.zip Sample.site
      [Sample.x_from_b; Sample.x_from_a] [0; 1] Cases.x_present = (Ok paths, w') ∧
    trace w' = [Sent (FileDownloader.get_request Sample.single_worker (url Sample.x_from_b));
                Sent (FileDownloader.get_request Sample.single_worker (url Sample.x_from_a))].
Proof.
  split; [vm_compute; reflexivity|]. split; [reflexivity|].
  split; [vm_compute; reflexivity|]. split; [split; reflexivity|].
  eexists _, _. split; vm_compute; reflexivity.
Qed.

(** ** WebsiteMonitor *)

Section MonitorFacts.

Import WebsiteMonitor.

Variable cfg : Config.
Variable md5 : string → string.
Variable srv : server.
Variable u : string.

(** [detect_changes] never raises; this is its value once the fetch has
    ended with [res] in the world [w1]. *)
Lemma detect_changes_eq w res w1 :
  _make_request cfg srv u w = (res, w1) →
  detect_changes cfg md5 srv u w
  = match res with
    | Ok (Some r) =>
        match cache w1 with
        | NotAnObject => (Ok false, w1)
        | c =>
            if differs (md5 (content r)) (stored_hash c)
            then (Ok true,
                  if cache_writable w1
                  then set_cache (fingerprint (md5 (content r)) (clock w1)) w1 else w1)
            else (Ok false, w1)
        end
    | _ => (Ok false, w1)
    end.
Proof.
  intros Hreq. unfold detect_changes, try_except, bind at 1. rewrite Hreq.
  destruct res as [[r|]|e]; [|reflexivity|reflexivity].
  unfold bind at 1, _load_cache, bind at 1, get.
  destruct (cache w1) eqn:Ec; cbn [ret bind get_page_hash raise any_exception stored_hash].
  - rewrite lookup_empty. cbn [differs].
    cbv [bind get _save_cache try_except modify raise ret any_exception].
    destruct (cache_writable w1); reflexivity.
  - rewrite lookup_empty. cbn [differs].
    cbv [bind get _save_cache try_except modify raise ret any_exception].
    destruct (cache_writable w1); reflexivity.
  - reflexivity.
  - destruct (differs (md5 (content r)) (d !! "page_hash")); [|reflexivity].
    cbv [bind get _save_cache try_except modify raise ret any_exception].
    destruct (cache_writable w1); reflexivity.
Qed.

Lemma make_request_frame w res w1 :
  _make_request cfg srv u w = (res, w1) →
  cache w1 = cache w ∧ cache_writable w1 = cache_writable w ∧ clock w1 = clock w ∧
  fs w1 = fs w ∧ locked w1 = locked w.
Proof.
  intros H. destruct (make_request_bounds cfg srv u w) as (res' & evs & E & _).
  rewrite E in H. injection H as _ <-. repeat split; reflexivity.
Qed.

Lemma differs_false_iff h stored : differs h stored = false ↔ stored = Some (JStr h).
Proof.
  unfold differs. destruct stored as [[s|]|]; try (split; [discriminate|congruence]).
  rewrite negb_false_iff, String.eqb_eq. split; congruence.
Qed.

Lemma stored_hash_fingerprint h now : stored_hash (fingerprint h now) = Some (JStr h).
Proof.
  unfold stored_hash, fingerprint. rewrite lookup_insert_ne by discriminate.
  apply lookup_insert_eq.
Qed.

(** The value of [detect_changes] when the page is fetched and the cache,
    if it parses, is an object. *)
Lemma detect_changes_fetched w r w1 :
  _make_request cfg srv u w = (Ok (Some r), w1) →
  cache w ≠ NotAnObject →
  detect_changes cfg md5 srv u w
  = if differs (md5 (content r)) (stored_hash (cache w))
    then (Ok true,
          if cache_writable w
          then set_cache (fingerprint (md5 (content r)) (clock w)) w1 else w1)
    else (Ok false, w1).
Proof.
  intros Hreq Hc. rewrite (detect_changes_eq w _ _ Hreq).
  destruct (make_request_frame _ _ _ Hreq) as (Ec & Ew & Ek & _). rewrite Ec, Ew, Ek.
  destruct (cache w); try reflexivity. congruence.
Qed.

(** With the cache out of reach for writing, a change is reported and
    nothing is persisted. *)
Lemma detect_changes_unwritable w r w1 :
  _make_request cfg srv u w = (Ok (Some r), w1) →
  cache w ≠ NotAnObject →
  cache_writable w = false →
  differs (md5 (content r)) (stored_hash (cache w)) = true →
  detect_changes cfg md5 srv u w = (Ok true, w1).
Proof.
  intros Hreq Hc Hw Hd. rewrite (detect_changes_fetched w r w1 Hreq Hc), Hd, Hw. reflexivity.
Qed.



End MonitorFacts.

(** C1, amended: the page is fetched, the cache file can be written and,
    where it parses, holds a JSON object.  Then [detect_changes] returns true
    exactly when the hash of the page is not the stored one (or none is
    stored), having then replaced the cache by the new hash and the time; it
    leaves the cache as it was when it returns false; and a second call that
    fetches the same content returns false and leaves the cache as the first
    call left it. *)
Theorem detect_changes_contract
    (cfg : Config) (md5 : string → string) (srv : server) (u : string)
    (w : World) (r : response) (w1 : World) :
  WebsiteMonitor._make_request cfg srv u w = (Ok (Some r), w1) →
  cache w ≠ NotAnObject →
  cache_writable w = true →
  ∃ changed w2,
    WebsiteMonitor.detect_changes cfg md5 srv u w = (Ok changed, w2) ∧
    (changed = true ↔ stored_hash (cache w) ≠ Some (JStr (md5 (content r)))) ∧
    (changed = true → cache w2 = fingerprint (md5 (content r)) (clock w)) ∧
    (changed = false → cache w2 = cache w) ∧
    (∀ r' w3,
       WebsiteMonitor._make_request cfg srv u w2 = (Ok (Some r'), w3) →
       content r' = content r →
       WebsiteMonitor.detect_changes cfg md5 srv u w2 = (Ok false, w3) ∧ cache w3 = cache w2).
Proof.
  intros Hreq Hc Hw.
  destruct (make_request_frame _ _ _ _ _ _ Hreq) as (Ec & Ew & Ek & _).
  assert (Hsecond : ∀ w2, cache w2 ≠ NotAnObject →
            stored_hash (cache w2) = Some (JStr (md5 (content r))) →
            ∀ r' w3, WebsiteMonitor._make_request cfg srv u w2 = (Ok (Some r'), w3) →
              content r' = content r →
              WebsiteMonitor.detect_changes cfg md5 srv u w2 = (Ok false, w3) ∧
              cache w3 = cache w2).
  { intros w2 Hn Hs r' w3 Hreq' Hsame.
    destruct (make_request_frame _ _ _ _ _ _ Hreq') as (Ec' & _).
    split; [|exact Ec'].
    rewrite (detect_changes_fetched _ md5 _ _ w2 r' w3 Hreq' Hn), Hsame.
    apply differs_false_iff in Hs. rewrite Hs. reflexivity. }
  rewrite (detect_changes_fetched _ md5 _ _ w r w1 Hreq Hc), Hw.
  destruct (WebsiteMonitor.differs (md5 (content r)) (stored_hash (cache w))) eqn:Hd.
  - exists true, (set_cache (fingerprint (md5 (content r)) (clock w)) w1).
    split; [reflexivity|].
    split; [split; [intros _ Hs; apply differs_false_iff in Hs; congruence|reflexivity]|].
    split; [reflexivity|]. split; [discriminate|].
    apply Hsecond; [discriminate|apply stored_hash_fingerprint].
  - exists false, w1. apply differs_false_iff in Hd as Hs.
    split; [reflexivity|].
    split; [split; [discriminate|congruence]|].
    split; [discriminate|]. split; [intros _; exact Ec|].
    apply Hsecond; rewrite Ec; assumption.
Qed.

Lemma detect_changes_contract_witness :
  ∃ changed w2,
    WebsiteMonitor.detect_changes default_config Sample.md5 (Sample.steady Sample.page)
      (base_url default_config) Sample.world = (Ok changed, w2) ∧
    (changed = true →
     cache w2 = fingerprint (Sample.md5 Sample.page) "2024-01-01T00:00:00") ∧
    changed = true.
Proof.
  destruct (detect_changes_contract default_config Sample.md5 (Sample.steady Sample.page)
              (base_url default_config) Sample.world (Sample.ok_response Sample.page)
              (add_events [Sent (WebsiteMonitor.get_request default_config
                                   (base_url default_config))] Sample.world))
    as (changed & w2 & Hrun & Hiff & Hsave & _).
  - vm_compute. reflexivity.
  - discriminate.
  - reflexivity.
  - exists changed, w2. split; [exact Hrun|]. split; [exact Hsave|].
    apply Hiff. discriminate.
Defined.

(** C1, as stated, fails when the cache file cannot be written: the change
    is reported, nothing is stored, and the next call on the same page
    reports a change again. *)
Lemma detect_changes_without_persisting :
  ∃ w1 w2,
    WebsiteMonitor.detect_changes default_config Sample.md5 (Sample.steady Sample.page)
      (base_url default_config) Sample.read_only_cache = (Ok true, w1) ∧
    cache w1 = Missing ∧
    WebsiteMonitor.detect_changes default_config Sample.md5 (Sample.steady Sample.page)
      (base_url default_config) w1 = (Ok true, w2) ∧
    cache w2 = Missing.
Proof.
  eexists _, _. split; [vm_compute; reflexivity|].
  split; [reflexivity|]. split; [vm_compute; reflexivity|]. reflexivity.
Qed.

Section ListingFacts.

Import WebsiteMonitor.

Variable cfg : Config.
Variable hl : HtmlLib.
Variable srv : server.
Variable u : string.

(** A fetch that ends without a response lists nothing. *)
Lemma get_zip_files_unavailable w w1 :
  _make_request cfg srv u w = (Ok None, w1) →
  get_zip_files cfg hl srv u w = (Ok [], w1).
Proof.
  intros Hreq. unfold get_zip_files, try_except, bind. rewrite Hreq. reflexivity.
Qed.

End ListingFacts.



(** ** The processing chain *)

Section ChainFacts.

Import Chain.

Variable cfg : Config.
Variable procs : list Processor.

Lemma invoke_calls p level idx file_path out w :
  calls (invoke p level idx file_path out w).2 = calls w ++ [(level, idx, file_path)].
Proof. unfold invoke. destruct (process p file_path out (fs w)). reflexivity. Qed.

Lemma at_level_above level (cs : list (nat * nat * string)) :
  Forall (fun c => level < c.1.1) cs → at_level level cs = [].
Proof.
  induction 1 as [|c cs Hc _ IH]; [reflexivity|].
  unfold at_level in *. rewrite filter_cons_False by lia. exact IH.
Qed.

Lemma feed_back_calls rec (P : nat * nat * string → Prop) :
  (∀ f w, ∃ new, calls (rec f w).2 = calls w ++ new ∧ Forall P new) →
  ∀ extracted processed w,
    ∃ new, calls (feed_back rec extracted processed w).2 = calls w ++ new ∧ Forall P new.
Proof.
  intros Hrec. induction extracted as [|f rest IH]; intros processed w.
  - exists []. rewrite app_nil_r. split; [reflexivity|constructor].
  - cbn [feed_back]. destruct (Hrec f w) as (new1 & E1 & P1).
    destruct (rec f w) as [[sub|e] w1]; cbn [snd] in E1.
    + destruct (IH (processed ++ sub) w1) as (new2 & E2 & P2).
      exists (new1 ++ new2). rewrite E2, E1, app_assoc. split; [reflexivity|].
      apply Forall_app. split; assumption.
    + exists new1. split; assumption.
Qed.

(** One pass over the registry calls, at its own level, every processor
    that accepts the file, in registry order. *)
Lemma chain_loop_calls rec level file_path out :
  (∀ f w, ∃ new, calls (rec f w).2 = calls w ++ new ∧ Forall (fun c => level < c.1.1) new) →
  ∀ ps idx processed w,
    ∃ new,
      calls (chain_loop rec ps level idx file_path out processed w).2 = calls w ++ new ∧
      Forall (fun c => level <= c.1.1) new ∧
      at_level level new = (fun i => (level, i, file_path)) <$> matching ps idx file_path.
Proof.
  intros Hrec. induction ps as [|p ps IH]; intros idx processed w.
  - exists []. rewrite app_nil_r. repeat split; constructor.
  - cbn [chain_loop matching]. destruct (can_process p file_path).
    + pose proof (invoke_calls p level idx file_path out w) as Ei.
      destruct (invoke p level idx file_path out w) as [[results|e] w1]; cbn [snd] in Ei.
      * destruct (is_ZipProcessor p).
        -- destruct (feed_back_calls rec _ Hrec results (processed ++ results) w1)
             as (newf & Ef & Pf).
           destruct (feed_back rec results (processed ++ results) w1) as [processed2 w2].
           cbn [snd] in Ef.
           destruct (IH (S idx) processed2 w2) as (new & E & Pn & Hn).
           exists ([(level, idx, file_path)] ++ newf ++ new).
           rewrite E, Ef, Ei, <- !app_assoc. split; [reflexivity|]. split.
           ++ apply Forall_app. split; [repeat constructor|].
              apply Forall_app. split; [|exact Pn].
              eapply Forall_impl; [exact Pf|]. intros c Hc. simpl in Hc. lia.
           ++ unfold at_level in *. rewrite !filter_app, Hn.
              fold (at_level level newf). rewrite (at_level_above level newf Pf).
              rewrite filter_cons_True by reflexivity. reflexivity.
        -- destruct (IH (S idx) (processed ++ results) w1) as (new & E & Pn & Hn).
           exists ([(level, idx, file_path)] ++ new).
           rewrite E, Ei, <- app_assoc. split; [reflexivity|]. split.
           ++ apply Forall_app. split; [repeat constructor|exact Pn].
           ++ unfold at_level in *. rewrite filter_app, Hn.
              rewrite filter_cons_True by reflexivity. reflexivity.
      * destruct (IH (S idx) processed w1) as (new & E & Pn & Hn).
        exists ([(level, idx, file_path)] ++ new).
        rewrite E, Ei, <- app_assoc. split; [reflexivity|]. split.
        -- apply Forall_app. split; [repeat constructor|exact Pn].
        -- unfold at_level in *. rewrite filter_app, Hn.
           rewrite filter_cons_True by reflexivity. reflexivity.
    + apply IH.
Qed.

Lemma process_single_file_calls depth : ∀ level file_path w,
  ∃ new,
    calls (_process_single_file depth level cfg procs file_path w).2 = calls w ++ new ∧
    Forall (fun c => level <= c.1.1) new.
Proof.
  induction depth as [|d IH]; intros level file_path w.
  - exists []. rewrite app_nil_r. split; [reflexivity|constructor].
  - cbn [_process_single_file].
    destruct (chain_loop_calls (_process_single_file d (S level) cfg procs) level file_path
                (output_dir cfg)) with (ps := procs) (idx := 0) (processed := @nil string) (w := w)
      as (new & E & Pn & _).
    { intros f v. destruct (IH (S level) f v) as (new & E & Pn). exists new.
      split; [exact E|]. eapply Forall_impl; [exact Pn|]. intros c Hc. simpl in Hc. lia. }
    destruct (chain_loop _ _ _ _ _ _ _ _) as [processed w']. exists new. split; assumption.
Qed.

(** A file cannot carry both suffixes. *)
Lemma registry_disjoint file_path :
  ZipProcessor.can_process file_path = true → CSVToJSONConverter.can_process file_path = false.
Proof.
  unfold ZipProcessor.can_process, CSVToJSONConverter.can_process. intros Hz.
  apply String.eqb_eq in Hz. rewrite Hz. reflexivity.
Qed.

End ChainFacts.

(** C3, amended: a pass over the registry returns and calls [process], at
    its own nesting level, for every processor that accepts the file, in
    registry order; nothing stops it at the first.  For the registry that
    [create_monitor] builds, whose two suffix predicates exclude each other,
    that is at most one processor per file and pass. *)
Theorem chain_invokes_every_matching_processor (cfg : Config) (procs : list Processor) :
  (∀ depth file_path w,
     ∃ processed w' new,
       Chain._process_single_file (S depth) 0 cfg procs file_path w = (Ok processed, w') ∧
       Chain.calls w' = Chain.calls w ++ new ∧
       Chain.at_level 0 new = (fun i => (0, i, file_path)) <$> Chain.matching procs 0 file_path) ∧
  (∀ zl lib file_path,
     (length (Chain.matching (Chain.file_processors zl lib) 0 file_path) <= 1)%nat).
Proof.
  split.
  - intros depth file_path w. cbn [Chain._process_single_file].
    destruct (chain_loop_calls (Chain._process_single_file depth 1 cfg procs) 0 file_path
                (output_dir cfg)) with (ps := procs) (idx := 0) (processed := @nil string) (w := w)
      as (new & E & _ & Hn).
    { intros f v. destruct (process_single_file_calls cfg procs depth 1 f v) as (new & E & Pn).
      exists new. split; [exact E|]. eapply Forall_impl; [exact Pn|].
      intros c Hc. simpl in Hc. lia. }
    destruct (Chain.chain_loop _ _ _ _ _ _ _ _) as [processed w'].
    exists processed, w', new. auto.
  - intros zl lib file_path. unfold Chain.file_processors. cbn [Chain.matching can_process
      ZipProcessor.processor CSVToJSONConverter.processor].
    destruct (ZipProcessor.can_process file_path) eqn:Hz.
    + rewrite (registry_disjoint file_path Hz). simpl. lia.
    + destruct (CSVToJSONConverter.can_process file_path); simpl; lia.
Qed.

(** C3, as stated, fails for a registry in which two processors accept the
    same file: both are called in one pass, and the file is converted
    twice. *)
Lemma two_matching_processors_both_run :
  ∃ w',
    Chain._process_single_file 1000 0 default_config Sample.two_converters
      "downloads/catch.csv" (Sample.chain_disk {["downloads/catch.csv" := Sample.table]})
    = (Ok ["json_output/catch.json"; "json_output/catch.json"], w') ∧
    Chain.calls w' = [(0, 0, "downloads/catch.csv"); (0, 1, "downloads/catch.csv")] ∧
    Chain.matching Sample.two_converters 0 "downloads/catch.csv" = [0; 1].
Proof.
  eexists. split; [vm_compute; reflexivity|]. split; vm_compute; reflexivity.
Qed.

(** An archive holding an archive holding a table: both levels are
    unpacked and one record file comes out. *)
Example nested_archive :
  ∃ w',
    Chain._process_single_file 1000 0 default_config (Chain.file_processors Sample.zip Sample.csv)
      "downloads/outer.zip"
      (Sample.chain_disk
         {["downloads/outer.zip" := String.append "PK|inner.zip|PK|catch.csv|" Sample.table]})
    = (Ok ["json_output/outer/inner.zip"; "json_output/inner/catch.csv";
           "json_output/catch.json"], w') ∧
    Chain.calls w' = [(0, 0, "downloads/outer.zip"); (1, 0, "json_output/outer/inner.zip");
                      (2, 1, "json_output/inner/catch.csv")].
Proof.
  eexists. split; vm_compute; reflexivity.
Qed.

(** ** Further properties: cells, names and rows *)

Section StripFacts.

Import PyStr.

Lemma lstrip_app_nonspace l k c :
  is_space c = false → lstrip (l ++ c :: k) = lstrip l ++ c :: k.
Proof.
  intros Hc. induction l as [|a l IH]; simpl.
  - rewrite Hc. reflexivity.
  - destruct (is_space a); [exact IH|reflexivity].
Qed.

Lemma rstrip_cons_nonspace c y : is_space c = false → rstrip (c :: y) = c :: rstrip y.
Proof.
  intros Hc. unfold rstrip. cbn [rev].
  rewrite (lstrip_app_nonspace (rev y) [] c Hc), rev_app_distr. reflexivity.
Qed.

Lemma lstrip_idem l : lstrip (lstrip l) = lstrip l.
Proof.
  destruct (lstrip l) as [|c l'] eqn:E; [reflexivity|].
  apply lstrip_head in E. simpl. rewrite E. reflexivity.
Qed.

Lemma rstrip_idem l : rstrip (rstrip l) = rstrip l.
Proof. unfold rstrip. rewrite rev_involutive, lstrip_idem. reflexivity. Qed.

Lemma lstrip_rstrip_lstrip l : lstrip (rstrip (lstrip l)) = rstrip (lstrip l).
Proof.
  destruct (lstrip l) as [|c l'] eqn:E; [reflexivity|].
  apply lstrip_head in E. rewrite (rstrip_cons_nonspace c l' E). simpl. rewrite E. reflexivity.
Qed.

Lemma chars_of_chars l : chars (of_chars l) = l.
Proof. apply list_ascii_of_string_of_list_ascii. Qed.

(** Stripping twice is stripping once. *)
Lemma strip_idem s : strip (strip s) = strip s.
Proof.
  unfold strip. rewrite chars_of_chars, lstrip_rstrip_lstrip, rstrip_idem. reflexivity.
Qed.

End StripFacts.

Section CellFacts.

Import PyStr CSVToJSONConverter.

Lemma convert_value_not_none v : _convert_value v ≠ PNone.
Proof.
  unfold _convert_value. destruct (int v); [discriminate|].
  destruct (float v); [discriminate|].
  destruct (mem (lower v) bool_tokens); discriminate.
Qed.

Lemma convert_value_text v t : _convert_value v = PStr t → t = v.
Proof.
  unfold _convert_value. destruct (int v); [discriminate|].
  destruct (float v); [discriminate|].
  destruct (mem (lower v) bool_tokens); [discriminate|]. congruence.
Qed.

Lemma lower_digit_inv v (d : ascii) :
  lower_char d = d → lower v = String d "" →
  (∀ c, lower_char c = d → c = d) → v = String d "".
Proof.
  intros _ H Hc. destruct v as [|c [|c' v']]; try discriminate.
  unfold lower in H. simpl in H. injection H as H. rewrite (Hc c H). reflexivity.
Qed.

Lemma lower_one_inv c : lower_char c = "1"%char → c = "1"%char.
Proof. destruct c as [[] [] [] [] [] [] [] []]; vm_compute; intros H; congruence. Qed.

Lemma lower_zero_inv c : lower_char c = "0"%char → c = "0"%char.
Proof. destruct c as [[] [] [] [] [] [] [] []]; vm_compute; intros H; congruence. Qed.

Lemma dict_set_elem_of {K V} `{EqDecision K} (k k' : K) (v v' : V) d :
  (k, v) ∈ dict_set k' v' d → (k = k' ∧ v = v') ∨ (k, v) ∈ d.
Proof.
  induction d as [|[k0 v0] d IH]; simpl.
  - intros H. apply list_elem_of_singleton in H. injection H as -> ->. left. auto.
  - destruct (decide (k' = k0)) as [->|Hne]; intros H; apply elem_of_cons in H as [H|H].
    + injection H as -> ->. left. auto.
    + right. right. exact H.
    + right. rewrite H. left.
    + destruct (IH H) as [?|?]; [left; assumption|right; right; assumption].
Qed.

Lemma dict_set_keys_NoDup {K V} `{EqDecision K} (k : K) (v : V) d :
  NoDup d.*1 → NoDup (dict_set k v d).*1.
Proof.
  induction d as [|[k0 v0] d IH]; simpl; intros Hnd.
  - repeat constructor. set_solver.
  - apply NoDup_cons in Hnd as [Hk0 Hnd].
    destruct (decide (k = k0)) as [->|Hne]; simpl.
    + apply NoDup_cons. auto.
    + apply NoDup_cons. split; [|auto].
      intros Hin. apply list_elem_of_fmap in Hin as ([k1 v1] & -> & Hin).
      apply dict_set_elem_of in Hin as [[? ?]|Hin]; simpl in *; [congruence|].
      apply Hk0. apply list_elem_of_fmap. exists (k1, v1). auto.
Qed.

Lemma clean_items_keys items : ∀ cleaned out,
  clean_items items cleaned = Ok out →
  (NoDup cleaned.*1 → NoDup out.*1) ∧
  ∀ k v, (k, v) ∈ out → (k, v) ∈ cleaned ∨ ∃ key value, (key, value) ∈ items ∧ k = clean_key key.
Proof.
  induction items as [|[key value] items IH]; intros cleaned out H; simpl in H.
  - injection H as <-. split; [auto|]. intros k v Hin. left. exact Hin.
  - destruct (clean_value value) as [v0|e]; [|discriminate].
    destruct (IH _ _ H) as [Hnd Hkeys]. split.
    + intros Hc. apply Hnd. apply dict_set_keys_NoDup. exact Hc.
    + intros k v Hin. destruct (Hkeys k v Hin) as [Hd | (key' & value' & Hi & ->)].
      * apply dict_set_elem_of in Hd as [[-> _]|Hd]; [|left; exact Hd].
        right. exists key, value. split; [left|reflexivity].
      * right. exists key', value'. split; [right; exact Hi|reflexivity].
Qed.

Lemma last_write_last k pre key value post :
  clean_key key = k →
  (∀ key' value', (key', value') ∈ post → clean_key key' ≠ k) →
  last_write k (pre ++ (key, value) :: post) = Some value.
Proof.
  intros Hk Hpost.
  assert (Hnone : last_write k post = None).
  { induction post as [|[key' value'] post IH]; [reflexivity|]. simpl.
    rewrite IH by (intros a b Hab; apply (Hpost a b); right; exact Hab).
    destruct (decide (clean_key key' = k)) as [E|_]; [|reflexivity].
    exfalso. apply (Hpost key' value'); [left|exact E]. }
  induction pre as [|[key0 value0] pre IH]; simpl.
  - rewrite Hnone. destruct (decide (clean_key key = k)); [reflexivity|contradiction].
  - rewrite IH. reflexivity.
Qed.

(** A row is cleaned exactly when none of its values is a list. *)
Lemma clean_items_ok_iff items : ∀ cleaned,
  is_ok (clean_items items cleaned) = true ↔ Forall (fun kv => ∀ l, kv.2 ≠ CList l) items.
Proof.
  induction items as [|[key value] items IH]; intros cleaned; simpl.
  - split; [constructor|reflexivity].
  - destruct value as [|s|l]; simpl.
    + rewrite IH. split; [intros H; constructor; [discriminate|exact H]|].
      intros H. apply Forall_cons in H as [_ H]. exact H.
    + destruct (strip s =? ""); rewrite IH;
        (split; [intros H; constructor; [discriminate|exact H]|]);
        intros H; apply Forall_cons in H as [_ H]; exact H.
    + split; [discriminate|]. intros H. apply Forall_cons in H as [H _].
      exfalso. exact (H l eq_refl).
Qed.

Lemma dict_set_values {K V} `{EqDecision K} (P : K * V → Prop) (k : K) (v : V) d :
  P (k, v) → Forall P d → Forall P (dict_set k v d).
Proof.
  intros Hkv. induction 1 as [|[k0 v0] d H0 Hd IH]; simpl; [repeat constructor; exact Hkv|].
  destruct (decide (k = k0)); constructor; assumption.
Qed.

Lemma dict_set_elem_of_same {K V} `{EqDecision K} (k : K) (v : V) d : (k, v) ∈ dict_set k v d.
Proof.
  induction d as [|[k0 v0] d IH]; simpl; [left|].
  destruct (decide (k = k0)); [left|right; exact IH].
Qed.

Lemma zip_dict_values fieldnames : ∀ row d,
  Forall (fun kv : option string * cell => ∀ l, kv.2 ≠ CList l) d →
  Forall (fun kv => ∀ l, kv.2 ≠ CList l) (zip_dict fieldnames row d).
Proof.
  induction fieldnames as [|k ks IH]; intros row d Hd; destruct row as [|v vs]; simpl; auto.
  apply IH. apply dict_set_values; [discriminate|exact Hd].
Qed.

Lemma fill_restval_values keys : ∀ d,
  Forall (fun kv : option string * cell => ∀ l, kv.2 ≠ CList l) d →
  Forall (fun kv => ∀ l, kv.2 ≠ CList l) (fill_restval keys d).
Proof.
  induction keys as [|k ks IH]; intros d Hd; simpl; auto.
  apply IH. apply dict_set_values; [discriminate|exact Hd].
Qed.

End CellFacts.

(** X1: every name of a cleaned record is free of surrounding whitespace
    (the placeholder included), no two entries of the record share a name,
    and a cell kept as text is kept stripped and is never empty. *)
Theorem cleaned_names_and_text_are_stripped :
  (∀ row out, CSVToJSONConverter._clean_row row = Ok out →
     NoDup out.*1 ∧ ∀ k v, (k, v) ∈ out → PyStr.strip k = k) ∧
  (∀ s t, CSVToJSONConverter.clean_value (CStr s) = Ok (PStr t) →
     t = PyStr.strip s ∧ PyStr.strip t = t ∧ t ≠ "").
Proof.
  split.
  - intros row out H. destruct (clean_items_keys row [] out H) as [Hnd Hkeys].
    split; [apply Hnd; constructor|].
    intros k v Hin. destruct (Hkeys k v Hin) as [Hnil | (key & value & _ & ->)].
    + inversion Hnil.
    + destruct key as [[|c k']|]; [reflexivity| |reflexivity].
      apply strip_idem.
  - intros s t H. unfold CSVToJSONConverter.clean_value in H.
    destruct (PyStr.strip s =? "") eqn:E; [discriminate|].
    injection H as H. apply convert_value_text in H. subst t.
    split; [reflexivity|]. split; [apply strip_idem|].
    intros Hs. rewrite Hs in E. discriminate.
Qed.

(** X2: a cell becomes a boolean exactly when, lower-cased, it is one of
    the words true, yes (giving true) or false, no (giving false); the
    tokens 1 and 0 of the code's list never give a boolean. *)
Theorem convert_value_boolean_iff (v : string) (b : bool) :
  CSVToJSONConverter._convert_value v = PBool b ↔
  (b = true ∧ In (PyStr.lower v) ["true"; "yes"]) ∨
  (b = false ∧ In (PyStr.lower v) ["false"; "no"]).
Proof.
  split.
  - unfold CSVToJSONConverter._convert_value.
    destruct (PyStr.int v) eqn:Ei; [discriminate|].
    destruct (PyStr.float v) eqn:Ef; [discriminate|].
    unfold PyStr.mem, CSVToJSONConverter.bool_tokens, CSVToJSONConverter.true_tokens.
    cbn [existsb].
    destruct (PyStr.lower v =? "true") eqn:E1;
      [apply String.eqb_eq in E1; intros H; injection H as <-; left; simpl; auto|].
    destruct (PyStr.lower v =? "false") eqn:E2;
      [apply String.eqb_eq in E2; rewrite E2; intros H; injection H as <-; right; simpl; auto|].
    destruct (PyStr.lower v =? "yes") eqn:E3;
      [apply String.eqb_eq in E3; intros H; injection H as <-; left; simpl; auto|].
    destruct (PyStr.lower v =? "no") eqn:E4;
      [apply String.eqb_eq in E4; rewrite E4; intros H; injection H as <-; right; simpl; auto|].
    destruct (PyStr.lower v =? "1") eqn:E5.
    { apply String.eqb_eq in E5.
      apply (lower_digit_inv v "1"%char eq_refl) in E5; [|exact lower_one_inv].
      subst v. discriminate Ei. }
    destruct (PyStr.lower v =? "0") eqn:E6.
    { apply String.eqb_eq in E6.
      apply (lower_digit_inv v "0"%char eq_refl) in E6; [|exact lower_zero_inv].
      subst v. discriminate Ei. }
    discriminate.
  - intros [[-> H] | [-> H]]; [apply convert_true_tokens|apply convert_false_tokens]; exact H.
Qed.

(** X3: a cell becomes null exactly when it is absent or holds nothing
    but whitespace; no text that survives stripping is turned into null. *)
Theorem cell_null_iff_blank (s : string) :
  CSVToJSONConverter.clean_value (CStr s) = Ok PNone ↔
  forallb PyStr.is_space (PyStr.chars s) = true.
Proof.
  unfold CSVToJSONConverter.clean_value. rewrite <- strip_empty_iff.
  destruct (PyStr.strip s =? "") eqn:E.
  - apply String.eqb_eq in E. split; auto.
  - split.
    + intros H. injection H as H. exfalso. exact (convert_value_not_none _ H).
    + intros H. rewrite H in E. discriminate.
Qed.

(** X4: a row is cleaned exactly when none of its values is a list; so a
    line read under a header is cleaned exactly when it has no more fields
    than the header, and one surplus field makes [_clean_row] raise. *)
Theorem clean_row_ok_iff_no_surplus :
  (∀ row, is_ok (CSVToJSONConverter._clean_row row) = true ↔
          Forall (fun kv => ∀ l, kv.2 ≠ CList l) row) ∧
  (∀ fieldnames row,
     is_ok (CSVToJSONConverter._clean_row (CSVToJSONConverter.dict_row fieldnames row)) = true ↔
     (length row <= length fieldnames)%nat).
Proof.
  split; [intros row; apply clean_items_ok_iff|].
  intros fieldnames row. unfold CSVToJSONConverter._clean_row.
  rewrite clean_items_ok_iff. unfold CSVToJSONConverter.dict_row.
  destruct (length fieldnames <? length row)%nat eqn:E1.
  - apply Nat.ltb_lt in E1. split; [|lia].
    intros H. exfalso.
    pose proof (dict_set_elem_of_same (None : option string)
                  (CList (drop (length fieldnames) row))
                  (CSVToJSONConverter.zip_dict fieldnames row [])) as Hin.
    rewrite Forall_forall in H. exact (H _ Hin _ eq_refl).
  - apply Nat.ltb_ge in E1. split; [intros _; exact E1|]. intros _.
    destruct (length row <? length fieldnames)%nat.
    + apply fill_restval_values, zip_dict_values. constructor.
    + apply zip_dict_values. constructor.
Qed.

(** X5: last write wins.  When several items of a row clean to the same
    name, the cleaned record holds for that name the value of the last of
    them. *)
Theorem cleaned_row_last_write_wins
    (pre post : list (option string * cell)) (key : option string) (value : cell)
    (out : list (string * pyval)) :
  CSVToJSONConverter._clean_row (pre ++ (key, value) :: post) = Ok out →
  (∀ key' value', (key', value') ∈ post →
                  CSVToJSONConverter.clean_key key' ≠ CSVToJSONConverter.clean_key key) →
  ∃ v, CSVToJSONConverter.clean_value value = Ok v ∧
       dict_get (CSVToJSONConverter.clean_key key) out = Some v.
Proof.
  intros H Hpost.
  rewrite (clean_row_last_write _ _ (CSVToJSONConverter.clean_key key) H).
  rewrite (last_write_last _ pre key value post eq_refl Hpost).
  assert (Hok : is_ok (CSVToJSONConverter._clean_row (pre ++ (key, value) :: post)) = true)
    by (rewrite H; reflexivity).
  apply clean_items_ok_iff in Hok. apply Forall_app in Hok as [_ Hok].
  apply Forall_cons in Hok as [Hv _]. simpl in Hv.
  destruct value as [|s|l]; simpl; [eauto| |exfalso; exact (Hv l eq_refl)].
  destruct (PyStr.strip s =? ""); eauto.
Qed.

Lemma cleaned_row_last_write_wins_witness :
  ∃ v, CSVToJSONConverter.clean_value (CStr "2") = Ok v ∧
       dict_get (CSVToJSONConverter.clean_key (Some " a")) [("a", PInt 2); ("b", PNone)] = Some v.
Proof.
  apply (cleaned_row_last_write_wins [(Some "a", CStr "1"); (Some "b", CStr "")] []
           (Some " a") (CStr "2")).
  - vm_compute. reflexivity.
  - intros key' value' H. inversion H.
Defined.

(** ** Further properties: reading a table *)

(** X6: what a successful read is.  [_read_csv] returns records exactly
    when the first attempt that does not raise yields at least one record,
    and then returns those; it never returns an empty list, and a file that
    cannot be opened is always refused. *)
Theorem read_csv_success_characterised (lib : CSVToJSONConverter.Lib) (content : option string) :
  (∀ data,
     CSVToJSONConverter._read_csv lib content = Ok data ↔
     data ≠ [] ∧
     ∃ pre encoding post,
       CSVToJSONConverter.encodings = pre ++ encoding :: post ∧
       Forall (CSVToJSONConverter.attempt_fails lib content) pre ∧
       CSVToJSONConverter.read_with lib content encoding = Ok data) ∧
  CSVToJSONConverter._read_csv lib content ≠ Ok [] ∧
  CSVToJSONConverter._read_csv lib None = Raise CSVToJSONConverter.could_not_read.
Proof.
  split; [|split].
  - intros data. split.
    + apply read_csv_ok_inv.
    + intros (Hne & pre & encoding & post & Henc & Hpre & Hok).
      exact (read_csv_first_ok lib content pre encoding post data Henc Hpre Hok Hne).
  - intros H. apply read_csv_ok_inv in H as [H _]. congruence.
  - reflexivity.
Qed.

(** X7: the codecs are tried in the order utf-8, latin-1, cp1252, and an
    attempt that raises, for whatever reason, hands over to the next: records
    read as utf-8 are returned whatever the other codecs would give; when the
    utf-8 attempt raises, records read as latin-1 are returned; when both
    raise, records read as cp1252 are. *)
Theorem read_csv_prefers_earlier_encodings
    (lib : CSVToJSONConverter.Lib) (content : option string) (data : list (list (string * pyval))) :
  data ≠ [] →
  (CSVToJSONConverter.read_with lib content "utf-8" = Ok data →
   CSVToJSONConverter._read_csv lib content = Ok data) ∧
  (CSVToJSONConverter.attempt_fails lib content "utf-8" →
   CSVToJSONConverter.read_with lib content "latin-1" = Ok data →
   CSVToJSONConverter._read_csv lib content = Ok data) ∧
  (CSVToJSONConverter.attempt_fails lib content "utf-8" →
   CSVToJSONConverter.attempt_fails lib content "latin-1" →
   CSVToJSONConverter.read_with lib content "cp1252" = Ok data →
   CSVToJSONConverter._read_csv lib content = Ok data).
Proof.
  intros Hne. split; [|split].
  - intros H. apply (read_csv_first_ok lib content [] "utf-8" ["latin-1"; "cp1252"]); auto.
  - intros H1 H. apply (read_csv_first_ok lib content ["utf-8"] "latin-1" ["cp1252"]); auto.
  - intros H1 H2 H. apply (read_csv_first_ok lib content ["utf-8"; "latin-1"] "cp1252" []); auto.
Qed.

Lemma read_csv_prefers_earlier_encodings_witness :
  CSVToJSONConverter.attempt_fails Sample.csv
    (Some (String.concat Sample.LF ["port,n"; String.append "Bel" (String "233"%char "m,3"); ""]))
    "utf-8" ∧
  CSVToJSONConverter._read_csv Sample.csv
    (Some (String.concat Sample.LF ["port,n"; String.append "Bel" (String "233"%char "m,3"); ""]))
  = Ok [[("port", PStr (String.append "Bel" (String "233"%char "m"))); ("n", PInt 3)]].
Proof.
  assert (H1 : CSVToJSONConverter.attempt_fails Sample.csv
    (Some (String.concat Sample.LF ["port,n"; String.append "Bel" (String "233"%char "m,3"); ""]))
    "utf-8") by (vm_compute; reflexivity).
  split; [exact H1|].
  refine (proj1 (proj2 (read_csv_prefers_earlier_encodings Sample.csv _ _ _)) H1 _).
  - discriminate.
  - vm_compute. reflexivity.
Defined.

(** ** Further properties: fetching, listing and probing *)

Section BackoffFacts.

Import WebsiteMonitor.

Variable cfg : Config.
Variable srv : server.
Variable u : string.

Local Abbreviation rq := (get_request cfg u).

Lemma slept_total_app t1 t2 : slept_total (t1 ++ t2) = slept_total t1 + slept_total t2.
Proof.
  induction t1 as [|[r|n] t1 IH]; simpl; [reflexivity|exact IH|rewrite IH; lia].
Qed.

Lemma slept_total_retries n : ∀ first,
  slept_total (retries rq first n) + 2 ^ first = 2 ^ (first + n).
Proof.
  induction n as [|n IH]; intros first.
  - simpl. rewrite Nat.add_0_r. reflexivity.
  - rewrite retries_S, slept_total_app. cbn [slept_total].
    pose proof (IH (S first)) as H.
    replace (first + S n) with (S first + n) by lia.
    rewrite <- H. cbn [Nat.pow]. lia.
Qed.

(** An exception of another class at attempt [k] leaves the loop at once. *)
Lemma request_loop_fatal k : ∀ n attempt w e,
  k < n →
  (∀ j, j < k → classify (srv (requests_sent w + j) rq) = Retry) →
  classify (srv (requests_sent w + k) rq) = Fatal e →
  request_loop cfg srv u attempt n w
  = (Raise e, add_events (retries rq attempt k ++ [Sent rq]) w).
Proof.
  induction k as [|k IH]; intros n attempt w e Hk Hfail Hbad;
    (destruct n as [|n]; [lia|]); rewrite request_loop_step.
  - rewrite Nat.add_0_r in Hbad. rewrite Hbad. reflexivity.
  - pose proof (Hfail 0 ltac:(lia)) as H0. rewrite Nat.add_0_r in H0. rewrite H0.
    rewrite (IH n (S attempt) _ e).
    + rewrite add_events_app. reflexivity.
    + lia.
    + intros j Hj. rewrite requests_sent_retry.
      replace (S (requests_sent w) + j) with (requests_sent w + S j) by lia.
      apply Hfail. lia.
    + rewrite requests_sent_retry.
      replace (S (requests_sent w) + k) with (requests_sent w + S k) by lia.
      exact Hbad.
Qed.

End BackoffFacts.

Section ListingMore.

Import WebsiteMonitor.

Variable cfg : Config.
Variable hl : HtmlLib.
Variable srv : server.
Variable u : string.

Lemma get_zip_files_raised w e w1 :
  _make_request cfg srv u w = (Raise e, w1) →
  get_zip_files cfg hl srv u w = (Ok [], w1).
Proof.
  intros Hreq. unfold get_zip_files, try_except, bind. rewrite Hreq. reflexivity.
Qed.

(** What the probe returns keeps the URL and the file name. *)
Lemma enrich_keeps file_info w probed w' :
  _enrich_file_info cfg srv file_info w = (Ok probed, w') →
  url probed = url file_info ∧ filename probed = filename file_info ∧
  w' = add_events [Sent (head_request cfg (url file_info))] w.
Proof.
  rewrite enrich_eq. intros H. injection H as <- <-.
  destruct (srv _ _) as [r|e]; [|auto].
  destruct (broken r); [auto|]. destruct (content_length_int r); auto.
Qed.

(** The probes of a listing without malformed link: one descriptor and one
    HEAD request per link, in the order of the links. *)
Lemma enrich_all_ok hrefs : ∀ w,
  (∀ h, h ∈ hrefs → is_ok (link_target hl u h) = true) →
  ∃ files,
    enrich_all cfg hl srv u hrefs w
    = (Ok files, add_events ((fun fi => Sent (head_request cfg (url fi))) <$> files) w) ∧
    Forall2 (fun h fi => link_target hl u h = Ok (url fi, filename fi)) hrefs files.
Proof.
  induction hrefs as [|h rest IH]; intros w Hok.
  - exists []. cbn [enrich_all fmap list_fmap]. unfold ret. rewrite add_events_nil.
    split; [reflexivity|constructor].
  - pose proof (Hok h ltac:(left)) as Hh. unfold link_target in Hh.
    cbn [enrich_all]. unfold bind at 1, lift_result.
    destruct (urljoin hl u h) as [file_url|e] eqn:Ej; [|discriminate].
    unfold bind at 1. destruct (url_path hl file_url) as [path|e] eqn:Ep0; [|discriminate].
    unfold bind at 1.
    destruct (_enrich_file_info cfg srv _ w) as [[probed|e] w1] eqn:Ep;
      [|rewrite enrich_eq in Ep; discriminate].
    apply enrich_keeps in Ep as (Eu & En & ->). cbn [url filename] in Eu, En |- *.
    destruct (IH (add_events [Sent (head_request cfg file_url)] w)) as (files & Hrun & Hall).
    { intros h' Hh'. apply Hok. right. exact Hh'. }
    unfold bind. rewrite Hrun. unfold ret. exists (probed :: files).
    cbn [fmap list_fmap]. rewrite Eu, add_events_app. split; [reflexivity|].
    constructor; [|exact Hall]. unfold link_target. rewrite Ej, Ep0, Eu, En. reflexivity.
Qed.

(** A malformed link ends the loop with its exception, the links before it
    having been probed. *)
Lemma enrich_all_bad before h after : ∀ w,
  (∀ h', h' ∈ before → is_ok (link_target hl u h') = true) →
  is_ok (link_target hl u h) = false →
  ∃ e probed,
    enrich_all cfg hl srv u (before ++ h :: after) w
    = (Raise e, add_events ((fun fi => Sent (head_request cfg (url fi))) <$> probed) w) ∧
    Forall2 (fun h' fi => link_target hl u h' = Ok (url fi, filename fi)) before probed.
Proof.
  induction before as [|h0 before IH]; intros w Hok Hbad.
  - unfold link_target in Hbad. cbn [app enrich_all]. unfold bind at 1, lift_result.
    destruct (urljoin hl u h) as [file_url|e].
    + unfold bind at 1. destruct (url_path hl file_url) as [path|e]; [discriminate|].
      exists e, []. cbn [fmap list_fmap]. rewrite add_events_nil. split; [reflexivity|constructor].
    + exists e, []. cbn [fmap list_fmap]. rewrite add_events_nil. split; [reflexivity|constructor].
  - pose proof (Hok h0 ltac:(left)) as Hh. unfold link_target in Hh.
    cbn [app enrich_all]. unfold bind at 1, lift_result.
    destruct (urljoin hl u h0) as [file_url|e] eqn:Ej; [|discriminate].
    unfold bind at 1. destruct (url_path hl file_url) as [path|e] eqn:Ep0; [|discriminate].
    unfold bind at 1.
    destruct (_enrich_file_info cfg srv _ w) as [[probed|e] w1] eqn:Ep;
      [|rewrite enrich_eq in Ep; discriminate].
    apply enrich_keeps in Ep as (Eu & En & ->). cbn [url filename] in Eu, En |- *.
    destruct (IH (add_events [Sent (head_request cfg file_url)] w)) as (e & more & Hrun & Hall).
    { intros h' Hh'. apply Hok. right. exact Hh'. }
    { exact Hbad. }
    unfold bind. rewrite Hrun. exists e, (probed :: more).
    cbn [fmap list_fmap]. rewrite Eu, add_events_app. split; [reflexivity|].
    constructor; [|exact Hall]. unfold link_target. rewrite Ej, Ep0, Eu, En. reflexivity.
Qed.

(** Whatever the links, the loop only adds events to the world. *)
Lemma enrich_all_events hrefs : ∀ w,
  ∃ res evs, enrich_all cfg hl srv u hrefs w = (res, add_events evs w).
Proof.
  induction hrefs as [|h rest IH]; intros w.
  - exists (Ok []), []. rewrite add_events_nil. reflexivity.
  - cbn [enrich_all]. unfold bind at 1, lift_result.
    destruct (urljoin hl u h) as [file_url|e];
      [|exists (Raise e), []; rewrite add_events_nil; reflexivity].
    unfold bind at 1. destruct (url_path hl file_url) as [path|e];
      [|exists (Raise e), []; rewrite add_events_nil; reflexivity].
    unfold bind at 1. rewrite enrich_eq.
    destruct (IH (add_events [Sent (head_request cfg file_url)] w)) as (res & evs & Hrun).
    cbn [url]. unfold bind. rewrite Hrun, add_events_app.
    destruct res; eexists _, _; reflexivity.
Qed.

(** The listing is what the loop over the links gives, an exception of the
    loop being turned into the empty list. *)
Lemma get_zip_files_fetched w r w1 :
  _make_request cfg srv u w = (Ok (Some r), w1) →
  get_zip_files cfg hl srv u w
  = match enrich_all cfg hl srv u (zip_hrefs hl (content r)) w1 with
    | (Ok files, w') => (Ok files, w')
    | (Raise _, w') => (Ok [], w')
    end.
Proof.
  intros Hreq. unfold get_zip_files, try_except, bind. rewrite Hreq.
  destruct (enrich_all cfg hl srv u (zip_hrefs hl (content r)) w1) as [[files|e] w'];
    reflexivity.
Qed.

End ListingMore.

(** X8: when every attempt fails, the retrying fetch has sent
    [retry_attempts] requests and slept 2^retry_attempts - 1 seconds in all,
    the sleep after the last attempt included, before it returns [None]. *)
Theorem make_request_exhausted_cost (cfg : Config) (srv : server) (u : string) (w : World) :
  (∀ j, (j < retry_attempts cfg)%nat →
        classify (srv (requests_sent w + j) (WebsiteMonitor.get_request cfg u)) = Retry) →
  ∃ w', WebsiteMonitor._make_request cfg srv u w = (Ok None, w') ∧
        requests_sent w' = (requests_sent w + retry_attempts cfg)%nat ∧
        (slept_total (trace w') + 1 = slept_total (trace w) + 2 ^ retry_attempts cfg)%nat ∧
        (0 < retry_attempts cfg →
         ∃ t, trace w' = t ++ [Slept (2 ^ (retry_attempts cfg - 1))])%nat.
Proof.
  intros Hfail. eexists. split; [apply request_loop_exhausted; exact Hfail|].
  split; [rewrite requests_sent_add, length_sent_retries; reflexivity|]. split.
  - cbn [trace add_events set_trace]. rewrite slept_total_app.
    pose proof (slept_total_retries cfg u (retry_attempts cfg) 0) as H. simpl in H. lia.
  - intros Hpos. cbn [trace add_events set_trace].
    destruct (retry_attempts cfg) as [|n]; [lia|].
    replace (S n - 1)%nat with n by lia.
    unfold retries. replace (S n) with (n + 1)%nat by lia.
    rewrite seq_app, flat_map_app. cbn [seq flat_map]. rewrite app_nil_r.
    exists (trace w ++ flat_map (fun j => [Sent (WebsiteMonitor.get_request cfg u); Slept (2 ^ j)])
                         (seq 0 n)
            ++ [Sent (WebsiteMonitor.get_request cfg u)]).
    rewrite <- !app_assoc. reflexivity.
Qed.

Lemma make_request_exhausted_cost_witness :
  ∃ w', WebsiteMonitor._make_request default_config Cases.down "https://iattc.org" Sample.world
        = (Ok None, w') ∧
        requests_sent w' = 3 ∧ slept_total (trace w') = 7.
Proof.
  destruct (make_request_exhausted_cost default_config Cases.down "https://iattc.org" Sample.world)
    as (w' & H & Hn & Hs & _).
  - intros j _. reflexivity.
  - exists w'. split; [exact H|]. split; [exact Hn|]. simpl in Hs. lia.
Defined.

(** X9: an exception that is not a [RequestException] ends the retrying
    fetch at once: it is raised after that request, with no sleep and no
    further attempt; [detect_changes] turns it into false and
    [get_zip_files] into the empty list. *)
Theorem make_request_other_exception
    (cfg : Config) (srv : server) (u : string) (w : World) (k : nat) (e : exn) :
  (k < retry_attempts cfg)%nat →
  (∀ j, (j < k)%nat →
        classify (srv (requests_sent w + j) (WebsiteMonitor.get_request cfg u)) = Retry) →
  classify (srv (requests_sent w + k) (WebsiteMonitor.get_request cfg u)) = Fatal e →
  ∃ w', w' = add_events (retries (WebsiteMonitor.get_request cfg u) 0 k
                         ++ [Sent (WebsiteMonitor.get_request cfg u)]) w ∧
        WebsiteMonitor._make_request cfg srv u w = (Raise e, w') ∧
        (∀ md5, WebsiteMonitor.detect_changes cfg md5 srv u w = (Ok false, w')) ∧
        (∀ hl, WebsiteMonitor.get_zip_files cfg hl srv u w = (Ok [], w')).
Proof.
  intros Hk Hfail Hbad. eexists. split; [reflexivity|].
  pose proof (request_loop_fatal cfg srv u k (retry_attempts cfg) 0 w e Hk Hfail Hbad) as H.
  split; [exact H|]. split.
  - intros md5. rewrite (detect_changes_eq cfg md5 srv u w _ _ H). reflexivity.
  - intros hl. apply (get_zip_files_raised cfg hl srv u w e). exact H.
Qed.

Lemma make_request_other_exception_witness :
  ∃ w', WebsiteMonitor._make_request default_config Cases.crashing "https://iattc.org" Sample.world
        = (Raise OSError, w') ∧
        requests_sent w' = 2 ∧ slept_total (trace w') = 1.
Proof.
  destruct (make_request_other_exception default_config Cases.crashing "https://iattc.org"
              Sample.world 1 OSError) as (w' & -> & H & _).
  - simpl. lia.
  - intros j Hj. replace j with 0 by lia. reflexivity.
  - reflexivity.
  - eexists. split; [exact H|]. split; reflexivity.
Defined.

(** X10: once the page is fetched, and as long as no link is malformed
    ([urljoin] and [urlparse] raise on none), the listing holds exactly one
    descriptor per link found, in the order of the links and without removing
    repeated links; each has the joined URL and the base name of its path as
    file name; a probe that fails drops nothing; and exactly one HEAD request
    per link is sent, nothing else.  A malformed link empties the listing,
    the links before it having been probed. *)
Theorem get_zip_files_one_descriptor_per_link
    (cfg : Config) (hl : HtmlLib) (srv : server) (u : string) (w : World)
    (r : response) (w1 : World) :
  WebsiteMonitor._make_request cfg srv u w = (Ok (Some r), w1) →
  ((∀ h, h ∈ zip_hrefs hl (content r) → is_ok (WebsiteMonitor.link_target hl u h) = true) →
   ∃ files,
     WebsiteMonitor.get_zip_files cfg hl srv u w
     = (Ok files,
        add_events ((fun fi => Sent (WebsiteMonitor.head_request cfg (url fi))) <$> files) w1) ∧
     Forall2 (fun h fi => WebsiteMonitor.link_target hl u h = Ok (url fi, filename fi))
             (zip_hrefs hl (content r)) files) ∧
  (∀ before h after,
     zip_hrefs hl (content r) = before ++ h :: after →
     (∀ h', h' ∈ before → is_ok (WebsiteMonitor.link_target hl u h') = true) →
     is_ok (WebsiteMonitor.link_target hl u h) = false →
     ∃ probed,
       WebsiteMonitor.get_zip_files cfg hl srv u w
       = (Ok [],
          add_events ((fun fi => Sent (WebsiteMonitor.head_request cfg (url fi))) <$> probed)
                     w1) ∧
       Forall2 (fun h' fi => WebsiteMonitor.link_target hl u h' = Ok (url fi, filename fi))
               before probed).
Proof.
  intros Hreq. rewrite (get_zip_files_fetched cfg hl srv u w r w1 Hreq). split.
  - intros Hok.
    destruct (enrich_all_ok cfg hl srv u (zip_hrefs hl (content r)) w1 Hok)
      as (files & -> & Hall).
    exists files. split; [reflexivity|exact Hall].
  - intros before h after -> Hok Hbad.
    destruct (enrich_all_bad cfg hl srv u before h after w1 Hok Hbad)
      as (e & probed & -> & Hall).
    exists probed. split; [reflexivity|exact Hall].
Qed.

Lemma get_zip_files_one_descriptor_per_link_witness :
  ∃ files w',
    WebsiteMonitor.get_zip_files default_config Cases.html (Sample.steady Cases.linked_twice)
      (base_url default_config) Sample.world = (Ok files, w') ∧
    url <$> files = ["https://iattc.org/en-US/Data/data/catch.zip";
                     "https://iattc.org/en-US/Data/data/catch.zip"] ∧
    filename <$> files = ["catch.zip"; "catch.zip"] ∧
    requests_sent w' = 3.
Proof.
  destruct (get_zip_files_one_descriptor_per_link default_config Cases.html
              (Sample.steady Cases.linked_twice) (base_url default_config) Sample.world
              (Sample.ok_response Cases.linked_twice)
              (add_events [Sent (WebsiteMonitor.get_request default_config
                                   (base_url default_config))] Sample.world))
    as [Hok _].
  - vm_compute. reflexivity.
  - destruct Hok as (files & Hrun & Hall).
    + intros h Hh. vm_compute in Hh.
      apply elem_of_cons in Hh as [->|Hh]; [reflexivity|].
      apply elem_of_cons in Hh as [->|Hh]; [reflexivity|]. inversion Hh.
    + vm_compute in Hrun. injection Hrun as <- _.
      eexists _, _. split; [vm_compute; reflexivity|].
      split; [reflexivity|]. split; reflexivity.
Defined.

(** ** Further properties: one download *)

(** X11: the probe records the content-length of whatever response it
    gets, its status not being looked at.  When the recorded size is not zero,
    a download of that descriptor succeeds only with a file of exactly that
    size at the destination; and when the body the server delivers has
    another length, a download that is not skipped (no file of the recorded
    size being there already) fails: the transfer completes, the size check
    refuses it and the file is deleted. *)
Theorem probe_size_governs_download
    (cfg : Config) (zl : ZipLib) (srv : server) (file_info : FileInfo) (w : World)
    (r : response) (n : Z) :
  srv (requests_sent w) (WebsiteMonitor.head_request cfg (url file_info)) = Reply r →
  broken r = false →
  content_length_int r = Ok n →
  n ≠ 0%Z →
  WebsiteMonitor._enrich_file_info cfg srv file_info w
  = (Ok (WebsiteMonitor.enriched file_info n r),
     add_events [Sent (WebsiteMonitor.head_request cfg (url file_info))] w) ∧
  (∀ srv' destination w' w'',
     FileDownloader.download cfg zl srv' (WebsiteMonitor.enriched file_info n r)
       destination w' = (Ok true, w'') →
     ∃ data, fs w'' !! destination = Some data ∧ FileDownloader.st_size data = n) ∧
  (∀ srv' destination w' body,
     FileDownloader._validate_existing_file (fs w') destination
       (WebsiteMonitor.enriched file_info n r) = false →
     srv' (requests_sent w') (FileDownloader.get_request cfg (url file_info)) = Reply body →
     FileDownloader.bad_status body = false →
     is_ok (content_length_int body) = true →
     destination ∉ locked w' →
     broken body = false →
     FileDownloader.st_size (content body) ≠ n →
     ∃ w'', FileDownloader.download cfg zl srv' (WebsiteMonitor.enriched file_info n r)
              destination w' = (Ok false, w'') ∧
            fs w'' !! destination = None).
Proof.
  intros Hr Hb Hn Hn0. split; [|split].
  - rewrite enrich_eq, Hr, Hb, Hn. reflexivity.
  - intros srv' destination w' w'' H. rewrite download_eq in H. injection H as Ht <-.
    apply download_true_valid in Ht. unfold FileDownloader._validate_existing_file in Ht.
    destruct (fs _ !! destination) as [data|]; [|discriminate].
    exists data. split; [reflexivity|].
    unfold FileDownloader.size_mismatch in Ht. cbn [size WebsiteMonitor.enriched] in Ht.
    apply negb_true_iff, andb_false_iff in Ht as [Ht|Ht]; apply negb_false_iff in Ht.
    + apply Z.eqb_eq in Ht. contradiction.
    + apply Z.eqb_eq in Ht. exact Ht.
  - intros srv' destination w' body Hv Hbody Hs Hc Hl Hbr Hsize.
    rewrite download_eq. unfold FileDownloader.download_result.
    rewrite Hv.
    change (url (WebsiteMonitor.enriched file_info n r)) with (url file_info).
    rewrite Hbody, Hs. destruct (content_length_int body); [|discriminate].
    destruct (decide (destination ∈ locked w')); [contradiction|]. rewrite Hbr.
    assert (Hm : FileDownloader.size_mismatch (WebsiteMonitor.enriched file_info n r)
                   (content body) = true).
    { unfold FileDownloader.size_mismatch. cbn [size WebsiteMonitor.enriched].
      apply andb_true_iff. split; apply negb_true_iff, Z.eqb_neq; assumption. }
    unfold FileDownloader.validate_result. rewrite Hm.
    eexists. split; [reflexivity|]. cbn [snd fs set_fs]. apply lookup_delete_eq.
Qed.

Lemma probe_size_governs_download_witness :
  WebsiteMonitor._enrich_file_info default_config Cases.head_refused Sample.catch_any Sample.world
  = (Ok (WebsiteMonitor.enriched Sample.catch_any 9 Cases.not_found),
     add_events [Sent (WebsiteMonitor.head_request default_config (url Sample.catch_any))]
                Sample.world) ∧
  ∃ w'', FileDownloader.download default_config Sample.zip Cases.head_refused
           (WebsiteMonitor.enriched Sample.catch_any 9 Cases.not_found)
           "downloads/catch.zip" Sample.world = (Ok false, w'') ∧
         fs w'' !! "downloads/catch.zip" = None.
Proof.
  destruct (probe_size_governs_download default_config Sample.zip Cases.head_refused
              Sample.catch_any Sample.world Cases.not_found 9)
    as (H1 & _ & H2); [reflexivity|reflexivity|reflexivity|discriminate|].
  split; [exact H1|].
  apply (H2 Cases.head_refused "downloads/catch.zip" Sample.world
            (Sample.ok_response "PK|c.csv|a,b")); try reflexivity.
  - apply not_elem_of_empty.
  - vm_compute. discriminate.
Defined.



(** X13: when the archive opens but [testzip] raises anything other than
    [BadZipFile], [download] returns false without deleting: the fetched
    file stays at the destination. *)
Theorem download_testzip_error_keeps_file
    (cfg : Config) (zl : ZipLib) (srv : server) (file_info : FileInfo)
    (destination : string) (w : World) (r : response) (e : exn) :
  FileDownloader._validate_existing_file (fs w) destination file_info = false →
  srv (requests_sent w) (FileDownloader.get_request cfg (url file_info)) = Reply r →
  FileDownloader.bad_status r = false →
  is_ok (content_length_int r) = true →
  destination ∉ locked w →
  broken r = false →
  FileDownloader.size_mismatch file_info (content r) = false →
  is_Some (zip_open zl (content r)) →
  zip_test zl (content r) = Some e →
  is_BadZipFile e = false →
  ∃ w', FileDownloader.download cfg zl srv file_info destination w = (Ok false, w') ∧
        fs w' !! destination = Some (content r).
Proof.
  intros Hv Hr Hs Hc Hl Hb Hm [a Ha] Ht He.
  rewrite download_eq. unfold FileDownloader.download_result.
  rewrite Hv, Hr, Hs. destruct (content_length_int r); [|discriminate].
  destruct (decide (destination ∈ locked w)); [contradiction|]. rewrite Hb.
  unfold FileDownloader.validate_result. rewrite Hm, Ha, Ht, He.
  eexists. split; [reflexivity|]. cbn [snd fs set_fs]. apply lookup_insert_eq.
Qed.

Lemma download_testzip_error_keeps_file_witness :
  ∃ w', FileDownloader.download default_config Cases.encrypted
          (Sample.steady "PK|c.csv|a,b") Sample.catch_zip "downloads/catch.zip" Sample.world
        = (Ok false, w') ∧
        fs w' !! "downloads/catch.zip" = Some "PK|c.csv|a,b".
Proof.
  apply (download_testzip_error_keeps_file default_config Cases.encrypted
           (Sample.steady "PK|c.csv|a,b") Sample.catch_zip "downloads/catch.zip" Sample.world
           (Sample.ok_response "PK|c.csv|a,b") (PlainException "File is encrypted"));
    try reflexivity.
  - apply not_elem_of_empty.
  - vm_compute. eauto.
Defined.

(** X14: what a true result guarantees, for a descriptor that has the name
    of a file (not empty, not a dot name, without separator) and is downloaded
    to its place in the download directory.  After [download] returns true the
    destination, whose last component is the file name, holds a file with no
    size mismatch; and either nothing was sent and the world is untouched (the
    file was already there, and was not opened as an archive), or one request
    was sent and the file is the body received in full from a response without
    error status, which opens as an archive and on which [testzip] raised
    nothing (what [testzip] returns, the name of a damaged member, is not
    looked at). *)
Theorem download_true_postcondition
    (cfg : Config) (zl : ZipLib) (srv : server) (file_info : FileInfo)
    (destination : string) (w w' : World) :
  PyPath.is_filename (filename file_info) = true →
  destination = IATTCDataMonitor.destination cfg file_info →
  FileDownloader.download cfg zl srv file_info destination w = (Ok true, w') →
  PyPath.basename destination = filename file_info ∧
  ∃ data,
    fs w' !! destination = Some data ∧
    FileDownloader.size_mismatch file_info data = false ∧
    ((w' = w ∧ fs w !! destination = Some data) ∨
     ∃ r, srv (requests_sent w) (FileDownloader.get_request cfg (url file_info)) = Reply r ∧
          FileDownloader.bad_status r = false ∧
          broken r = false ∧
          data = content r ∧
          trace w' = trace w ++ [Sent (FileDownloader.get_request cfg (url file_info))] ∧
          is_Some (zip_open zl data) ∧
          zip_test zl data = None).
Proof.
  intros Hname Hdest H.
  split; [rewrite Hdest; apply basename_join; exact Hname|]. clear Hname Hdest.
  rewrite download_eq in H. injection H as Hb Hw. subst w'. revert Hb.
  unfold FileDownloader.download_result.
  destruct (FileDownloader._validate_existing_file (fs w) destination file_info) eqn:Hv.
  - intros _. unfold FileDownloader._validate_existing_file in Hv.
    destruct (fs w !! destination) as [data|] eqn:Hd; [|discriminate].
    exists data. cbn [snd]. split; [exact Hd|].
    split; [apply negb_true_iff; exact Hv|]. left. auto.
  - destruct (srv (requests_sent w) (FileDownloader.get_request cfg (url file_info)))
      as [r|e] eqn:Hr; [|discriminate].
    destruct (FileDownloader.bad_status r) eqn:Hs; [discriminate|].
    destruct (content_length_int r); [|discriminate].
    destruct (decide (destination ∈ locked w)); [discriminate|].
    destruct (broken r) eqn:Hbr; [discriminate|].
    destruct (FileDownloader.validate_result zl file_info (Some (content r)))
      as [[|]|] eqn:V; try discriminate.
    intros _. exists (content r). cbn [snd fs set_fs].
    split; [apply lookup_insert_eq|].
    unfold FileDownloader.validate_result in V.
    destruct (FileDownloader.size_mismatch file_info (content r)); [discriminate|].
    split; [reflexivity|]. right. exists r.
    destruct (zip_open zl (content r)) eqn:Ho; [|discriminate].
    destruct (zip_test zl (content r)) as [e|] eqn:Ht;
      [destruct (is_BadZipFile e); discriminate|].
    repeat split; eauto.
Qed.

Lemma download_true_postcondition_witness :
  ∃ data,
    fs (FileDownloader.download default_config Sample.zip (Sample.steady "PK|c.csv|a,b")
          Sample.catch_zip "downloads/catch.zip" Sample.world).2 !! "downloads/catch.zip"
    = Some data ∧
    FileDownloader.size_mismatch Sample.catch_zip data = false.
Proof.
  destruct (download_true_postcondition default_config Sample.zip (Sample.steady "PK|c.csv|a,b")
              Sample.catch_zip "downloads/catch.zip" Sample.world
              (FileDownloader.download default_config Sample.zip (Sample.steady "PK|c.csv|a,b")
                 Sample.catch_zip "downloads/catch.zip" Sample.world).2)
    as (_ & data & H1 & H2 & _).
  - reflexivity.
  - vm_compute. reflexivity.
  - vm_compute. reflexivity.
  - exists data. split; assumption.
Defined.

(** X15: a refresh that fails validation destroys what was there.  When a
    file at the destination has the wrong size, so that the descriptor is
    fetched again, and the new body is refused by [_validate_download], the
    destination holds no file afterwards: neither the new body nor the file
    that was there before. *)
Theorem failed_refresh_destroys_stale_file
    (cfg : Config) (zl : ZipLib) (srv : server) (file_info : FileInfo) (w : World) (old : string) :
  fs w !! IATTCDataMonitor.destination cfg file_info = Some old →
  IATTCDataMonitor.fails_validation cfg zl srv file_info w →
  FileDownloader.size_mismatch file_info old = true ∧
  ∃ w', FileDownloader.download cfg zl srv file_info
          (IATTCDataMonitor.destination cfg file_info) w = (Ok false, w') ∧
        fs w' !! IATTCDataMonitor.destination cfg file_info = None.
Proof.
  intros Hold Hfail. split.
  - destruct Hfail as [Hv _]. unfold FileDownloader._validate_existing_file in Hv.
    rewrite Hold in Hv. apply negb_false_iff. exact Hv.
  - rewrite download_eq. eexists. split; [|apply (fails_validation_alone cfg zl srv w file_info Hfail)].
    f_equal. f_equal. apply (fails_validation_alone cfg zl srv w file_info Hfail).
Qed.

Lemma failed_refresh_destroys_stale_file_witness :
  ∃ w', FileDownloader.download default_config Sample.zip Sample.site Sample.x_from_b
          "downloads/x.zip" (Sample.on_disk {["downloads/x.zip" := "old"]}) = (Ok false, w') ∧
        fs w' !! "downloads/x.zip" = None.
Proof.
  refine (proj2 (failed_refresh_destroys_stale_file default_config Sample.zip Sample.site
                   Sample.x_from_b (Sample.on_disk {["downloads/x.zip" := "old"]}) "old" _ _)).
  - vm_compute. reflexivity.
  - split; [vm_compute; reflexivity|]. exists (Sample.ok_response "garbage").
    repeat split; try reflexivity. apply not_elem_of_empty.
Defined.

(** ** Further properties: the download step *)

Section PoolMore.

Import FileDownloader IATTCDataMonitor.

Variable cfg : Config.
Variable zl : ZipLib.
Variable srv : server.
Variable zip_files : list FileInfo.
Variable w0 : World.

Lemma length_good_paths order :
  length (good_paths cfg zl srv w0 zip_files order) <= length order.
Proof.
  unfold good_paths. induction order as [|i order IH]; [reflexivity|].
  cbn [omap list_omap length]. destruct (zip_files !! i) as [fi|]; [|lia].
  destruct (alone cfg zl srv w0 fi).1; cbn [length]; lia.
Qed.

Lemma good_paths_inv order p :
  p ∈ good_paths cfg zl srv w0 zip_files order →
  ∃ i fi, i ∈ order ∧ zip_files !! i = Some fi ∧ p = destination cfg fi ∧
          (alone cfg zl srv w0 fi).1 = true.
Proof.
  unfold good_paths. rewrite list_elem_of_omap. intros (i & Hi & H).
  destruct (zip_files !! i) as [fi|] eqn:E; [|discriminate].
  destruct (alone cfg zl srv w0 fi).1 eqn:Hb; [|discriminate].
  injection H as <-. exists i, fi. auto.
Qed.

End PoolMore.

(** X16: with a pool of at least one worker, pairwise distinct file names,
    each the name of a file, and a server that answers a request the same way
    whenever it comes, the order in which the download tasks complete does not
    matter: two orders return the same paths up to their order and leave the
    same disk. *)
Theorem download_step_order_independent
    (cfg : Config) (zl : ZipLib) (srv : server) (zip_files : list FileInfo) (w0 : World)
    (order1 order2 : list nat) :
  (0 < max_workers cfg)%nat →
  IATTCDataMonitor.stateless srv →
  NoDup (filename <$> zip_files) →
  Forall (fun fi => PyPath.is_filename (filename fi) = true) zip_files →
  order1 ≡ₚ seq 0 (length zip_files) →
  order2 ≡ₚ seq 0 (length zip_files) →
  ∃ paths1 w1 paths2 w2,
    IATTCDataMonitor._download_files_concurrently cfg zl srv zip_files order1 w0
    = (Ok paths1, w1) ∧
    IATTCDataMonitor._download_files_concurrently cfg zl srv zip_files order2 w0
    = (Ok paths2, w2) ∧
    paths1 ≡ₚ paths2 ∧
    fs w1 = fs w2.
Proof.
  intros Hpool Hsrv Hnames Hproper H1 H2.
  rewrite !(pool_runs_tasks cfg zl srv zip_files _ Hpool).
  assert (Hnd1 : NoDup order1) by (rewrite H1; apply NoDup_seq).
  assert (Hnd2 : NoDup order2) by (rewrite H2; apply NoDup_seq).
  destruct (run_tasks_isolated cfg zl srv Hsrv zip_files w0 Hnames Hproper order1 w0 Hnd1)
    as (w1 & Hrun1 & _ & Hmine1 & Hrest1); [reflexivity|reflexivity|].
  destruct (run_tasks_isolated cfg zl srv Hsrv zip_files w0 Hnames Hproper order2 w0 Hnd2)
    as (w2 & Hrun2 & _ & Hmine2 & Hrest2); [reflexivity|reflexivity|].
  eexists _, w1, _, w2. split; [exact Hrun1|]. split; [exact Hrun2|]. split.
  - unfold IATTCDataMonitor.good_paths. rewrite H1, H2. reflexivity.
  - apply map_eq. intros p.
    destruct (decide (p ∈ (IATTCDataMonitor.destination cfg <$> zip_files))) as [Hin|Hout].
    + apply list_elem_of_fmap in Hin as (fi & -> & Hfi).
      apply list_elem_of_lookup in Hfi as [i Hi].
      assert (Hlt : i < length zip_files) by (apply lookup_lt_Some in Hi; exact Hi).
      rewrite (Hmine1 i fi), (Hmine2 i fi); auto.
      * rewrite H2. apply elem_of_seq. lia.
      * rewrite H1. apply elem_of_seq. lia.
    + rewrite Hrest1, Hrest2; [reflexivity| |].
      * intros i fi _ Hi ->. apply Hout. apply list_elem_of_fmap. exists fi.
        split; [reflexivity|]. apply list_elem_of_lookup. eauto.
      * intros i fi _ Hi ->. apply Hout. apply list_elem_of_fmap. exists fi.
        split; [reflexivity|]. apply list_elem_of_lookup. eauto.
Qed.

Lemma download_step_order_independent_witness :
  ∃ paths1 w1 paths2 w2,
    IATTCDataMonitor._download_files_concurrently default_config Sample.zip Sample.site
      [Sample.catch_any; Sample.effort_any] [0; 1] Sample.world = (Ok paths1, w1) ∧
    IATTCDataMonitor._download_files_concurrently default_config Sample.zip Sample.site
      [Sample.catch_any; Sample.effort_any] [1; 0] Sample.world = (Ok paths2, w2) ∧
    paths1 ≡ₚ paths2 ∧
    fs w1 = fs w2.
Proof.
  apply (download_step_order_independent default_config Sample.zip Sample.site
           [Sample.catch_any; Sample.effort_any] Sample.world [0; 1] [1; 0]).
  - cbn. lia.
  - intros n m rq. reflexivity.
  - apply NoDup_ListNoDup. cbn [fmap list_fmap filename Sample.catch_any Sample.effort_any
      Sample.descriptor].
    constructor; [intros [H|[]]; discriminate H|]. constructor; [intros []|constructor].
  - repeat constructor.
  - reflexivity.
  - apply perm_swap.
Defined.

(** X17: with a pool of at least one worker, pairwise distinct file names,
    each the name of a file, and such a server, every path the download step
    returns is the destination of one of the descriptors and holds, when the
    step ends, a file with no size mismatch for that descriptor; and no more
    paths are returned than there are descriptors.  Without a worker the step
    raises [ValueError] and nothing is downloaded. *)
Theorem downloaded_paths_exist
    (cfg : Config) (zl : ZipLib) (srv : server) (zip_files : list FileInfo) (w0 : World)
    (order : list nat) :
  IATTCDataMonitor.stateless srv →
  NoDup (filename <$> zip_files) →
  Forall (fun fi => PyPath.is_filename (filename fi) = true) zip_files →
  order ≡ₚ seq 0 (length zip_files) →
  (max_workers cfg = 0 →
   IATTCDataMonitor._download_files_concurrently cfg zl srv zip_files order w0
   = (Raise ValueError, w0)) ∧
  ((0 < max_workers cfg)%nat →
   ∃ paths w',
     IATTCDataMonitor._download_files_concurrently cfg zl srv zip_files order w0
     = (Ok paths, w') ∧
     (length paths <= length zip_files)%nat ∧
     ∀ p, p ∈ paths →
       ∃ file_info data,
         file_info ∈ zip_files ∧
         p = IATTCDataMonitor.destination cfg file_info ∧
         fs w' !! p = Some data ∧
         FileDownloader.size_mismatch file_info data = false).
Proof.
  intros Hsrv Hnames Hproper Hperm. split; [apply pool_without_workers|]. intros Hpool.
  rewrite (pool_runs_tasks cfg zl srv zip_files order Hpool).
  assert (Hnd : NoDup order) by (rewrite Hperm; apply NoDup_seq).
  destruct (run_tasks_isolated cfg zl srv Hsrv zip_files w0 Hnames Hproper order w0 Hnd)
    as (w' & Hrun & _ & Hmine & _); [reflexivity|reflexivity|].
  eexists _, w'. split; [exact Hrun|]. split.
  - pose proof (length_good_paths cfg zl srv zip_files w0 order) as H.
    rewrite Hperm in H at 2. rewrite length_seq in H. exact H.
  - intros p Hp. apply good_paths_inv in Hp as (i & fi & Hi & Hfi & -> & Hb).
    pose proof (download_true_valid cfg zl srv fi (IATTCDataMonitor.destination cfg fi) w0 Hb)
      as Hv.
    unfold FileDownloader._validate_existing_file in Hv.
    fold (IATTCDataMonitor.alone cfg zl srv w0 fi) in Hv.
    rewrite <- (Hmine i fi Hi Hfi) in Hv.
    destruct (fs w' !! IATTCDataMonitor.destination cfg fi) as [data|] eqn:E; [|discriminate].
    exists fi, data. split; [apply list_elem_of_lookup; eauto|].
    split; [reflexivity|]. split; [reflexivity|]. apply negb_true_iff. exact Hv.
Qed.

Lemma downloaded_paths_exist_witness :
  ∃ paths w',
    IATTCDataMonitor._download_files_concurrently default_config Sample.zip Sample.site
      [Sample.catch_any; Sample.effort_any] [1; 0] Sample.world = (Ok paths, w') ∧
    (length paths <= 2)%nat.
Proof.
  destruct (downloaded_paths_exist default_config Sample.zip Sample.site
              [Sample.catch_any; Sample.effort_any] Sample.world [1; 0])
    as [_ Hstep].
  - intros n m rq. reflexivity.
  - apply NoDup_ListNoDup. cbn [fmap list_fmap filename Sample.catch_any Sample.effort_any
      Sample.descriptor].
    constructor; [intros [H|[]]; discriminate H|]. constructor; [intros []|constructor].
  - repeat constructor.
  - apply perm_swap.
  - destruct Hstep as (paths & w' & H & Hl & _); [cbn; lia|].
    exists paths, w'. split; [exact H|exact Hl].
Defined.

(** ** Further properties: the processors *)

Section ProcessorFacts.

Variable lib : CSVToJSONConverter.Lib.
Variable zl : ZipLib.





End ProcessorFacts.




(** An archive whose one member has an absolute name: the file is stored
    below the extraction directory, and the path returned is the name itself,
    where another file happens to lie. *)
Example absolute_member_is_returned :
  ZipProcessor.process Sample.zip "downloads/a.zip" "json_output"
    {["downloads/a.zip" := "PK|/srv/b.csv|x,y"; "/srv/b.csv" := "other"]}
  = (Ok ["/srv/b.csv"],
     {["downloads/a.zip" := "PK|/srv/b.csv|x,y"; "/srv/b.csv" := "other";
       "json_output/a/srv/b.csv" := "x,y"]}).
Proof. vm_compute. reflexivity. Qed.

(** ** Further properties: the chain and one monitoring cycle *)

Section ChainMore.

Import Chain.

Variable cfg : Config.
Variable procs : list Processor.

(** A pass in which no accepting processor is the extractor calls nothing
    below its own level. *)
Lemma chain_loop_flat rec level file_path out : ∀ ps idx processed w,
  (∀ p, p ∈ ps → can_process p file_path = true → is_ZipProcessor p = false) →
  calls (chain_loop rec ps level idx file_path out processed w).2
  = calls w ++ ((fun i => (level, i, file_path)) <$> matching ps idx file_path).
Proof.
  induction ps as [|p ps IH]; intros idx processed w Hflat.
  - cbn. rewrite app_nil_r. reflexivity.
  - cbn [chain_loop matching].
    assert (Hps : ∀ q, q ∈ ps → can_process q file_path = true → is_ZipProcessor q = false)
      by (intros q Hq; apply Hflat; right; exact Hq).
    destruct (can_process p file_path) eqn:Hc; [|apply IH; exact Hps].
    rewrite (Hflat p ltac:(left) Hc).
    pose proof (invoke_calls p level idx file_path out w) as Ei.
    destruct (invoke p level idx file_path out w) as [[results|e] w1]; cbn [snd] in Ei;
      rewrite IH by exact Hps; rewrite Ei, <- app_assoc; reflexivity.
Qed.

Lemma process_files_ok depth : ∀ file_paths w,
  ∃ processed w', _process_files (S depth) cfg procs file_paths w = (Ok processed, w').
Proof.
  induction file_paths as [|f rest IH]; intros w; [eexists _, _; reflexivity|].
  cbn [_process_files]. unfold bind at 1. cbn [_process_single_file].
  destruct (chain_loop _ _ _ _ _ _ _ _) as [processed w1].
  destruct (IH w1) as (more & w2 & H). unfold bind. rewrite H. eexists _, _. reflexivity.
Qed.

End ChainMore.

(** X20: what a processor other than the extractor produces is never fed
    back.  In a pass where no accepting processor is the extractor, the calls
    made are exactly one per accepting processor, in registry order, all at
    the level of the file handed in. *)
Theorem outputs_of_converters_are_final
    (cfg : Config) (procs : list Processor) (depth : nat) (file_path : string) (w : Chain.state) :
  (∀ p, p ∈ procs → can_process p file_path = true → is_ZipProcessor p = false) →
  ∃ processed w',
    Chain._process_single_file (S depth) 0 cfg procs file_path w = (Ok processed, w') ∧
    Chain.calls w'
    = Chain.calls w ++ ((fun i => (0, i, file_path)) <$> Chain.matching procs 0 file_path).
Proof.
  intros Hflat. cbn [Chain._process_single_file].
  pose proof (chain_loop_flat (Chain._process_single_file depth 1 cfg procs) 0 file_path
                (output_dir cfg) procs 0 [] w Hflat) as H.
  destruct (Chain.chain_loop _ _ _ _ _ _ _ _) as [processed w'].
  exists processed, w'. split; [reflexivity|exact H].
Qed.

Lemma outputs_of_converters_are_final_witness :
  ∃ processed w',
    Chain._process_single_file 1000 0 default_config (Chain.file_processors Sample.zip Sample.csv)
      "downloads/catch.csv" (Sample.chain_disk {["downloads/catch.csv" := Sample.table]})
    = (Ok processed, w') ∧
    Chain.calls w' = [(0, 1, "downloads/catch.csv")].
Proof.
  destruct (outputs_of_converters_are_final default_config
              (Chain.file_processors Sample.zip Sample.csv) 999 "downloads/catch.csv"
              (Sample.chain_disk {["downloads/catch.csv" := Sample.table]}))
    as (processed & w' & H1 & H2).
  - intros p Hp Hc. apply elem_of_cons in Hp as [->|Hp]; [vm_compute in Hc; discriminate|].
    apply list_elem_of_singleton in Hp as ->. reflexivity.
  - exists processed, w'. split; [exact H1|]. rewrite H2. vm_compute. reflexivity.
Defined.

Section CycleFacts.

Import WebsiteMonitor Cycle.

Variable cfg : Config.
Variable md5 : string → string.
Variable hl : HtmlLib.
Variable zl : ZipLib.
Variable srv : server.
Variable procs : list Processor.
Variable sched : list FileInfo → list nat.
Variable depth : nat.
Variable str : exn → string.

Local Abbreviation page_event :=
  (fun e => e = Sent (get_request cfg (base_url cfg)) ∨
            ∃ j, (j < retry_attempts cfg)%nat ∧ e = Slept (2 ^ j)).

Lemma in_world_eq {A} (m : M World A) s r w' :
  m (world s) = (r, w') →
  in_world m s = (r, {| world := w'; calls := calls s; notes := notes s |}).
Proof. intros H. unfold in_world. rewrite H. reflexivity. Qed.

(** [detect_changes] never raises; it sends page requests only, leaves the
    disk alone, and leaves the cache alone when it reports no change. *)
Lemma detect_changes_total u w :
  ∃ b w1 evs,
    detect_changes cfg md5 srv u w = (Ok b, w1) ∧
    trace w1 = trace w ++ evs ∧
    Forall (fun e => e = Sent (get_request cfg u) ∨
                     ∃ j, (j < retry_attempts cfg)%nat ∧ e = Slept (2 ^ j)) evs ∧
    fs w1 = fs w ∧ locked w1 = locked w ∧
    cache_writable w1 = cache_writable w ∧ clock w1 = clock w ∧
    (b = false → cache w1 = cache w).
Proof.
  destruct (make_request_bounds cfg srv u w) as (res & evs & Hreq & _ & Hev & _).
  rewrite (detect_changes_eq cfg md5 srv u w _ _ Hreq).
  assert (Hno : ∃ b w1 evs0,
    (Ok false, add_events evs w) = (@Ok bool b, w1) ∧
    trace w1 = trace w ++ evs0 ∧
    Forall (fun e => e = Sent (get_request cfg u) ∨
                     ∃ j, (j < retry_attempts cfg)%nat ∧ e = Slept (2 ^ j)) evs0 ∧
    fs w1 = fs w ∧ locked w1 = locked w ∧
    cache_writable w1 = cache_writable w ∧ clock w1 = clock w ∧
    (b = false → cache w1 = cache w))
    by (exists false, (add_events evs w), evs; repeat split; auto).
  destruct res as [[r|]|e]; [|exact Hno|exact Hno].
  destruct (cache (add_events evs w)); [| |exact Hno|];
    (destruct (differs (md5 (content r)) _); [|exact Hno]);
    exists true; eexists _, evs; (split; [reflexivity|]);
    destruct (cache_writable (add_events evs w)); repeat split; auto; discriminate.
Qed.

(** [get_zip_files] never raises and only adds events to the world. *)
Lemma get_zip_files_total u w :
  ∃ files evs, get_zip_files cfg hl srv u w = (Ok files, add_events evs w).
Proof.
  destruct (make_request_bounds cfg srv u w) as (res & evs & Hreq & _).
  destruct res as [[r|]|e].
  - rewrite (get_zip_files_fetched cfg hl srv u w r _ Hreq).
    destruct (enrich_all_events cfg hl srv u (zip_hrefs hl (content r)) (add_events evs w))
      as (res & evs' & ->).
    rewrite add_events_app. destruct res; eauto.
  - rewrite (get_zip_files_unavailable cfg hl srv u w _ Hreq). eauto.
  - rewrite (get_zip_files_raised cfg hl srv u w e _ Hreq). eauto.
Qed.

Lemma download_result_frame file_info destination w :
  cache (FileDownloader.download_result cfg zl srv file_info destination w).2 = cache w ∧
  cache_writable (FileDownloader.download_result cfg zl srv file_info destination w).2
  = cache_writable w ∧
  clock (FileDownloader.download_result cfg zl srv file_info destination w).2 = clock w.
Proof.
  unfold FileDownloader.download_result.
  destruct (FileDownloader._validate_existing_file (fs w) destination file_info); [auto|].
  destruct (srv (requests_sent w) (FileDownloader.get_request cfg (url file_info))) as [r|e];
    [|auto].
  destruct (FileDownloader.bad_status r); [auto|].
  destruct (content_length_int r); [|auto].
  destruct (decide (destination ∈ locked w)); [auto|].
  destruct (broken r); [auto|].
  destruct (FileDownloader.validate_result zl file_info (Some (content r))) as [[|]|]; auto.
Qed.

(** The download step never raises and leaves the cache alone. *)
Lemma run_tasks_total zip_files order : ∀ w,
  ∃ paths w',
    IATTCDataMonitor.run_tasks cfg zl srv zip_files order w = (Ok paths, w') ∧
    cache w' = cache w ∧ cache_writable w' = cache_writable w ∧ clock w' = clock w.
Proof.
  induction order as [|i rest IH]; intros w; [eexists _, _; repeat split; reflexivity|].
  cbn [IATTCDataMonitor.run_tasks]. destruct (zip_files !! i) as [fi|]; [|apply IH].
  unfold bind at 1. rewrite download_eq.
  destruct (download_result_frame fi (IATTCDataMonitor.destination cfg fi) w) as (E1 & E2 & E3).
  destruct (IH (FileDownloader.download_result cfg zl srv fi
                  (IATTCDataMonitor.destination cfg fi) w).2) as (paths & w' & H & F1 & F2 & F3).
  unfold bind. rewrite H. eexists _, w'. split; [reflexivity|].
  rewrite F1, F2, F3. auto.
Qed.

End CycleFacts.

Section CycleMore.

Import WebsiteMonitor Cycle.

Variable cfg : Config.
Variable md5 : string → string.
Variable hl : HtmlLib.
Variable zl : ZipLib.
Variable srv : server.
Variable procs : list Processor.
Variable sched : list FileInfo → list nat.
Variable depth : nat.
Variable str : exn → string.

Local Abbreviation cycle := (run_monitoring_cycle cfg md5 hl zl srv procs sched depth str).

Lemma process_files_result file_paths c :
  (∃ processed c', Chain._process_files depth cfg procs file_paths c = (Ok processed, c')) ∨
  (depth = 0 ∧ ∃ c', Chain._process_files depth cfg procs file_paths c = (Raise RecursionError, c')).
Proof.
  destruct depth as [|d]; [|left; apply process_files_ok].
  destruct file_paths as [|f rest]; [left; eexists _, _; reflexivity|].
  right. split; [reflexivity|]. eexists. reflexivity.
Qed.

(** A cycle never raises.  When [detect_changes] reports no change the cycle
    ends there; otherwise it announces the change and ends in one of four
    ways; whatever happens after [detect_changes] leaves the cache alone. *)
Lemma cycle_cases s b w1 :
  detect_changes cfg md5 srv (base_url cfg) (world s) = (Ok b, w1) →
  ∃ s', cycle s = (Ok tt, s') ∧
        cache (world s') = cache w1 ∧
        (b = false → s' = {| world := w1; calls := calls s; notes := notes s |}) ∧
        (b = true → ∃ extra, ending cfg depth str extra ∧
                      notes s' = notes s ++ (LogInfo, changes_detected) :: extra).
Proof.
  intros Hd. unfold run_monitoring_cycle, try_except. unfold bind at 1.
  rewrite (in_world_eq _ s _ _ Hd). destruct b; cbn [negb];
    [|eexists; split; [reflexivity|]; split; [reflexivity|];
      split; [intros _; reflexivity|discriminate]].
  unfold bind at 1, notify at 1, modify. unfold bind at 1.
  destruct (get_zip_files_total cfg hl srv (base_url cfg) w1) as (files & evs & Hz).
  erewrite in_world_eq by (cbn [world]; exact Hz).
  destruct files as [|f files].
  { eexists. split; [reflexivity|]. split; [reflexivity|]. split; [discriminate|].
    intros _. exists []. split; [constructor|reflexivity]. }
  unfold bind at 1.
  destruct (Nat.eq_dec (max_workers cfg) 0) as [Hnone|Hpool].
  { erewrite in_world_eq
      by (cbn [world]; apply (pool_without_workers cfg zl srv); exact Hnone).
    cbn [any_exception]. unfold notify, modify.
    eexists. split; [reflexivity|]. split; [reflexivity|]. split; [discriminate|].
    intros _. eexists. split; [apply (NoWorkers cfg depth str Hnone)|].
    cbn [notes]. rewrite <- app_assoc. reflexivity. }
  rewrite (pool_runs_tasks cfg zl srv (f :: files) (sched (f :: files))) by lia.
  destruct (run_tasks_total cfg zl srv (f :: files) (sched (f :: files)) (add_events evs w1))
    as (paths & w2 & Hr & F1 & _).
  erewrite in_world_eq by (cbn [world]; exact Hr).
  unfold bind at 1, in_chain. cbn [world calls notes].
  destruct (process_files_result paths {| Chain.fs := fs w2; Chain.calls := calls s |})
    as [(processed & c' & Hp) | (Hz0 & c' & Hp)]; rewrite Hp.
  - eexists. split; [reflexivity|]. split; [exact F1|]. split; [discriminate|].
    intros _. eexists. split; [apply (Processed cfg depth str processed)|].
    cbn [notes]. rewrite <- app_assoc. reflexivity.
  - eexists. split; [reflexivity|]. split; [exact F1|]. split; [discriminate|].
    intros _. eexists. split; [apply (Overflow cfg depth str Hz0)|].
    cbn [notes]. rewrite <- app_assoc. reflexivity.
Qed.

End CycleMore.

(** X21: a cycle in which [detect_changes] reports no change is silent.  It
    returns normally with no notification and no processor call; all it did
    was ask for the page (with the pauses of the retries): the disk and the
    cache are as before. *)
Theorem unchanged_page_gives_silent_cycle
    (cfg : Config) (md5 : string → string) (hl : HtmlLib) (zl : ZipLib) (srv : server)
    (procs : list Processor) (sched : list FileInfo → list nat) (depth : nat)
    (str : exn → string) (s : Cycle.state) (w1 : World) :
  WebsiteMonitor.detect_changes cfg md5 srv (base_url cfg) (Cycle.world s) = (Ok false, w1) →
  Cycle.run_monitoring_cycle cfg md5 hl zl srv procs sched depth str s
  = (Ok tt, {| Cycle.world := w1; Cycle.calls := Cycle.calls s; Cycle.notes := Cycle.notes s |}) ∧
  fs w1 = fs (Cycle.world s) ∧ cache w1 = cache (Cycle.world s) ∧
  ∃ evs, trace w1 = trace (Cycle.world s) ++ evs ∧
         Forall (fun e => e = Sent (WebsiteMonitor.get_request cfg (base_url cfg)) ∨
                          ∃ j, (j < retry_attempts cfg)%nat ∧ e = Slept (2 ^ j)) evs.
Proof.
  intros Hd.
  destruct (cycle_cases cfg md5 hl zl srv procs sched depth str s false w1 Hd)
    as (s' & Hrun & _ & Hs & _).
  rewrite Hrun, (Hs eq_refl). split; [reflexivity|].
  destruct (detect_changes_total cfg md5 srv (base_url cfg) (Cycle.world s))
    as (b & w1' & evs & Hd' & Ht & Hev & Hfs & _ & _ & _ & Hc).
  rewrite Hd in Hd'. injection Hd' as <- <-.
  split; [exact Hfs|]. split; [exact (Hc eq_refl)|]. exists evs. split; assumption.
Qed.

Lemma unchanged_page_gives_silent_cycle_witness :
  ∃ w1,
    Cycle.run_monitoring_cycle default_config Sample.md5 Cases.html Sample.zip Cases.down
      (Chain.file_processors Sample.zip Sample.csv) (fun zs => seq 0 (length zs)) 1000
      (fun _ => "error")
      {| Cycle.world := Cases.stale; Cycle.calls := []; Cycle.notes := [] |}
    = (Ok tt, {| Cycle.world := w1; Cycle.calls := []; Cycle.notes := [] |}) ∧
    fs w1 = {["downloads/catch.zip" := "old"]} ∧
    slept_total (trace w1) = 7.
Proof.
  eexists.
  destruct (unchanged_page_gives_silent_cycle default_config Sample.md5 Cases.html Sample.zip
              Cases.down (Chain.file_processors Sample.zip Sample.csv)
              (fun zs => seq 0 (length zs)) 1000 (fun _ => "error")
              {| Cycle.world := Cases.stale; Cycle.calls := []; Cycle.notes := [] |}
              _ ltac:(vm_compute; reflexivity)) as (Hrun & Hfs & _).
  split; [exact Hrun|]. split; [exact Hfs|]. vm_compute. reflexivity.
Defined.



